(** * Order lifecycle and delivery dispatch of the DeliveryApp backend

    A shallow embedding of the order handlers of [src/app.py]:
    [generate_order_number], [create_order], [update_order_status],
    [assign_delivery_person], [create_review], [validate_coupon],
    [accept_delivery_order], [confirm_delivery], [confirm_received] and
    [cancel_order], over an explicit model of the MongoDB collections
    they read and write.  A second part embeds the functions around
    them: [serialize_doc], the reading handlers [get_orders],
    [get_order] and [get_available_delivery_orders], [create_coupon],
    [register_as_delivery], [update_delivery_status],
    [delete_user_admin], [update_user_admin], [register], the handlers
    of addresses and of notifications, and the paging figures of
    [get_dishes].

    Conventions.
    - A handler is a function from the ambient inputs of one request (the
      clock, the [_id] the driver draws for an insert), the store and the
      request to an HTTP response and the store it leaves behind.  Each
      handler runs to completion before the next one starts, and reads
      the clock once.
    - A JSON number is a Python [int] or a Python [float]; floats are the
      kernel's binary64 numbers, so arithmetic rounds as CPython's does.
    - Documents and request bodies follow the schema the handlers
      themselves write and index: a field the code reads with [.get] is
      an [option], [None] when the key is absent (or holds a falsy
      value where the code only tests it).
    - A request reaches a handler authenticated: [@jwt_required] has
      already resolved the token to [current_user_id]. *)

From Stdlib Require Import ZArith List String Ascii Floats Lia.
From Stdlib Require Import Decimal DecimalNat DecimalString.
From stdpp Require Import base option list gmap strings sorting.

#[local] Set Warnings "-inexact-float".
#[local] Open Scope Z_scope.

(** ** Exceptions

    Every handler body sits in [try: ... except Exception as e: return
    jsonify(...), 500]; these are the exceptions a well-typed request can
    raise on the paths modelled here. *)

Inductive exn :=
| OverflowError        (* int too large for a float, or for a BSON int64 *)
| ZeroDivisionError
| KeyError (key : string)
| DuplicateKeyError.   (* insert_one on an [_id] that is taken *)

Inductive exc (A : Type) :=
| Ok (a : A)
| Raise (e : exn).
Arguments Ok {A} a.
Arguments Raise {A} e.

#[global] Instance exc_ret : MRet exc := @Ok.
#[global] Instance exc_bind : MBind exc :=
  λ A B f m, match m with Ok a => f a | Raise e => Raise e end.

(** ** Python numbers *)

Module Py.

Inductive num :=
| Int (n : Z)
| Float (x : float).

(** The exact integer or the IEEE special a value of [Z] maps to. *)
Definition sf_of_Z (n : Z) : spec_float :=
  match n with
  | Z0 => S754_zero false
  | Zpos p => S754_finite false p 0
  | Zneg p => S754_finite true p 0
  end.

(** [float(n)]: the nearest binary64 (ties to even); [OverflowError]
    when the rounded value does not fit. *)
Definition float_of_int (n : Z) : exc float :=
  match binary_normalize prec emax n 0 false with
  | S754_infinity _ => Raise OverflowError
  | sf => Ok (SF2Prim sf)
  end.

Definition to_float (a : num) : exc float :=
  match a with
  | Int n => float_of_int n
  | Float x => Ok x
  end.

(** Binary [+], [-], [*]: exact on two ints, otherwise both operands
    are coerced to float and the IEEE operation is applied (a float
    overflow yields an infinity, not an exception). *)
Definition arith (fz : Z → Z → Z) (ff : float → float → float)
    (a b : num) : exc num :=
  match a, b with
  | Int m, Int n => Ok (Int (fz m n))
  | _, _ => x ← to_float a; y ← to_float b; Ok (Float (ff x y))
  end.

Definition add := arith Z.add PrimFloat.add.
Definition sub := arith Z.sub PrimFloat.sub.
Definition mul := arith Z.mul PrimFloat.mul.

(** True division [a / b].  On two ints CPython rounds the exact
    quotient once; on floats it is IEEE division.  A zero divisor
    raises in both cases. *)
Definition truediv (a b : num) : exc num :=
  match a, b with
  | Int m, Int n =>
      if n =? 0 then Raise ZeroDivisionError
      else match SFdiv prec emax (sf_of_Z m) (sf_of_Z n) with
           | S754_infinity _ => Raise OverflowError
           | sf => Ok (Float (SF2Prim sf))
           end
  | _, _ =>
      x ← to_float a; y ← to_float b;
      if PrimFloat.eqb y 0 then Raise ZeroDivisionError
      else Ok (Float (PrimFloat.div x y))
  end.

(** Three-way comparison; [None] when a NaN is involved.  An int and a
    float are compared by value, without converting the int. *)
Definition compare_int_float (n : Z) (x : float) : option comparison :=
  match Prim2SF x with
  | S754_nan => None
  | S754_zero _ => Some (n ?= 0)
  | S754_infinity s => Some (if s then Gt else Lt)
  | S754_finite s m e =>
      let v := if s then Z.neg m else Z.pos m in
      Some (if 0 <=? e then n ?= v * 2 ^ e else n * 2 ^ (- e) ?= v)
  end.

Definition compare (a b : num) : option comparison :=
  match a, b with
  | Int m, Int n => Some (m ?= n)
  | Int m, Float y => compare_int_float m y
  | Float x, Int n => CompOpp <$> compare_int_float n x
  | Float x, Float y =>
      match PrimFloat.compare x y with
      | FEq => Some Eq
      | FLt => Some Lt
      | FGt => Some Gt
      | FNotComparable => None
      end
  end.

Definition lt (a b : num) : bool :=
  match compare a b with Some Lt => true | _ => false end.
Definition gt (a b : num) : bool :=
  match compare a b with Some Gt => true | _ => false end.
Definition ge (a b : num) : bool :=
  match compare a b with Some Gt | Some Eq => true | _ => false end.

(** [bool(a)]: every number but a zero is true (a NaN is true). *)
Definition truthy (a : num) : bool :=
  match a with
  | Int n => negb (n =? 0)
  | Float x => negb (PrimFloat.eqb x 0)
  end.

(** [min(a, b)]: [b] replaces [a] only when [b < a]. *)
Definition min (a b : num) : num := if lt b a then b else a.

(** [n / d] rounded to the nearest integer, ties to the even one. *)
Definition div_half_even (n d : Z) : Z :=
  let q := n / d in
  match 2 * (n mod d) ?= d with
  | Lt => q
  | Gt => q + 1
  | Eq => if Z.even q then q else q + 1
  end.

(** [float.__round__(x, ndigits)] for [ndigits >= 0]: non-finite values
    and zeros round to themselves; otherwise the exact value of [x] is
    rounded half-even to [ndigits] decimals and the decimal result is
    turned into the nearest binary64 again. *)
Definition float_round (x : float) (ndigits : nat) : float :=
  match Prim2SF x with
  | S754_finite s m e =>
      let p := 10 ^ Z.of_nat ndigits in
      let q := if 0 <=? e then Z.pos m * 2 ^ e * p
               else div_half_even (Z.pos m * p) (2 ^ (- e)) in
      match q, p with
      | Zpos q, Zpos p =>
          SF2Prim (SFdiv prec emax (S754_finite s q 0) (S754_finite false p 0))
      | _, _ => if s then PrimFloat.neg_zero else PrimFloat.zero
      end
  | _ => x
  end.

(** [round(a, ndigits)]: an int is returned as it is. *)
Definition round (a : num) (ndigits : nat) : num :=
  match a with
  | Int n => Int n
  | Float x => Float (float_round x ndigits)
  end.

(** [sum(iterable)]: the items are added to [0] from left to right.
    (CPython 3.12 and later compensate the rounding errors of a run of
    floats; with at most one float item the two coincide.) *)
Fixpoint sum_from (acc : num) (l : list num) : exc num :=
  match l with
  | [] => Ok acc
  | a :: l => acc' ← add acc a; sum_from acc' l
  end.
Definition sum (l : list num) : exc num := sum_from (Int 0) l.

(** [str(n)] for a count [n]: decimal, no leading zero. *)
Definition str (n : nat) : string :=
  NilEmpty.string_of_uint (Nat.to_uint n).

(** [s.zfill(width)]: zeros on the left up to [width], after a leading
    sign if there is one. *)
Definition zeros (k : nat) : string := string_of_list_ascii (repeat "0"%char k).

Definition zfill (s : string) (width : nat) : string :=
  let pad := zeros (width - String.length s) in
  match s with
  | String c rest =>
      if (Ascii.eqb c "+" || Ascii.eqb c "-")%bool
      then String c (pad ++ rest)
      else (pad ++ s)%string
  | EmptyString => pad
  end.

(** [s.upper()] for a string of ASCII characters: the letters a to z
    are capitalised and every other byte is kept.  Python's [upper]
    follows Unicode (['ñ'.upper()] is ['Ñ']), so beyond ASCII this is
    not it; the statements that rest on the value of [upper] are about
    ASCII strings. *)
Definition upper_char (c : ascii) : ascii :=
  let n := nat_of_ascii c in
  if ((97 <=? n) && (n <=? 122))%nat then ascii_of_nat (n - 32) else c.

Fixpoint upper (s : string) : string :=
  match s with
  | EmptyString => EmptyString
  | String c s => String (upper_char c) (upper s)
  end.

End Py.

(** ** Documents and collections *)

(** An [ObjectId]; [str] of it is the identity a token carries. *)
Abbreviation oid := N (only parsing).

Record date := { year : nat; month : nat; day : nat }.

Record user := { role : string }.

Record delivery_person := {
  dp_userId : oid;
  isAvailable : bool;
  isOnline : bool
}.

Record status_entry := {
  entry_status : string;
  entry_timestamp : Z;
  entry_note : string
}.

(** One line of an order as the client sends it.  The handlers index
    [subtotal] and [quantity], and read [restaurantId] and [dishId] when
    they are there. *)
Record order_item := {
  item_name : string;
  item_subtotal : Py.num;
  item_quantity : Py.num;
  item_restaurantId : option oid;
  item_dishId : option oid
}.

(** The delivery address travels as an opaque JSON object. *)
Abbreviation address := string (only parsing).

Record order_rating := {
  r_foodRating : Py.num;
  r_deliveryRating : Py.num;
  r_comment : string;
  r_ratedAt : Z
}.

Record order := mk_order {
  orderNumber : string;
  customerId : oid;
  restaurantId : oid;
  items : list order_item;
  deliveryAddress : address;
  subtotal : Py.num;
  deliveryFee : Py.num;
  discount : Py.num;
  tax : Py.num;
  tip : Py.num;
  total : Py.num;
  coupon : option string;
  status : string;
  statusHistory : list status_entry;
  paymentMethod : string;
  paymentStatus : string;
  estimatedDeliveryTime : string;
  customerNotes : string;
  createdAt : Z;
  updatedAt : Z;
  deliveryPersonId : option oid;
  confirmedAt : option Z;
  preparingAt : option Z;
  readyAt : option Z;
  onDeliveryAt : option Z;
  acceptedAt : option Z;
  deliveredAt : option Z;
  receivedAt : option Z;
  cancelledAt : option Z;
  cancellationReason : option string;
  cancelledBy : option string;
  rating : option order_rating
}.

Record review := {
  rv_orderId : oid;
  rv_customerId : oid;
  rv_restaurantId : oid;
  rv_dishId : option oid;
  rv_foodRating : Py.num;
  rv_deliveryRating : Py.num;
  rv_overallRating : Py.num;
  rv_comment : string;
  rv_createdAt : Z
}.

Record coupon_doc := {
  code : string;
  description : option string;
  discountType : string;
  discountValue : Py.num;
  minOrderAmount : option Py.num;
  maxDiscountAmount : option Py.num;
  usageLimit : option Py.num;
  usageCount : option Py.num;
  validFrom : option Z;
  validUntil : option Z;
  applicableTo : option string;
  restaurantIds : list oid;
  isForNewUsersOnly : bool;
  isActive : bool
}.

Record notification := {
  n_userId : oid;
  n_title : string;
  n_message : string;
  n_orderId : oid;
  n_orderNumber : string;
  n_status : option string;
  n_createdAt : Z
}.

(** The collections of [db] the order handlers touch.  A collection
    addressed by [_id] is a finite map; one that is only scanned or
    appended to is a list in insertion order. *)
Record store := {
  users_collection : gmap oid user;
  orders_collection : gmap oid order;
  reviews_collection : list review;
  coupons_collection : list coupon_doc;
  delivery_persons_collection : gmap oid delivery_person;
  notifications_collection : list notification
}.

Definition with_orders (orders : gmap oid order) (db : store) : store :=
  {| users_collection := users_collection db;
     orders_collection := orders;
     reviews_collection := reviews_collection db;
     coupons_collection := coupons_collection db;
     delivery_persons_collection := delivery_persons_collection db;
     notifications_collection := notifications_collection db |}.

Definition with_delivery_persons (dps : gmap oid delivery_person) (db : store) : store :=
  {| users_collection := users_collection db;
     orders_collection := orders_collection db;
     reviews_collection := reviews_collection db;
     coupons_collection := coupons_collection db;
     delivery_persons_collection := dps;
     notifications_collection := notifications_collection db |}.

Definition with_reviews (rs : list review) (db : store) : store :=
  {| users_collection := users_collection db;
     orders_collection := orders_collection db;
     reviews_collection := rs;
     coupons_collection := coupons_collection db;
     delivery_persons_collection := delivery_persons_collection db;
     notifications_collection := notifications_collection db |}.

Definition with_notifications (ns : list notification) (db : store) : store :=
  {| users_collection := users_collection db;
     orders_collection := orders_collection db;
     reviews_collection := reviews_collection db;
     coupons_collection := coupons_collection db;
     delivery_persons_collection := delivery_persons_collection db;
     notifications_collection := ns |}.

Definition empty_store : store :=
  {| users_collection := ∅; orders_collection := ∅; reviews_collection := [];
     coupons_collection := []; delivery_persons_collection := ∅;
     notifications_collection := [] |}.

(** [orders_collection.update_one({'_id': id}, ...)]: the matching
    document is rewritten; with no match nothing happens (no upsert). *)
Definition update_order (id : oid) (f : order → order) (db : store) : store :=
  with_orders (alter f id (orders_collection db)) db.

(** [notifications_collection.insert_one(...)]. *)
Definition notify (n : notification) (db : store) : store :=
  with_notifications (notifications_collection db ++ [n]) db.

(** What one request gets from outside the store: the two clocks, the
    [_id] the driver draws for [insert_one], and the id [ObjectId(None)]
    would draw. *)
Record env := {
  utcnow : Z;
  today : date;
  inserted_id : oid;
  random_oid : oid
}.

(** ** Responses *)

Inductive json_body :=
| message (m : string)
| message_error (e : exn)                 (* f'Error: {str(e)}' *)
| message_min_amount (a : Py.num)         (* f'Monto mínimo de ${...} requerido' *)
| order_created (id : oid) (o : order)
| review_created (r : review)
| coupon_valid (d : Py.num) (c : coupon_doc).

Abbreviation response := (json_body * Z)%type (only parsing).

(** ** [role_required]

    The decorator looks the caller up and runs the decorated function [f]
    only for one of the listed roles.  A decorated handler [h] is given
    below as [h_f], the function as written, and [h], the function as
    routed. *)

Definition role_required (required_roles : list string) (db : store)
    (current_user_id : oid) (f : response * store) : response * store :=
  match users_collection db !! current_user_id with
  | Some u =>
      if bool_decide (role u ∈ required_roles) then f
      else (message "Acceso denegado", 403, db)
  | None => (message "Acceso denegado", 403, db)
  end.

(** ** [generate_order_number] *)

(** [strftime('%Y%m%d')]: the year on four digits, month and day on two. *)
Definition strftime_Ymd (d : date) : string :=
  (Py.zfill (Py.str (year d)) 4 ++ Py.zfill (Py.str (month d)) 2
   ++ Py.zfill (Py.str (day d)) 2)%string.

(** [count_documents({'orderNumber': {'$regex': '^' + p}})] for a pattern
    [p] of letters, digits and hyphens: the orders whose number starts
    with [p]. *)
Definition count_order_numbers (p : string) (db : store) : nat :=
  size (filter (λ kv : oid * order, String.prefix p (orderNumber kv.2) = true)
          (orders_collection db)).

Definition generate_order_number (e : env) (db : store) : string :=
  let today := strftime_Ymd (today e) in
  let count := count_order_numbers ("ORD-" ++ today) db in
  ("ORD-" ++ today ++ "-" ++ Py.zfill (Py.str (count + 1)) 4)%string.

(** ** [create_order] *)

Record create_order_data := {
  co_items : list order_item;
  co_deliveryAddress : option address;
  co_deliveryFee : option Py.num;
  co_discount : option Py.num;
  co_tip : option Py.num;
  co_coupon : option string;
  co_paymentMethod : option string;
  co_estimatedDeliveryTime : option string;
  co_customerNotes : option string
}.

(** The order document, up to the point where it is handed to
    [insert_one]. *)
Definition new_order (e : env) (db : store) (current_user_id : oid)
    (data : create_order_data) (first : order_item) (addr : address) : exc order :=
  subtotal ← Py.sum (item_subtotal <$> co_items data);
  let delivery_fee := default (Py.Int 35) (co_deliveryFee data) in
  let discount := default (Py.Int 0) (co_discount data) in
  tax ← Py.mul subtotal (Py.Float 0.16);
  let tip := default (Py.Int 0) (co_tip data) in
  t1 ← Py.add subtotal delivery_fee;
  t2 ← Py.sub t1 discount;
  t3 ← Py.add t2 tax;
  total ← Py.add t3 tip;
  Ok {| orderNumber := generate_order_number e db;
        customerId := current_user_id;
        restaurantId := default (random_oid e) (item_restaurantId first);
        items := co_items data;
        deliveryAddress := addr;
        subtotal := Py.round subtotal 2;
        deliveryFee := Py.round delivery_fee 2;
        discount := Py.round discount 2;
        tax := Py.round tax 2;
        tip := Py.round tip 2;
        total := Py.round total 2;
        coupon := co_coupon data;
        status := "pending";
        statusHistory :=
          [ {| entry_status := "pending"; entry_timestamp := utcnow e;
               entry_note := "Pedido recibido" |} ];
        paymentMethod := default "cash" (co_paymentMethod data);
        paymentStatus := "pending";
        estimatedDeliveryTime := default "30-45 min" (co_estimatedDeliveryTime data);
        customerNotes := default "" (co_customerNotes data);
        createdAt := utcnow e;
        updatedAt := utcnow e;
        deliveryPersonId := None; confirmedAt := None; preparingAt := None;
        readyAt := None; onDeliveryAt := None; acceptedAt := None;
        deliveredAt := None; receivedAt := None; cancelledAt := None;
        cancellationReason := None; cancelledBy := None; rating := None |}.

(** BSON stores an int on 64 bits at most; the driver raises on a larger
    one. *)
Definition bson_num_ok (a : Py.num) : bool :=
  match a with
  | Py.Int n => (- 2 ^ 63 <=? n) && (n <? 2 ^ 63)
  | Py.Float _ => true
  end.

Definition bson_order_ok (o : order) : bool :=
  forallb bson_num_ok
    ([subtotal o; deliveryFee o; discount o; tax o; tip o; total o]
     ++ (item_subtotal <$> items o) ++ (item_quantity <$> items o)).

(** [orders_collection.insert_one(order)] under the [_id] the driver
    drew. *)
Definition insert_order (e : env) (o : order) (db : store) : exc store :=
  if negb (bson_order_ok o) then Raise OverflowError
  else match orders_collection db !! inserted_id e with
       | Some _ => Raise DuplicateKeyError
       | None => Ok (with_orders (<[inserted_id e := o]> (orders_collection db)) db)
       end.

(** The [$inc] of the restaurant's and the dishes' [totalOrders] that
    follows the insert writes to collections outside this store. *)
Definition create_order (e : env) (db : store) (current_user_id : oid)
    (data : create_order_data) : response * store :=
  match co_items data with
  | [] => (message "El pedido debe tener al menos un item", 400, db)
  | first :: _ =>
      match co_deliveryAddress data with
      | None => (message "Dirección de entrega requerida", 400, db)
      | Some addr =>
          match new_order e db current_user_id data first addr with
          | Raise ex => (message_error ex, 500, db)
          | Ok o =>
              match insert_order e o db with
              | Raise ex => (message_error ex, 500, db)
              | Ok db' =>
                  let db'' :=
                    notify {| n_userId := current_user_id;
                              n_title := "Pedido confirmado";
                              n_message := "Tu pedido " ++ orderNumber o ++ " ha sido recibido";
                              n_orderId := inserted_id e;
                              n_orderNumber := orderNumber o;
                              n_status := None;
                              n_createdAt := utcnow e |} db' in
                  (order_created (inserted_id e) o, 201, db'')
              end
          end
      end
  end.

(** ** [update_order_status] *)

Definition valid_statuses : list string :=
  ["pending"; "confirmed"; "preparing"; "ready"; "on_delivery"; "delivered";
   "cancelled"]%string.

(** The branch of the [if]/[elif] chain on [new_status] that fires. *)
Inductive phase := Confirmed | Preparing | Ready | OnDelivery | Delivered | NoPhase.

Definition phase_of (new_status : string) : phase :=
  if String.eqb new_status "confirmed" then Confirmed
  else if String.eqb new_status "preparing" then Preparing
  else if String.eqb new_status "ready" then Ready
  else if String.eqb new_status "on_delivery" then OnDelivery
  else if String.eqb new_status "delivered" then Delivered
  else NoPhase.

(** [{'$set': update_data, '$push': {'statusHistory': entry}}]. *)
Definition set_status_update (new_status : string) (now : Z)
    (entry : status_entry) (o : order) : order :=
  let ph := phase_of new_status in
  {| orderNumber := orderNumber o; customerId := customerId o;
     restaurantId := restaurantId o; items := items o;
     deliveryAddress := deliveryAddress o; subtotal := subtotal o;
     deliveryFee := deliveryFee o; discount := discount o; tax := tax o;
     tip := tip o; total := total o; coupon := coupon o; status := new_status;
     statusHistory := statusHistory o ++ [entry];
     paymentMethod := paymentMethod o;
     paymentStatus := match ph with Delivered => "paid" | _ => paymentStatus o end;
     estimatedDeliveryTime := estimatedDeliveryTime o;
     customerNotes := customerNotes o; createdAt := createdAt o;
     updatedAt := now; deliveryPersonId := deliveryPersonId o;
     confirmedAt := match ph with Confirmed => Some now | _ => confirmedAt o end;
     preparingAt := match ph with Preparing => Some now | _ => preparingAt o end;
     readyAt := match ph with Ready => Some now | _ => readyAt o end;
     onDeliveryAt := match ph with OnDelivery => Some now | _ => onDeliveryAt o end;
     acceptedAt := acceptedAt o;
     deliveredAt := match ph with Delivered => Some now | _ => deliveredAt o end;
     receivedAt := receivedAt o; cancelledAt := cancelledAt o;
     cancellationReason := cancellationReason o; cancelledBy := cancelledBy o;
     rating := rating o |}.

Definition notification_messages (new_status : string) : string :=
  if String.eqb new_status "confirmed" then "Tu pedido ha sido confirmado"
  else if String.eqb new_status "preparing" then "Tu pedido está siendo preparado"
  else if String.eqb new_status "ready" then "Tu pedido está listo"
  else if String.eqb new_status "on_delivery" then "Tu pedido está en camino"
  else if String.eqb new_status "delivered" then "Tu pedido ha sido entregado"
  else if String.eqb new_status "cancelled" then "Tu pedido ha sido cancelado"
  else "Estado actualizado".

Record update_status_data := {
  us_status : option string;
  us_note : option string
}.

Definition update_order_status_f (e : env) (db : store) (order_id : oid)
    (data : update_status_data) : response * store :=
  match us_status data with
  | None => (message "Estado requerido", 400, db)
  | Some new_status =>
      if String.eqb new_status "" then (message "Estado requerido", 400, db)
      else if negb (bool_decide (new_status ∈ valid_statuses))
      then (message "Estado inválido", 400, db)
      else
        match orders_collection db !! order_id with
        | None => (message "Pedido no encontrado", 404, db)
        | Some o =>
            let entry := {| entry_status := new_status;
                            entry_timestamp := utcnow e;
                            entry_note := default "" (us_note data) |} in
            let db' := update_order order_id
                         (set_status_update new_status (utcnow e) entry) db in
            let db'' :=
              notify {| n_userId := customerId o;
                        n_title := "Pedido " ++ orderNumber o;
                        n_message := notification_messages new_status;
                        n_orderId := order_id;
                        n_orderNumber := orderNumber o;
                        n_status := Some new_status;
                        n_createdAt := utcnow e |} db' in
            (message "Estado actualizado exitosamente", 200, db'')
        end
  end.

Definition update_order_status (e : env) (db : store) (current_user_id : oid)
    (order_id : oid) (data : update_status_data) : response * store :=
  role_required ["admin"; "restaurant_owner"; "delivery"]%string db current_user_id
    (update_order_status_f e db order_id data).

(** ** [assign_delivery_person] *)

Definition set_assigned (delivery_person_id : oid) (now : Z) (o : order) : order :=
  {| orderNumber := orderNumber o; customerId := customerId o;
     restaurantId := restaurantId o; items := items o;
     deliveryAddress := deliveryAddress o; subtotal := subtotal o;
     deliveryFee := deliveryFee o; discount := discount o; tax := tax o;
     tip := tip o; total := total o; coupon := coupon o;
     status := "on_delivery"; statusHistory := statusHistory o;
     paymentMethod := paymentMethod o; paymentStatus := paymentStatus o;
     estimatedDeliveryTime := estimatedDeliveryTime o;
     customerNotes := customerNotes o; createdAt := createdAt o;
     updatedAt := now; deliveryPersonId := Some delivery_person_id;
     confirmedAt := confirmedAt o; preparingAt := preparingAt o;
     readyAt := readyAt o; onDeliveryAt := Some now;
     acceptedAt := acceptedAt o; deliveredAt := deliveredAt o;
     receivedAt := receivedAt o; cancelledAt := cancelledAt o;
     cancellationReason := cancellationReason o; cancelledBy := cancelledBy o;
     rating := rating o |}.

Definition set_unavailable (dp : delivery_person) : delivery_person :=
  {| dp_userId := dp_userId dp; isAvailable := false; isOnline := isOnline dp |}.

Definition assign_delivery_person_f (e : env) (db : store) (order_id : oid)
    (deliveryPersonId : option oid) : response * store :=
  match deliveryPersonId with
  | None => (message "ID de repartidor requerido", 400, db)
  | Some delivery_person_id =>
      match delivery_persons_collection db !! delivery_person_id with
      | Some dp =>
          if isAvailable dp && isOnline dp then
            let db' := update_order order_id
                         (set_assigned delivery_person_id (utcnow e)) db in
            let db'' := with_delivery_persons
                          (alter set_unavailable delivery_person_id
                             (delivery_persons_collection db')) db' in
            (message "Repartidor asignado exitosamente", 200, db'')
          else (message "Repartidor no disponible", 404, db)
      | None => (message "Repartidor no disponible", 404, db)
      end
  end.

Definition assign_delivery_person (e : env) (db : store) (current_user_id : oid)
    (order_id : oid) (deliveryPersonId : option oid) : response * store :=
  role_required ["admin"; "restaurant_owner"]%string db current_user_id
    (assign_delivery_person_f e db order_id deliveryPersonId).

(** ** [create_review] *)

Record create_review_data := {
  cr_orderId : oid;
  cr_dishId : option oid;
  cr_foodRating : Py.num;
  cr_deliveryRating : Py.num;
  cr_comment : option string
}.

Definition set_rating (r : order_rating) (o : order) : order :=
  {| orderNumber := orderNumber o; customerId := customerId o;
     restaurantId := restaurantId o; items := items o;
     deliveryAddress := deliveryAddress o; subtotal := subtotal o;
     deliveryFee := deliveryFee o; discount := discount o; tax := tax o;
     tip := tip o; total := total o; coupon := coupon o; status := status o;
     statusHistory := statusHistory o; paymentMethod := paymentMethod o;
     paymentStatus := paymentStatus o;
     estimatedDeliveryTime := estimatedDeliveryTime o;
     customerNotes := customerNotes o; createdAt := createdAt o;
     updatedAt := updatedAt o; deliveryPersonId := deliveryPersonId o;
     confirmedAt := confirmedAt o; preparingAt := preparingAt o;
     readyAt := readyAt o; onDeliveryAt := onDeliveryAt o;
     acceptedAt := acceptedAt o; deliveredAt := deliveredAt o;
     receivedAt := receivedAt o; cancelledAt := cancelledAt o;
     cancellationReason := cancellationReason o; cancelledBy := cancelledBy o;
     rating := Some r |}.

(** The review is inserted first (the driver refuses an int beyond 64
    bits), then the order gets its [rating].  The averages this handler
    then writes to the restaurant and the dish lie outside this store. *)
Definition create_review (e : env) (db : store) (current_user_id : oid)
    (data : create_review_data) : response * store :=
  match orders_collection db !! cr_orderId data with
  | Some o =>
      if bool_decide (customerId o = current_user_id) && String.eqb (status o) "delivered" then
        if existsb (λ r, N.eqb (rv_orderId r) (cr_orderId data)) (reviews_collection db)
        then (message "Ya has calificado este pedido", 400, db)
        else
          match (s ← Py.add (cr_foodRating data) (cr_deliveryRating data);
                 overall_rating ← Py.truediv s (Py.Int 2);
                 if bson_num_ok (cr_foodRating data)
                    && bson_num_ok (cr_deliveryRating data)
                 then Ok overall_rating else Raise OverflowError) with
          | Raise ex => (message_error ex, 500, db)
          | Ok overall_rating =>
              let rv := {| rv_orderId := cr_orderId data;
                           rv_customerId := current_user_id;
                           rv_restaurantId := restaurantId o;
                           rv_dishId := cr_dishId data;
                           rv_foodRating := cr_foodRating data;
                           rv_deliveryRating := cr_deliveryRating data;
                           rv_overallRating := Py.round overall_rating 1;
                           rv_comment := default "" (cr_comment data);
                           rv_createdAt := utcnow e |} in
              let db' := with_reviews (reviews_collection db ++ [rv]) db in
              let db'' := update_order (cr_orderId data)
                            (set_rating {| r_foodRating := cr_foodRating data;
                                           r_deliveryRating := cr_deliveryRating data;
                                           r_comment := default "" (cr_comment data);
                                           r_ratedAt := utcnow e |}) db' in
              (review_created rv, 201, db'')
          end
      else (message "Pedido no encontrado o no entregado", 404, db)
  | None => (message "Pedido no encontrado o no entregado", 404, db)
  end.

(** ** [validate_coupon] *)

Record validate_coupon_data := {
  vc_code : option string;
  vc_orderAmount : option Py.num;
  vc_restaurantId : option oid
}.

(** [coupons_collection.find_one({'code': code, 'isActive': True})]. *)
Definition find_coupon (c : string) (db : store) : option coupon_doc :=
  List.find (λ cp, String.eqb (code cp) c && isActive cp) (coupons_collection db).

(** [orders_collection.count_documents({'customerId': uid})]. *)
Definition count_orders_of (uid : oid) (db : store) : nat :=
  size (filter (λ kv : oid * order, customerId kv.2 = uid) (orders_collection db)).

Definition option_truthy (a : option Py.num) : bool :=
  match a with Some x => Py.truthy x | None => false end.

(** The discount before the cap and the rounding. *)
Definition raw_discount (cp : coupon_doc) (order_amount : Py.num) : exc Py.num :=
  if String.eqb (discountType cp) "percentage" then
    rate ← Py.truediv (discountValue cp) (Py.Int 100);
    Py.mul order_amount rate
  else Ok (discountValue cp).

Definition capped_discount (cp : coupon_doc) (discount : Py.num) : Py.num :=
  match maxDiscountAmount cp with
  | Some cap => if Py.truthy cap then Py.min discount cap else discount
  | None => discount
  end.

Definition validate_coupon (e : env) (db : store) (current_user_id : oid)
    (data : validate_coupon_data) : response * store :=
  let code := Py.upper (default "" (vc_code data)) in
  let order_amount := default (Py.Int 0) (vc_orderAmount data) in
  let now := utcnow e in
  if String.eqb code "" then (message "Código de cupón requerido", 400, db) else
  match find_coupon code db with
  | None => (message "Cupón no válido", 404, db)
  | Some cp =>
    if match validFrom cp with Some t => now <? t | None => false end
    then (message "Cupón aún no es válido", 400, db) else
    if match validUntil cp with Some t => t <? now | None => false end
    then (message "Cupón expirado", 400, db) else
    if option_truthy (usageLimit cp)
       && Py.ge (default (Py.Int 0) (usageCount cp)) (default (Py.Int 0) (usageLimit cp))
    then (message "Cupón agotado", 400, db) else
    if Py.gt (default (Py.Int 0) (minOrderAmount cp)) order_amount
    then match minOrderAmount cp with
         | Some m => (message_min_amount m, 400, db)
         | None => (message_error (KeyError "minOrderAmount"), 500, db)
         end else
    if isForNewUsersOnly cp && (0 <? count_orders_of current_user_id db)%nat
    then (message "Este cupón es solo para nuevos usuarios", 400, db) else
    if bool_decide (applicableTo cp = Some "specific_restaurants"%string)
       && negb (bool_decide (default (random_oid e) (vc_restaurantId data)
                               ∈ restaurantIds cp))
    then (message "Cupón no válido para este restaurante", 400, db) else
    match raw_discount cp order_amount with
    | Raise ex => (message_error ex, 500, db)
    | Ok discount =>
        (coupon_valid (Py.round (capped_discount cp discount) 2) cp, 200, db)
    end
  end.

(** ** [accept_delivery_order] *)

Definition set_accepted (current_user_id : oid) (now : Z) (o : order) : order :=
  {| orderNumber := orderNumber o; customerId := customerId o;
     restaurantId := restaurantId o; items := items o;
     deliveryAddress := deliveryAddress o; subtotal := subtotal o;
     deliveryFee := deliveryFee o; discount := discount o; tax := tax o;
     tip := tip o; total := total o; coupon := coupon o;
     status := "on_delivery"; statusHistory := statusHistory o;
     paymentMethod := paymentMethod o; paymentStatus := paymentStatus o;
     estimatedDeliveryTime := estimatedDeliveryTime o;
     customerNotes := customerNotes o; createdAt := createdAt o;
     updatedAt := now; deliveryPersonId := Some current_user_id;
     confirmedAt := confirmedAt o; preparingAt := preparingAt o;
     readyAt := readyAt o; onDeliveryAt := onDeliveryAt o;
     acceptedAt := Some now; deliveredAt := deliveredAt o;
     receivedAt := receivedAt o; cancelledAt := cancelledAt o;
     cancellationReason := cancellationReason o; cancelledBy := cancelledBy o;
     rating := rating o |}.

Definition accept_delivery_order_f (e : env) (db : store) (current_user_id : oid)
    (order_id : oid) : response * store :=
  match orders_collection db !! order_id with
  | None => (message "Pedido no encontrado", 404, db)
  | Some o =>
      match deliveryPersonId o with
      | Some _ => (message "Pedido ya asignado a otro repartidor", 400, db)
      | None =>
          (message "Pedido aceptado exitosamente", 200,
           update_order order_id (set_accepted current_user_id (utcnow e)) db)
      end
  end.

Definition accept_delivery_order (e : env) (db : store) (current_user_id : oid)
    (order_id : oid) : response * store :=
  role_required ["delivery"]%string db current_user_id
    (accept_delivery_order_f e db current_user_id order_id).

(** ** [confirm_delivery] *)

Definition set_delivering_confirmation (now : Z) (entry : status_entry)
    (o : order) : order :=
  {| orderNumber := orderNumber o; customerId := customerId o;
     restaurantId := restaurantId o; items := items o;
     deliveryAddress := deliveryAddress o; subtotal := subtotal o;
     deliveryFee := deliveryFee o; discount := discount o; tax := tax o;
     tip := tip o; total := total o; coupon := coupon o;
     status := "delivering_confirmation";
     statusHistory := statusHistory o ++ [entry];
     paymentMethod := paymentMethod o; paymentStatus := paymentStatus o;
     estimatedDeliveryTime := estimatedDeliveryTime o;
     customerNotes := customerNotes o; createdAt := createdAt o;
     updatedAt := now; deliveryPersonId := deliveryPersonId o;
     confirmedAt := confirmedAt o; preparingAt := preparingAt o;
     readyAt := readyAt o; onDeliveryAt := onDeliveryAt o;
     acceptedAt := acceptedAt o; deliveredAt := Some now;
     receivedAt := receivedAt o; cancelledAt := cancelledAt o;
     cancellationReason := cancellationReason o; cancelledBy := cancelledBy o;
     rating := rating o |}.

Definition confirm_delivery_f (e : env) (db : store) (current_user_id : oid)
    (order_id : oid) : response * store :=
  match orders_collection db !! order_id with
  | Some o =>
      if bool_decide (deliveryPersonId o = Some current_user_id) then
        let entry :=
          {| entry_status := "delivering_confirmation";
             entry_timestamp := utcnow e;
             entry_note := "Repartidor confirmó la entrega, esperando confirmación del cliente" |} in
        let db' := update_order order_id
                     (set_delivering_confirmation (utcnow e) entry) db in
        let db'' :=
          notify {| n_userId := customerId o;
                    n_title := "Pedido " ++ orderNumber o ++ " entregado";
                    n_message := "El repartidor confirmó la entrega. Por favor confirma que recibiste tu pedido.";
                    n_orderId := order_id;
                    n_orderNumber := orderNumber o;
                    n_status := Some "delivering_confirmation"%string;
                    n_createdAt := utcnow e |} db' in
        (message "Entrega confirmada, esperando confirmación del cliente", 200, db'')
      else (message "Pedido no encontrado o no asignado a ti", 404, db)
  | None => (message "Pedido no encontrado o no asignado a ti", 404, db)
  end.

Definition confirm_delivery (e : env) (db : store) (current_user_id : oid)
    (order_id : oid) : response * store :=
  role_required ["delivery"]%string db current_user_id
    (confirm_delivery_f e db current_user_id order_id).

(** ** [confirm_received] *)

Definition set_received (now : Z) (entry : status_entry) (o : order) : order :=
  {| orderNumber := orderNumber o; customerId := customerId o;
     restaurantId := restaurantId o; items := items o;
     deliveryAddress := deliveryAddress o; subtotal := subtotal o;
     deliveryFee := deliveryFee o; discount := discount o; tax := tax o;
     tip := tip o; total := total o; coupon := coupon o;
     status := "delivered"; statusHistory := statusHistory o ++ [entry];
     paymentMethod := paymentMethod o; paymentStatus := "paid";
     estimatedDeliveryTime := estimatedDeliveryTime o;
     customerNotes := customerNotes o; createdAt := createdAt o;
     updatedAt := now; deliveryPersonId := deliveryPersonId o;
     confirmedAt := confirmedAt o; preparingAt := preparingAt o;
     readyAt := readyAt o; onDeliveryAt := onDeliveryAt o;
     acceptedAt := acceptedAt o; deliveredAt := deliveredAt o;
     receivedAt := Some now; cancelledAt := cancelledAt o;
     cancellationReason := cancellationReason o; cancelledBy := cancelledBy o;
     rating := rating o |}.

Definition is_customer (db : store) (current_user_id : oid) : bool :=
  match users_collection db !! current_user_id with
  | Some u => String.eqb (role u) "customer"
  | None => false
  end.

Definition confirm_received (e : env) (db : store) (current_user_id : oid)
    (order_id : oid) : response * store :=
  if negb (is_customer db current_user_id)
  then (message "Solo los clientes pueden confirmar la recepción del pedido", 403, db)
  else
    match orders_collection db !! order_id with
    | None => (message "Pedido no encontrado", 404, db)
    | Some o =>
        if negb (bool_decide (customerId o = current_user_id))
        then (message "No tienes permiso para confirmar este pedido. Solo el cliente que realizó el pedido puede confirmar la recepción.", 403, db)
        else if negb (String.eqb (status o) "delivering_confirmation")
        then (message "El pedido no está en estado de confirmación de entrega. El repartidor debe confirmar la entrega primero.", 400, db)
        else
          match deliveryPersonId o with
          | None => (message "El pedido no tiene un repartidor asignado. El repartidor debe confirmar la entrega primero.", 400, db)
          | Some courier =>
              let entry :=
                {| entry_status := "delivered";
                   entry_timestamp := utcnow e;
                   entry_note := "Cliente confirmó la recepción del pedido" |} in
              let db' := update_order order_id (set_received (utcnow e) entry) db in
              let db'' :=
                notify {| n_userId := courier;
                          n_title := "Pedido " ++ orderNumber o ++ " completado";
                          n_message := "El cliente confirmó la recepción del pedido. ¡Gracias por tu entrega!";
                          n_orderId := order_id;
                          n_orderNumber := orderNumber o;
                          n_status := Some "delivered"%string;
                          n_createdAt := utcnow e |} db' in
              (message "Pedido marcado como entregado", 200, db'')
          end
    end.

(** ** [cancel_order] *)

Record cancel_order_data := {
  ca_reason : option string;
  ca_cancelled_by : option string
}.

Definition set_cancelled (reason cancelled_by : string) (now : Z) (o : order) : order :=
  {| orderNumber := orderNumber o; customerId := customerId o;
     restaurantId := restaurantId o; items := items o;
     deliveryAddress := deliveryAddress o; subtotal := subtotal o;
     deliveryFee := deliveryFee o; discount := discount o; tax := tax o;
     tip := tip o; total := total o; coupon := coupon o;
     status := "cancelled"; statusHistory := statusHistory o;
     paymentMethod := paymentMethod o; paymentStatus := paymentStatus o;
     estimatedDeliveryTime := estimatedDeliveryTime o;
     customerNotes := customerNotes o; createdAt := createdAt o;
     updatedAt := now; deliveryPersonId := deliveryPersonId o;
     confirmedAt := confirmedAt o; preparingAt := preparingAt o;
     readyAt := readyAt o; onDeliveryAt := onDeliveryAt o;
     acceptedAt := acceptedAt o; deliveredAt := deliveredAt o;
     receivedAt := receivedAt o; cancelledAt := Some now;
     cancellationReason := Some reason; cancelledBy := Some cancelled_by;
     rating := rating o |}.

Definition cancel_order (e : env) (db : store) (current_user_id : oid)
    (order_id : oid) (data : cancel_order_data) : response * store :=
  let reason := default "Sin razón especificada" (ca_reason data) in
  let cancelled_by := default "customer" (ca_cancelled_by data) in
  match orders_collection db !! order_id with
  | None => (message "Pedido no encontrado", 404, db)
  | Some o =>
      if String.eqb cancelled_by "customer"
         && negb (bool_decide (customerId o = current_user_id))
      then (message "No autorizado", 403, db)
      else if String.eqb cancelled_by "delivery"
              && negb (bool_decide (deliveryPersonId o = Some current_user_id))
      then (message "No autorizado", 403, db)
      else
        (message "Pedido cancelado exitosamente", 200,
         update_order order_id (set_cancelled reason cancelled_by (utcnow e)) db)
  end.

(** ** The API as one transition function *)

Inductive request :=
| CreateOrder (data : create_order_data)
| UpdateOrderStatus (order_id : oid) (data : update_status_data)
| AssignDeliveryPerson (order_id : oid) (deliveryPersonId : option oid)
| CreateReview (data : create_review_data)
| ValidateCoupon (data : validate_coupon_data)
| AcceptDeliveryOrder (order_id : oid)
| ConfirmDelivery (order_id : oid)
| ConfirmReceived (order_id : oid)
| CancelOrder (order_id : oid) (data : cancel_order_data).

(** One authenticated request against the store. *)
Definition handle (e : env) (db : store) (current_user_id : oid) (r : request)
    : response * store :=
  match r with
  | CreateOrder data => create_order e db current_user_id data
  | UpdateOrderStatus id data => update_order_status e db current_user_id id data
  | AssignDeliveryPerson id dp => assign_delivery_person e db current_user_id id dp
  | CreateReview data => create_review e db current_user_id data
  | ValidateCoupon data => validate_coupon e db current_user_id data
  | AcceptDeliveryOrder id => accept_delivery_order e db current_user_id id
  | ConfirmDelivery id => confirm_delivery e db current_user_id id
  | ConfirmReceived id => confirm_received e db current_user_id id
  | CancelOrder id data => cancel_order e db current_user_id id data
  end.

(** A call: who asks, with which ambient inputs, for what. *)
Record call := { call_env : env; caller : oid; call_request : request }.

Definition step (db : store) (c : call) : store :=
  (handle (call_env c) db (caller c) (call_request c)).2.

(** The stores met while a list of calls is served one after the other,
    the first one included. *)
Fixpoint run (db : store) (cs : list call) : list store :=
  match cs with
  | [] => [db]
  | c :: cs => db :: run (step db c) cs
  end.

Definition final (db : store) (cs : list call) : store := foldl step db cs.

(** * Vocabulary of the statements *)

(** The caller is a user with one of the roles. *)
Definition has_role (roles : list string) (db : store) (uid : oid) : Prop :=
  ∃ u, users_collection db !! uid = Some u ∧ role u ∈ roles.

Abbreviation operator_roles := (["admin"; "restaurant_owner"; "delivery"]%string) (only parsing).

(** The four conditions under which the customer may confirm. *)
Definition may_confirm_received (db : store) (uid : oid) (o : order) : Prop :=
  is_customer db uid = true
  ∧ customerId o = uid
  ∧ status o = "delivering_confirmation"%string
  ∧ is_Some (deliveryPersonId o).

(** [subtotal + deliveryFee - discount + tax + tip], left to right. *)
Definition order_total (subtotal delivery_fee discount tax tip : Py.num) : exc Py.num :=
  t1 ← Py.add subtotal delivery_fee;
  t2 ← Py.sub t1 discount;
  t3 ← Py.add t2 tax;
  Py.add t3 tip.

(** The request that can turn [paymentStatus] of order [k] to [paid]. *)
Definition marks_delivered (k : oid) (r : request) : Prop :=
  r = ConfirmReceived k
  ∨ ∃ data, r = UpdateOrderStatus k data ∧ us_status data = Some "delivered"%string.

(** What [cancel_order] checks: the label [cancelled_by] the request
    carries selects the comparison, and only the labels [customer] and
    [delivery] select one. *)
Definition cancel_refused (uid : oid) (o : order) (data : cancel_order_data) : Prop :=
  let cancelled_by := default "customer"%string (ca_cancelled_by data) in
  (cancelled_by = "customer"%string ∧ customerId o ≠ uid)
  ∨ (cancelled_by = "delivery"%string ∧ deliveryPersonId o ≠ Some uid).

(** The amount and the code [validate_coupon] works with. *)
Definition vc_amount (data : validate_coupon_data) : Py.num :=
  default (Py.Int 0) (vc_orderAmount data).
Definition vc_lookup (data : validate_coupon_data) (db : store) : option coupon_doc :=
  find_coupon (Py.upper (default "" (vc_code data))) db.

(** The number given to the [k]-th order of the day written [t]. *)
Definition order_number (t : string) (k : nat) : string :=
  ("ORD-" ++ t ++ "-" ++ Py.zfill (Py.str k) 4)%string.



(** Counting the numbers with a given prefix. *)
Definition has_prefix (p : string) (kv : oid * order) : Prop :=
  String.prefix p (orderNumber kv.2) = true.

#[local] Instance has_prefix_dec p kv : Decision (has_prefix p kv).
Proof. unfold has_prefix. apply _. Defined.

(** Every number in the store is the [k]-th of some day, and [k] is at
    most the count for that day. *)
Definition numbered (m : gmap oid order) : Prop :=
  ∀ id o, m !! id = Some o →
    ∃ t k, String.length t = 8%nat
           ∧ orderNumber o = order_number t k
           ∧ (1 ≤ k ≤ size (filter (has_prefix ("ORD-" ++ t)) m))%nat.

(** ** What a request can write to the orders collection

    Every handler either leaves the collection as it is, inserts the new
    order under a free [_id], or rewrites one document with the [$set]
    (and [$push]) of its own. *)

Inductive orders_write (e : env) (uid : oid) (db : store)
    : request → gmap oid order → Prop :=
| write_nothing r :
    orders_write e uid db r (orders_collection db)
| write_create data first addr o :
    head (co_items data) = Some first →
    new_order e db uid data first addr = Ok o →
    orders_collection db !! inserted_id e = None →
    orders_write e uid db (CreateOrder data)
      (<[inserted_id e := o]> (orders_collection db))
| write_status id data s :
    us_status data = Some s →
    s ∈ valid_statuses →
    orders_write e uid db (UpdateOrderStatus id data)
      (alter (set_status_update s (utcnow e)
                {| entry_status := s; entry_timestamp := utcnow e;
                   entry_note := default "" (us_note data) |}) id
         (orders_collection db))
| write_assign id dp :
    orders_write e uid db (AssignDeliveryPerson id (Some dp))
      (alter (set_assigned dp (utcnow e)) id (orders_collection db))
| write_review data r :
    orders_write e uid db (CreateReview data)
      (alter (set_rating r) (cr_orderId data) (orders_collection db))
| write_accept id :
    orders_write e uid db (AcceptDeliveryOrder id)
      (alter (set_accepted uid (utcnow e)) id (orders_collection db))
| write_confirm_delivery id entry :
    orders_write e uid db (ConfirmDelivery id)
      (alter (set_delivering_confirmation (utcnow e) entry) id
         (orders_collection db))
| write_confirm_received id entry :
    orders_write e uid db (ConfirmReceived id)
      (alter (set_received (utcnow e) entry) id (orders_collection db))
| write_cancel id data reason cancelled_by :
    orders_write e uid db (CancelOrder id data)
      (alter (set_cancelled reason cancelled_by (utcnow e)) id
         (orders_collection db)).

#[local] Hint Constructors orders_write : core.

(** ** A small deployment to run the handlers on *)

Module Demo.

Definition admin : oid := 1%N.
Definition courier_a : oid := 2%N.
Definition courier_b : oid := 3%N.
Definition customer : oid := 5%N.
Definition stranger : oid := 6%N.
Definition rider_doc : oid := 7%N.
Definition order_id : oid := 10%N.

Definition users : gmap oid user :=
  <[admin := {| role := "admin" |}]>
  (<[courier_a := {| role := "delivery" |}]>
  (<[courier_b := {| role := "delivery" |}]>
  (<[customer := {| role := "customer" |}]>
  (<[stranger := {| role := "customer" |}]> ∅)))).

Definition db0 : store :=
  {| users_collection := users;
     orders_collection := ∅;
     reviews_collection := [];
     coupons_collection := [];
     delivery_persons_collection :=
       {[ rider_doc := {| dp_userId := courier_b; isAvailable := true;
                          isOnline := true |} ]};
     notifications_collection := [] |}.

Definition env0 : env :=
  {| utcnow := 1733839200;
     today := {| year := 2024; month := 12; day := 10 |};
     inserted_id := order_id;
     random_oid := 99%N |}.

(** The request of the spec's end-to-end example: one line of 239.00,
    a tip of 30, the default delivery fee and no discount. *)
Definition line : order_item :=
  {| item_name := "Combo"; item_subtotal := Py.Float 239.00;
     item_quantity := Py.Int 1; item_restaurantId := Some 40%N;
     item_dishId := Some 41%N |}.

Definition basket : create_order_data :=
  {| co_items := [line]; co_deliveryAddress := Some "Av. Reforma 100"%string;
     co_deliveryFee := None; co_discount := None; co_tip := Some (Py.Int 30);
     co_coupon := None; co_paymentMethod := None;
     co_estimatedDeliveryTime := None; co_customerNotes := None |}.

(** The store once the customer has placed that order. *)
Definition db1 : store := (create_order env0 db0 customer basket).2.

(** ... once courier A has accepted it, *)
Definition db2 : store := (accept_delivery_order env0 db1 courier_a order_id).2.

(** ... and once courier A has reported the delivery. *)
Definition db3 : store := (confirm_delivery env0 db2 courier_a order_id).2.

End Demo.

(** Two coupons for the spec's example, one as the seed script writes it
    (ints) and one as [create_coupon] stores it (floats). *)
Definition coupon_x (v m c : Py.num) : coupon_doc :=
  {| code := "X"; description := None; discountType := "percentage";
     discountValue := v; minOrderAmount := Some m; maxDiscountAmount := Some c;
     usageLimit := None; usageCount := Some (Py.Int 0);
     validFrom := None; validUntil := None; applicableTo := Some "all"%string;
     restaurantIds := []; isForNewUsersOnly := false; isActive := true |}.

Definition coupon_x_seeded : coupon_doc :=
  coupon_x (Py.Int 20) (Py.Int 150) (Py.Int 30).
Definition coupon_x_created : coupon_doc :=
  coupon_x (Py.Float 20) (Py.Float 150) (Py.Float 30).

Definition db_coupon (cp : coupon_doc) : store :=
  {| users_collection := Demo.users; orders_collection := ∅;
     reviews_collection := []; coupons_collection := [cp];
     delivery_persons_collection := ∅; notifications_collection := [] |}.

Definition ask_x (amount : Py.num) : validate_coupon_data :=
  {| vc_code := Some "x"%string; vc_orderAmount := Some amount;
     vc_restaurantId := None |}.

(** * Further handlers *)

(** * Further handlers *)

(** ** [serialize_doc] *)

(** What a document handed out by the driver, or built by a handler, is
    made of.  A [dict] keeps its items in insertion order. *)
#[local] Set Warnings "-register-all".

Inductive value :=
| VNone
| VBool (b : bool)
| VNum (a : Py.num)
| VStr (s : string)
| VObjectId (o : oid)
| VDatetime (t : Z)
| VDict (items : list (string * value))
| VList (l : list value).

(** [d[k] = v]: an existing key keeps its place, a new one goes last. *)
Fixpoint dict_set {A} (k : string) (v : A) (d : list (string * A))
    : list (string * A) :=
  match d with
  | [] => [(k, v)]
  | (k', v') :: d =>
      if String.eqb k' k then (k, v) :: d else (k', v') :: dict_set k v d
  end.

(** [d.get(k)]. *)
Fixpoint dict_get {A} (k : string) (d : list (string * A)) : option A :=
  match d with
  | [] => None
  | (k', v') :: d => if String.eqb k' k then Some v' else dict_get k d
  end.

Section serialize_doc.

(** Python's [str] on a value and [datetime.isoformat]. *)
Variable str : value → string.
Variable isoformat : Z → string.

Fixpoint serialize_doc (doc : value) : value :=
  match doc with
  | VNone => VNone
  | VList l => VList (map serialize_doc l)
  | VDict items =>
      VDict
        (fold_left
           (λ serialized kv,
              let key := kv.1 in
              let value := kv.2 in
              if String.eqb key "_id" then
                dict_set "_id" (VStr (str value))
                  (dict_set "id" (VStr (str value)) serialized)
              else
                match value with
                | VObjectId _ => dict_set key (VStr (str value)) serialized
                | VDatetime t => dict_set key (VStr (isoformat t)) serialized
                | VDict _ => dict_set key (serialize_doc value) serialized
                | VList _ => dict_set key (serialize_doc value) serialized
                | _ => dict_set key value serialized
                end)
           items [])
  | _ => doc
  end.

End serialize_doc.

(** What [jsonify] takes: Flask's JSON provider writes a [datetime]
    itself (as an HTTP date, whereas [serialize_doc] writes ISO 8601)
    and raises [TypeError] on an [ObjectId]. *)
Fixpoint json_ready (v : value) : bool :=
  match v with
  | VObjectId _ => false
  | VDict items => forallb (λ kv, json_ready kv.2) items
  | VList l => forallb json_ready l
  | _ => true
  end.

(** No [ObjectId] is the value itself or an item of a list; as the
    value of a key it is allowed, and under [_id] anything is. *)
Fixpoint list_safe (v : value) : bool :=
  match v with
  | VObjectId _ => false
  | VDict items =>
      forallb (λ kv, String.eqb kv.1 "_id"
                     || match kv.2 with
                        | VObjectId _ => true
                        | _ => list_safe kv.2
                        end) items
  | VList l => forallb list_safe l
  | _ => true
  end.

(** The keys of every [dict] are distinct. *)
Fixpoint dict_wf (v : value) : bool :=
  match v with
  | VDict items =>
      bool_decide (NoDup items.*1) && forallb (λ kv, dict_wf kv.2) items
  | VList l => forallb dict_wf l
  | _ => true
  end.

(** No [dict] has both a key [_id] and a key [id]. *)
Fixpoint no_id_clash (v : value) : bool :=
  match v with
  | VDict items =>
      negb (bool_decide ("_id"%string ∈ items.*1)
            && bool_decide ("id"%string ∈ items.*1))
      && forallb (λ kv, no_id_clash kv.2) items
  | VList l => forallb no_id_clash l
  | _ => true
  end.

(** What [serialize_doc] stores under a key other than [_id]. *)
Definition serialize_field (str : value → string) (isoformat : Z → string)
    (w : value) : value :=
  match w with
  | VObjectId _ => VStr (str w)
  | VDatetime t => VStr (isoformat t)
  | VDict _ | VList _ => serialize_doc str isoformat w
  | _ => w
  end.

(** A toy [str] and [isoformat] to run [serialize_doc] with. *)
Definition demo_str (v : value) : string :=
  match v with
  | VStr s => s
  | VObjectId o => Py.str (N.to_nat o)
  | _ => "?"
  end.

Definition demo_isoformat (t : Z) : string := Py.str (Z.to_nat t).

(** An order as the driver returns it, cut down to four fields. *)
Definition demo_doc : value :=
  VDict [("_id", VObjectId 10); ("customerId", VObjectId 5);
         ("total", VNum (Py.Float 342.24));
         ("statusHistory",
          VList [VDict [("status", VStr "pending"); ("timestamp", VDatetime 17)]])]%string.

(** The [delivery_person_info] of [track_order], which is serialised
    on its own and once more within the response: it has a key [id] and
    no key [_id]. *)
Definition demo_delivery_person_info : value :=
  VDict [("id", VStr "7"); ("name", VStr "Repartidor"); ("phone", VStr "");
         ("avatar", VStr ""); ("vehicleType", VStr "moto");
         ("vehiclePlate", VStr ""); ("rating", VNum (Py.Int 0));
         ("currentLocation",
          VDict [("type", VStr "Point");
                 ("coordinates", VList [VNum (Py.Int 0); VNum (Py.Int 0)])]);
         ("lastLocationUpdate", VDatetime 17)]%string.

(** The items one item of a [dict] turns into. *)
Definition serialize_item (str : value → string) (isoformat : Z → string)
    (kv : string * value) : list (string * value) :=
  if String.eqb kv.1 "_id"
  then [("id", VStr (str kv.2)); ("_id", VStr (str kv.2))]%string
  else [(kv.1, serialize_field str isoformat kv.2)].

(** ** Reading orders: [get_orders], [get_order],
    [get_available_delivery_orders] *)

(** [a] is at least as recent as [b]. *)
Definition newer {A} (created : A → Z) (a b : oid * A) : Prop :=
  created b.2 ≤ created a.2.

#[local] Instance newer_dec {A} (created : A → Z) : RelDecision (newer created).
Proof. intros a b. unfold newer. apply _. Defined.

(** [list(collection.find(query).sort(<date field>, -1).limit(n))].  The
    server leaves the order of documents with the same date open; here
    they come in the order the merge sort leaves them in. *)
Definition find_sort_limit {A} (created : A → Z) (query : A → bool) (n : nat)
    (collection : gmap oid A) : list (oid * A) :=
  take n (merge_sort (newer created)
            (filter (λ kv : oid * A, query kv.2 = true) (map_to_list collection))).

Definition find_orders (query : order → bool) (db : store) : list (oid * order) :=
  find_sort_limit createdAt query 50 (orders_collection db).

(** The answers of the reading handlers.  A listing stands for
    [{'orders': serialize_doc(orders), 'total': len(orders)}]. *)
Inductive read_body :=
| read_message (m : string)
| read_type_error       (* f'Error: {str(e)}' of the TypeError [None['role']] raises *)
| orders_found (orders : list (oid * order))
| order_found (id : oid) (o : order).

(** Of a restaurant the order handlers read who owns it. *)
Record restaurant := { rs_ownerId : option oid }.

Definition get_orders (db : store) (restaurants_collection : gmap oid restaurant)
    (current_user_id : oid) (status_arg : option string) : read_body * Z :=
  match users_collection db !! current_user_id with
  | None => (read_type_error, 500)
  | Some user =>
      let by_role (o : order) : bool :=
        if String.eqb (role user) "customer" then
          bool_decide (customerId o = current_user_id)
        else if String.eqb (role user) "restaurant_owner" then
          let restaurant_ids :=
            (filter (λ kv : oid * restaurant, rs_ownerId kv.2 = Some current_user_id)
               (map_to_list restaurants_collection)).*1 in
          bool_decide (restaurantId o ∈ restaurant_ids)
        else if String.eqb (role user) "delivery" then
          bool_decide (deliveryPersonId o = Some current_user_id)
        else true in
      let by_status (o : order) : bool :=
        match status_arg with
        | Some s => if String.eqb s "" then true else String.eqb (status o) s
        | None => true
        end in
      (orders_found (find_orders (λ o, by_role o && by_status o) db), 200)
  end.

Definition get_order (db : store) (current_user_id : oid) (order_id : oid)
    : read_body * Z :=
  match orders_collection db !! order_id with
  | None => (read_message "Pedido no encontrado", 404)
  | Some o =>
      match users_collection db !! current_user_id with
      | None => (read_type_error, 500)
      | Some user =>
          if String.eqb (role user) "customer"
             && negb (bool_decide (customerId o = current_user_id))
          then (read_message "No tienes permiso para ver este pedido", 403)
          else (order_found order_id o, 200)
      end
  end.

Definition open_statuses : list string :=
  ["pending"; "confirmed"; "preparing"; "ready"]%string.

Definition get_available_delivery_orders (db : store) (current_user_id : oid)
    : read_body * Z :=
  match users_collection db !! current_user_id with
  | None => (read_type_error, 500)
  | Some user =>
      if negb (String.eqb (role user) "delivery")
      then (read_message "Acceso denegado", 403)
      else
        (orders_found
           (find_orders (λ o, bool_decide (deliveryPersonId o = None)
                              && bool_decide (status o ∈ open_statuses)) db),
         200)
  end.

(** The couriers' queue once the customer of [Demo] has ordered. *)
Definition demo_queue : list (oid * order) :=
  Eval vm_compute in
    match get_available_delivery_orders Demo.db1 Demo.courier_b with
    | (orders_found l, _) => l
    | _ => []
    end.

(** The order of [Demo] once courier A has accepted it, an operator
    putting it back to [pending], and the queue another courier then
    sees. *)
Definition demo_accepted : option order :=
  Eval vm_compute in orders_collection Demo.db2 !! Demo.order_id.

Definition demo_reopen : call :=
  {| call_env := Demo.env0; caller := Demo.admin;
     call_request :=
       UpdateOrderStatus Demo.order_id
         {| us_status := Some "pending"%string; us_note := None |} |}.

Definition demo_queue_reopened : list (oid * order) :=
  Eval vm_compute in
    match get_available_delivery_orders (final Demo.db2 [demo_reopen])
            Demo.courier_b with
    | (orders_found l, _) => l
    | _ => []
    end.

(** What the customer of [Demo] is shown of their orders. *)
Definition demo_my_orders : list (oid * order) :=
  Eval vm_compute in
    match get_orders Demo.db1 ∅ Demo.customer None with
    | (orders_found l, _) => l
    | _ => []
    end.

(** ** [role_required] around a handler with its own answers *)

(** The decorator as in [role_required], for a decorated function with
    answers of type [B] that works on a state of type [S] (the store, or
    the store and collections beside it); [denied] is
    [{'message': 'Acceso denegado'}] in [B]. *)
Definition role_required_for {B S} (denied : B) (required_roles : list string)
    (db : store) (current_user_id : oid) (state : S) (f : B * Z * S)
    : B * Z * S :=
  match users_collection db !! current_user_id with
  | Some u =>
      if bool_decide (role u ∈ required_roles) then f
      else (denied, 403, state)
  | None => (denied, 403, state)
  end.

(** ** [create_coupon] *)

(** [s.isascii()].  On such strings [Py.upper] is Python's [upper]; a
    code with other letters is capitalised by Python as Unicode has it,
    which [Py.upper] does not follow, so the statements about the code
    of a coupon are made for ASCII codes. *)
Definition isascii (s : string) : bool :=
  forallb (λ c, (nat_of_ascii c <? 128)%nat) (list_ascii_of_string s).

Record create_coupon_data := {
  cc_code : option string;
  cc_description : option string;
  cc_discountType : option string;
  cc_discountValue : option Py.num;
  cc_minOrderAmount : option Py.num;
  cc_maxDiscountAmount : option Py.num;
  cc_usageLimit : option Py.num;
  cc_validFrom : option Z;          (* a non-empty ISO date, read *)
  cc_validUntil : option Z;
  cc_applicableTo : option string;
  cc_restaurantIds : option (list oid);
  cc_isForNewUsersOnly : option bool
}.

Inductive coupon_body :=
| coupon_message (m : string)
| coupon_error (e : exn)                 (* f'Error: {str(e)}' *)
| coupon_created (cp : coupon_doc).

Definition with_coupons (cs : list coupon_doc) (db : store) : store :=
  {| users_collection := users_collection db;
     orders_collection := orders_collection db;
     reviews_collection := reviews_collection db;
     coupons_collection := cs;
     delivery_persons_collection := delivery_persons_collection db;
     notifications_collection := notifications_collection db |}.

(** [data[key]]. *)
Definition required {A} (key : string) (a : option A) : exc A :=
  match a with
  | Some a => Ok a
  | None => Raise (KeyError key)
  end.

(** The coupon document, in the order the dict display evaluates its
    values. *)
Definition new_coupon (e : env) (data : create_coupon_data) : exc coupon_doc :=
  code ← required "code" (cc_code data);
  discount_type ← required "discountType" (cc_discountType data);
  v ← required "discountValue" (cc_discountValue data);
  discount_value ← Py.to_float v;
  min_order_amount ← Py.to_float (default (Py.Int 0) (cc_minOrderAmount data));
  max_discount_amount ←
    (if option_truthy (cc_maxDiscountAmount data)
     then x ← Py.to_float (default (Py.Int 0) (cc_maxDiscountAmount data));
          Ok (Some (Py.Float x))
     else Ok None);
  Ok {| code := Py.upper code;
        description := Some (default "" (cc_description data));
        discountType := discount_type;
        discountValue := Py.Float discount_value;
        minOrderAmount := Some (Py.Float min_order_amount);
        maxDiscountAmount := max_discount_amount;
        usageLimit := cc_usageLimit data;
        usageCount := Some (Py.Int 0);
        validFrom := Some (default (utcnow e) (cc_validFrom data));
        validUntil := cc_validUntil data;
        applicableTo := Some (default "all" (cc_applicableTo data));
        restaurantIds := default [] (cc_restaurantIds data);
        isForNewUsersOnly := default false (cc_isForNewUsersOnly data);
        isActive := true |}.

(** [coupons_collection.insert_one(coupon)].  [init_database] puts a
    unique index on [code]; [unique_code] tells whether it has run. *)
Definition insert_coupon (unique_code : bool) (cp : coupon_doc) (db : store)
    : exc store :=
  if negb (forallb bson_num_ok (option_list (usageLimit cp)))
  then Raise OverflowError
  else if unique_code
          && existsb (λ c, String.eqb (code c) (code cp)) (coupons_collection db)
  then Raise DuplicateKeyError
  else Ok (with_coupons (coupons_collection db ++ [cp]) db).

Definition create_coupon_f (unique_code : bool) (e : env) (db : store)
    (data : create_coupon_data) : coupon_body * Z * store :=
  match cp ← new_coupon e data; db' ← insert_coupon unique_code cp db; Ok (cp, db') with
  | Raise ex => (coupon_error ex, 500, db)
  | Ok (cp, db') => (coupon_created cp, 201, db')
  end.

Definition create_coupon (unique_code : bool) (e : env) (db : store)
    (current_user_id : oid) (data : create_coupon_data)
    : coupon_body * Z * store :=
  role_required_for (coupon_message "Acceso denegado") ["admin"%string] db
    current_user_id db (create_coupon_f unique_code e db data).

(** A coupon of 20 percent, 30 at most, on orders of 150 and more, as an
    admin sends it, and the validation a customer asks for. *)
Definition demo_coupon : create_coupon_data :=
  {| cc_code := Some "Bienvenida20"%string; cc_description := None;
     cc_discountType := Some "percentage"%string;
     cc_discountValue := Some (Py.Int 20);
     cc_minOrderAmount := Some (Py.Int 150);
     cc_maxDiscountAmount := Some (Py.Int 30);
     cc_usageLimit := None; cc_validFrom := None; cc_validUntil := None;
     cc_applicableTo := None; cc_restaurantIds := None;
     cc_isForNewUsersOnly := None |}.

Definition demo_ask : validate_coupon_data :=
  {| vc_code := Some "bienvenida20"%string; vc_orderAmount := Some (Py.Int 200);
     vc_restaurantId := None |}.

(** The document that request leaves in the collection. *)
Definition demo_coupon_doc : coupon_doc :=
  Eval vm_compute in
    match new_coupon Demo.env0 demo_coupon with
    | Ok cp => cp
    | Raise _ => coupon_x_created
    end.

(** The same code, stored earlier by hand and still active. *)
Definition demo_older_coupon : coupon_doc :=
  {| code := "BIENVENIDA20";
     description := Some "2019"%string;
     discountType := "fixed";
     discountValue := Py.Int 5;
     minOrderAmount := None;
     maxDiscountAmount := None;
     usageLimit := None;
     usageCount := Some (Py.Int 0);
     validFrom := None;
     validUntil := None;
     applicableTo := None;
     restaurantIds := [];
     isForNewUsersOnly := false;
     isActive := true |}.

(** ** Couriers: [register_as_delivery], [update_delivery_status] *)

Definition with_users (us : gmap oid user) (db : store) : store :=
  {| users_collection := us;
     orders_collection := orders_collection db;
     reviews_collection := reviews_collection db;
     coupons_collection := coupons_collection db;
     delivery_persons_collection := delivery_persons_collection db;
     notifications_collection := notifications_collection db |}.

(** [delivery_persons_collection.find_one({'userId': uid})], with the
    [_id] of the document found.  Should several documents match, the
    server returns the first one in its own order. *)
Definition find_delivery_person (uid : oid) (db : store)
    : option (oid * delivery_person) :=
  head (filter (λ kv : oid * delivery_person, dp_userId kv.2 = uid)
          (map_to_list (delivery_persons_collection db))).

(** Of the request the handler indexes [vehicleType]; the other keys
    are read with [.get] and end up in fields the store does not keep. *)
Record register_delivery_data := { rd_vehicleType : option string }.

Inductive delivery_body :=
| delivery_message (m : string)
| delivery_error (e : exn)               (* f'Error: {str(e)}' *)
| delivery_person_created (id : oid) (dp : delivery_person).

Definition register_as_delivery (e : env) (db : store) (current_user_id : oid)
    (data : register_delivery_data) : delivery_body * Z * store :=
  match find_delivery_person current_user_id db with
  | Some _ => (delivery_message "Ya estás registrado como repartidor", 400, db)
  | None =>
      match required "vehicleType" (rd_vehicleType data) with
      | Raise ex => (delivery_error ex, 500, db)
      | Ok _ =>
          let delivery_person :=
            {| dp_userId := current_user_id; isAvailable := false;
               isOnline := false |} in
          match delivery_persons_collection db !! inserted_id e with
          | Some _ => (delivery_error DuplicateKeyError, 500, db)
          | None =>
              let db' :=
                with_delivery_persons
                  (<[inserted_id e := delivery_person]>
                     (delivery_persons_collection db)) db in
              let db'' :=
                with_users
                  (alter (λ _, {| role := "delivery" |}) current_user_id
                     (users_collection db')) db' in
              (delivery_person_created (inserted_id e) delivery_person, 201, db'')
          end
      end
  end.

Record delivery_status_data := {
  ds_isAvailable : option bool;
  ds_isOnline : option bool
}.

(** [{'$set': update_data}] with the keys the request carries. *)
Definition set_delivery_status (data : delivery_status_data)
    (dp : delivery_person) : delivery_person :=
  {| dp_userId := dp_userId dp;
     isAvailable := default (isAvailable dp) (ds_isAvailable data);
     isOnline := default (isOnline dp) (ds_isOnline data) |}.

Definition update_delivery_status_f (db : store) (current_user_id : oid)
    (data : delivery_status_data) : response * store :=
  match find_delivery_person current_user_id db with
  | None => (message "No estás registrado como repartidor", 404, db)
  | Some (id, _) =>
      let db' :=
        if bool_decide (is_Some (ds_isAvailable data))
           || bool_decide (is_Some (ds_isOnline data))
        then with_delivery_persons
               (alter (set_delivery_status data) id
                  (delivery_persons_collection db)) db
        else db in
      (message "Estado actualizado exitosamente", 200, db')
  end.

Definition update_delivery_status (db : store) (current_user_id : oid)
    (data : delivery_status_data) : response * store :=
  role_required ["delivery"]%string db current_user_id
    (update_delivery_status_f db current_user_id data).

(** No user has two delivery-person documents. *)
Definition one_profile (db : store) : Prop :=
  ∀ id1 id2 d1 d2,
    delivery_persons_collection db !! id1 = Some d1 →
    delivery_persons_collection db !! id2 = Some d2 →
    dp_userId d1 = dp_userId d2 → id1 = id2.

(** The customer of [Demo] signs up as a courier on a motorbike. *)
Definition demo_signup : register_delivery_data :=
  {| rd_vehicleType := Some "moto"%string |}.

Definition demo_signup_env : env :=
  {| utcnow := 1733839300;
     today := {| year := 2024; month := 12; day := 10 |};
     inserted_id := 20%N;
     random_oid := 98%N |}.

(** The order of [Demo] as it was placed. *)
Definition demo_placed : option order :=
  Eval vm_compute in orders_collection Demo.db1 !! Demo.order_id.

(** ** [delete_user_admin] *)

(** [users_collection.count_documents({'role': 'admin'})]. *)
Definition count_admins (db : store) : nat :=
  size (filter (λ kv : oid * user, role kv.2 = "admin"%string) (users_collection db)).

Definition delete_user_admin_f (db : store) (user_id : oid) : response * store :=
  match users_collection db !! user_id with
  | None => (message "Usuario no encontrado", 404, db)
  | Some user =>
      if String.eqb (role user) "admin" && (count_admins db <=? 1)%nat
      then (message "No se puede eliminar el último administrador", 400, db)
      else (message "Usuario eliminado exitosamente", 200,
            with_users (delete user_id (users_collection db)) db)
  end.

Definition delete_user_admin (db : store) (current_user_id : oid)
    (user_id : oid) : response * store :=
  role_required ["admin"]%string db current_user_id
    (delete_user_admin_f db user_id).

(** ** Addresses: [get_addresses], [create_address], [update_address],
    [delete_address] *)

(** A document of [addresses_collection].  The fields [update_address]
    indexes are there in every document; those it reads with [.get] may
    be missing. *)
Record address_doc := {
  ad_userId : oid;
  ad_label : string;
  ad_street : string;
  ad_exteriorNumber : option string;
  ad_interiorNumber : option string;
  ad_neighborhood : option string;
  ad_city : string;
  ad_state : string;
  ad_zipCode : string;
  ad_country : option string;
  ad_coordinates : option (list Py.num);
  ad_references : option string;
  ad_phoneContact : option string;
  ad_isDefault : option bool;
  ad_createdAt : Z;
  ad_updatedAt : Z
}.

(** The body of a request to create or update an address. *)
Record address_data := {
  ar_label : option string;
  ar_street : option string;
  ar_exteriorNumber : option string;
  ar_interiorNumber : option string;
  ar_neighborhood : option string;
  ar_city : option string;
  ar_state : option string;
  ar_zipCode : option string;
  ar_country : option string;
  ar_coordinates : option (list Py.num);
  ar_references : option string;
  ar_phoneContact : option string;
  ar_isDefault : option bool
}.

Inductive address_body :=
| address_message (m : string)
| address_error (e : exn)                          (* f'Error: {str(e)}' *)
| addresses_found (addresses : list (oid * address_doc))
| address_created (id : oid) (a : address_doc)
| restaurants_listed.     (* {'restaurants': ..., 'total': ...} *)

Definition get_addresses (addresses_collection : gmap oid address_doc)
    (current_user_id : oid) : address_body * Z :=
  (addresses_found
     (filter (λ kv : oid * address_doc, ad_userId kv.2 = current_user_id)
        (map_to_list addresses_collection)), 200).

(** [{'$set': {'isDefault': False}}]. *)
Definition unset_default (a : address_doc) : address_doc :=
  {| ad_userId := ad_userId a; ad_label := ad_label a; ad_street := ad_street a;
     ad_exteriorNumber := ad_exteriorNumber a;
     ad_interiorNumber := ad_interiorNumber a;
     ad_neighborhood := ad_neighborhood a; ad_city := ad_city a;
     ad_state := ad_state a; ad_zipCode := ad_zipCode a;
     ad_country := ad_country a; ad_coordinates := ad_coordinates a;
     ad_references := ad_references a; ad_phoneContact := ad_phoneContact a;
     ad_isDefault := Some false;
     ad_createdAt := ad_createdAt a; ad_updatedAt := ad_updatedAt a |}.

(** [update_many(query, {'$set': {'isDefault': False}})] for a [query]
    on [_id] and document. *)
Definition unset_default_where (query : oid → address_doc → bool)
    (addresses_collection : gmap oid address_doc) : gmap oid address_doc :=
  map_imap (λ id a, Some (if query id a then unset_default a else a))
    addresses_collection.

(** The address document, in the order the dict display evaluates its
    values. *)
Definition new_address (e : env) (current_user_id : oid) (data : address_data)
    : exc address_doc :=
  street ← required "street" (ar_street data);
  city ← required "city" (ar_city data);
  state ← required "state" (ar_state data);
  zip_code ← required "zipCode" (ar_zipCode data);
  Ok {| ad_userId := current_user_id;
        ad_label := default "Casa" (ar_label data);
        ad_street := street;
        ad_exteriorNumber := Some (default "" (ar_exteriorNumber data));
        ad_interiorNumber := Some (default "" (ar_interiorNumber data));
        ad_neighborhood := Some (default "" (ar_neighborhood data));
        ad_city := city;
        ad_state := state;
        ad_zipCode := zip_code;
        ad_country := Some (default "México" (ar_country data));
        ad_coordinates := Some (default [Py.Int 0; Py.Int 0] (ar_coordinates data));
        ad_references := Some (default "" (ar_references data));
        ad_phoneContact := Some (default "" (ar_phoneContact data));
        ad_isDefault := Some (default false (ar_isDefault data));
        ad_createdAt := utcnow e;
        ad_updatedAt := utcnow e |}.

Definition create_address (e : env) (addresses_collection : gmap oid address_doc)
    (current_user_id : oid) (data : address_data)
    : address_body * Z * gmap oid address_doc :=
  let addresses_collection :=
    if default false (ar_isDefault data)
    then unset_default_where
           (λ _ a, bool_decide (ad_userId a = current_user_id))
           addresses_collection
    else addresses_collection in
  match new_address e current_user_id data with
  | Raise ex => (address_error ex, 500, addresses_collection)
  | Ok address =>
      match addresses_collection !! inserted_id e with
      | Some _ => (address_error DuplicateKeyError, 500, addresses_collection)
      | None =>
          (address_created (inserted_id e) address, 201,
           <[inserted_id e := address]> addresses_collection)
      end
  end.

(** [{'$set': update_data}], [update_data] built from the request and
    the document [address] read at the start. *)
Definition set_address (data : address_data) (address : address_doc) (now : Z)
    (a : address_doc) : address_doc :=
  {| ad_userId := ad_userId a;
     ad_label := default (ad_label address) (ar_label data);
     ad_street := default (ad_street address) (ar_street data);
     ad_exteriorNumber :=
       from_option Some (ad_exteriorNumber address) (ar_exteriorNumber data);
     ad_interiorNumber :=
       from_option Some (ad_interiorNumber address) (ar_interiorNumber data);
     ad_neighborhood :=
       from_option Some (ad_neighborhood address) (ar_neighborhood data);
     ad_city := default (ad_city address) (ar_city data);
     ad_state := default (ad_state address) (ar_state data);
     ad_zipCode := default (ad_zipCode address) (ar_zipCode data);
     ad_country := ad_country a;
     ad_coordinates := ad_coordinates a;
     ad_references := from_option Some (ad_references address) (ar_references data);
     ad_phoneContact :=
       from_option Some (ad_phoneContact address) (ar_phoneContact data);
     ad_isDefault := from_option Some (ad_isDefault address) (ar_isDefault data);
     ad_createdAt := ad_createdAt a;
     ad_updatedAt := now |}.

Definition update_address (e : env) (addresses_collection : gmap oid address_doc)
    (current_user_id : oid) (address_id : oid) (data : address_data)
    : address_body * Z * gmap oid address_doc :=
  match addresses_collection !! address_id with
  | Some address =>
      if bool_decide (ad_userId address = current_user_id) then
        let addresses_collection :=
          if default false (ar_isDefault data)
          then unset_default_where
                 (λ id a, bool_decide (ad_userId a = current_user_id)
                          && negb (bool_decide (id = address_id)))
                 addresses_collection
          else addresses_collection in
        (address_message "Dirección actualizada exitosamente", 200,
         alter (set_address data address (utcnow e)) address_id
           addresses_collection)
      else (address_message "Dirección no encontrada", 404, addresses_collection)
  | None => (address_message "Dirección no encontrada", 404, addresses_collection)
  end.

(** After a deletion the function goes on with the listing of
    restaurants that follows in the source (it reads [request.args] and
    [restaurants_collection] only); [listing] is the status that listing
    ends with, 200 or the 500 of the [except] clause. *)
Definition delete_address (listing : address_body * Z)
    (addresses_collection : gmap oid address_doc)
    (current_user_id : oid) (address_id : oid)
    : address_body * Z * gmap oid address_doc :=
  match addresses_collection !! address_id with
  | Some address =>
      if bool_decide (ad_userId address = current_user_id)
      then (listing, delete address_id addresses_collection)
      else (address_message "Dirección no encontrada", 404, addresses_collection)
  | None => (address_message "Dirección no encontrada", 404, addresses_collection)
  end.

Inductive address_request :=
| CreateAddress (data : address_data)
| UpdateAddress (address_id : oid) (data : address_data)
| DeleteAddress (listing : address_body * Z) (address_id : oid).

Definition handle_address (e : env) (addresses_collection : gmap oid address_doc)
    (current_user_id : oid) (r : address_request)
    : address_body * Z * gmap oid address_doc :=
  match r with
  | CreateAddress data => create_address e addresses_collection current_user_id data
  | UpdateAddress id data =>
      update_address e addresses_collection current_user_id id data
  | DeleteAddress listing id =>
      delete_address listing addresses_collection current_user_id id
  end.

(** A user has one default address at most. *)
Definition default_unique (addresses_collection : gmap oid address_doc) : Prop :=
  ∀ id1 id2 a1 a2,
    addresses_collection !! id1 = Some a1 →
    addresses_collection !! id2 = Some a2 →
    ad_userId a1 = ad_userId a2 →
    ad_isDefault a1 = Some true → ad_isDefault a2 = Some true →
    id1 = id2.

(** Two addresses of the customer of [Demo], the first one the default,
    and a request for a third. *)
Definition demo_address (label : string) (is_default : bool) : address_doc :=
  {| ad_userId := Demo.customer; ad_label := label; ad_street := "Av. Reforma";
     ad_exteriorNumber := Some "100"%string; ad_interiorNumber := None;
     ad_neighborhood := None; ad_city := "CDMX"; ad_state := "CDMX";
     ad_zipCode := "06600"; ad_country := Some "México"%string;
     ad_coordinates := None; ad_references := None; ad_phoneContact := None;
     ad_isDefault := Some is_default; ad_createdAt := 0; ad_updatedAt := 0 |}.

Definition demo_addresses : gmap oid address_doc :=
  <[30%N := demo_address "Casa" true]> (<[31%N := demo_address "Oficina" false]> ∅).

Definition demo_new_address (street : option string) : address_data :=
  {| ar_label := Some "Playa"%string; ar_street := street;
     ar_exteriorNumber := None; ar_interiorNumber := None;
     ar_neighborhood := None; ar_city := Some "Cancún"%string;
     ar_state := Some "QR"%string; ar_zipCode := Some "77500"%string;
     ar_country := None; ar_coordinates := None; ar_references := None;
     ar_phoneContact := None; ar_isDefault := Some true |}.

Definition demo_address_env : env :=
  {| utcnow := 1733839400;
     today := {| year := 2024; month := 12; day := 10 |};
     inserted_id := 32%N;
     random_oid := 97%N |}.

(** [id] is the one default address of [uid]. *)
Definition only_default (addresses_collection : gmap oid address_doc)
    (uid id : oid) : Prop :=
  (∃ a, addresses_collection !! id = Some a
        ∧ ad_userId a = uid ∧ ad_isDefault a = Some true)
  ∧ ∀ id' a', addresses_collection !! id' = Some a' →
      ad_userId a' = uid → ad_isDefault a' = Some true → id' = id.

(** ** Notifications: [get_notifications], [mark_notification_read],
    [mark_all_notifications_read] *)

(** A stored notification: what the order handlers insert, and the read
    flag the handlers below set.  [stored_notification] is the document
    [insert_one] leaves. *)
Record notification_doc := {
  nd_notification : notification;
  nd_isRead : bool;
  nd_readAt : option Z
}.

Definition stored_notification (n : notification) : notification_doc :=
  {| nd_notification := n; nd_isRead := false; nd_readAt := None |}.

(** [{'$set': {'isRead': True, 'readAt': now}}]. *)
Definition set_read (now : Z) (d : notification_doc) : notification_doc :=
  {| nd_notification := nd_notification d; nd_isRead := true;
     nd_readAt := Some now |}.

Inductive notification_body :=
| notification_message (m : string)
| notifications_found (notifications : list (oid * notification_doc))
    (total unread : nat).

(** [count_documents({'userId': uid, 'isRead': False})]. *)
Definition count_unread (notifications_collection : gmap oid notification_doc)
    (uid : oid) : nat :=
  size (filter (λ kv : oid * notification_doc,
                  n_userId (nd_notification kv.2) = uid ∧ nd_isRead kv.2 = false)
          notifications_collection).

Definition get_notifications (notifications_collection : gmap oid notification_doc)
    (current_user_id : oid) (is_read : option string) : notification_body * Z :=
  let query (d : notification_doc) : bool :=
    bool_decide (n_userId (nd_notification d) = current_user_id)
    && match is_read with
       | Some s => Bool.eqb (nd_isRead d) (String.eqb s "true")
       | None => true
       end in
  let notifications :=
    find_sort_limit (λ d, n_createdAt (nd_notification d)) query 50
      notifications_collection in
  (notifications_found notifications (length notifications)
     (count_unread notifications_collection current_user_id), 200).

(** [update_one] reports in [modified_count] whether the document it
    matched came out different. *)
Definition mark_notification_read (e : env)
    (notifications_collection : gmap oid notification_doc)
    (current_user_id : oid) (notification_id : oid)
    : notification_body * Z * gmap oid notification_doc :=
  let matched :=
    match notifications_collection !! notification_id with
    | Some d =>
        if bool_decide (n_userId (nd_notification d) = current_user_id)
        then Some d else None
    | None => None
    end in
  let modified_count : nat :=
    match matched with
    | Some d =>
        if nd_isRead d && bool_decide (nd_readAt d = Some (utcnow e))
        then 0%nat else 1%nat
    | None => 0%nat
    end in
  let notifications_collection :=
    match matched with
    | Some _ => alter (set_read (utcnow e)) notification_id notifications_collection
    | None => notifications_collection
    end in
  if (modified_count =? 0)%nat
  then (notification_message "Notificación no encontrada", 404,
        notifications_collection)
  else (notification_message "Notificación marcada como leída", 200,
        notifications_collection).

Definition mark_all_notifications_read (e : env)
    (notifications_collection : gmap oid notification_doc)
    (current_user_id : oid)
    : notification_body * Z * gmap oid notification_doc :=
  (notification_message "Todas las notificaciones marcadas como leídas", 200,
   (λ d, if bool_decide (n_userId (nd_notification d) = current_user_id)
            && negb (nd_isRead d)
         then set_read (utcnow e) d else d) <$> notifications_collection).

(** The two notifications the customer of [Demo] has after the order
    was placed and then confirmed by the courier, and one of a
    stranger. *)
Definition demo_note (uid : oid) (title : string) (t : Z) : notification :=
  {| n_userId := uid; n_title := title; n_message := "";
     n_orderId := Demo.order_id; n_orderNumber := "ORD-20241210-0001";
     n_status := None; n_createdAt := t |}.

Definition demo_notifications : gmap oid notification_doc :=
  <[50%N := stored_notification (demo_note Demo.customer "Pedido confirmado" 1)]>
  (<[51%N := stored_notification (demo_note Demo.customer "Pedido entregado" 2)]>
  (<[52%N := stored_notification (demo_note Demo.stranger "Pedido confirmado" 3)]> ∅)).

(** ** The paging figures of [get_dishes] *)

(** [skip], [hasMore] and [totalPages] as [get_dishes] computes them
    from the arguments [page] and [limit] (read with [int]) and the
    count [total] of the dishes that match; [//] is floor division.
    Before the figures are computed the dishes are fetched: the cursor
    refuses a negative [skip], and the [find] command, which carries
    [skip] and [abs(limit)], cannot be encoded when one of them takes
    more than 64 bits.  Each of the three exceptions ends in the
    answer 500. *)
Record paging := { pg_skip : Z; pg_hasMore : bool; pg_totalPages : Z }.

Inductive paging_exn :=
| skip_ValueError            (* cursor.skip: skip must be >= 0 *)
| paging_OverflowError       (* BSON can only handle up to 8-byte ints *)
| paging_ZeroDivisionError.  (* (total + limit - 1) // 0 *)

Definition get_dishes_paging (page limit total : Z) : paging_exn + paging :=
  let skip := (page - 1) * limit in
  if skip <? 0 then inl skip_ValueError
  else if negb (bson_num_ok (Py.Int skip) && bson_num_ok (Py.Int (Z.abs limit)))
  then inl paging_OverflowError
  else if limit =? 0 then inl paging_ZeroDivisionError
  else inr {| pg_skip := skip;
              pg_hasMore := skip + limit <? total;
              pg_totalPages := (total + limit - 1) / limit |}.

(** ** [register] *)

(** Of a user the store keeps the role.  The e-mail addresses, which
    only the account handlers read, are kept beside it, under the same
    [_id]s. *)
Record register_data := {
  rg_email : option string;
  rg_password : option string;
  rg_name : option string;
  rg_role : option string
}.

Inductive register_body :=
| register_message (m : string)
| register_missing (field : string)        (* f'Campo {field} es requerido' *)
| register_error (e : exn)                 (* f'Error: {str(e)}' *)
| registered (id : oid) (email : string) (role : string).

(** [not data.get(field)] for a string field. *)
Definition missing (a : option string) : bool :=
  match a with
  | Some s => String.eqb s ""
  | None => true
  end.

Definition register (e : env) (emails : gmap oid string) (db : store)
    (data : register_data) : register_body * Z * (gmap oid string * store) :=
  if missing (rg_email data) then (register_missing "email", 400, (emails, db))
  else if missing (rg_password data)
  then (register_missing "password", 400, (emails, db))
  else if missing (rg_name data) then (register_missing "name", 400, (emails, db))
  else
    let email := default "" (rg_email data) in
    if bool_decide (email ∈ (map_to_list emails).*2)
    then (register_message "El email ya está registrado", 409, (emails, db))
    else
      let user := {| role := default "customer" (rg_role data) |} in
      match users_collection db !! inserted_id e with
      | Some _ => (register_error DuplicateKeyError, 500, (emails, db))
      | None =>
          (registered (inserted_id e) email (role user), 201,
           (<[inserted_id e := email]> emails,
            with_users (<[inserted_id e := user]> (users_collection db)) db))
      end.

(** A visitor who asks for the role [admin]. *)
Definition demo_visitor : register_data :=
  {| rg_email := Some "eve@example.com"%string;
     rg_password := Some "hunter2"%string;
     rg_name := Some "Eve"%string; rg_role := Some "admin"%string |}.

Definition demo_emails : gmap oid string :=
  <[Demo.admin := "admin@del.com"%string]> ∅.

(** ** [update_user_admin] *)






(** ** More vocabulary on orders *)

(** What an order is about and what it costs: the fields [create_order]
    fills from the request and the clock. *)
Definition order_terms (o : order) :=
  (orderNumber o, customerId o, restaurantId o, items o, deliveryAddress o,
   (subtotal o, deliveryFee o, discount o, tax o, tip o, total o),
   coupon o, paymentMethod o, createdAt o).

(** The requests after which nobody is notified. *)
Definition silent (r : request) : bool :=
  match r with
  | AssignDeliveryPerson _ _ | AcceptDeliveryOrder _ | CancelOrder _ _
  | CreateReview _ | ValidateCoupon _ => true
  | _ => false
  end.

(** Whom the notification of a request is for. *)
Definition addressee (db : store) (uid : oid) (r : request) : option oid :=
  match r with
  | CreateOrder _ => Some uid
  | UpdateOrderStatus id _ | ConfirmDelivery id =>
      customerId <$> orders_collection db !! id
  | ConfirmReceived id => orders_collection db !! id ≫= deliveryPersonId
  | _ => None
  end.

(** The order the notification of a request is about. *)
Definition notified_order (e : env) (r : request) : option oid :=
  match r with
  | CreateOrder _ => Some (inserted_id e)
  | UpdateOrderStatus id _ | ConfirmDelivery id | ConfirmReceived id => Some id
  | _ => None
  end.

(** The answers of a request that was carried out. *)
Definition succeeded (code : Z) : bool := (code =? 200) || (code =? 201).

(** The customer of [Demo] confirms the receipt and rates the order. *)
Definition demo_db4 : store :=
  (confirm_received Demo.env0 Demo.db3 Demo.customer Demo.order_id).2.

Definition demo_review : create_review_data :=
  {| cr_orderId := Demo.order_id; cr_dishId := None;
     cr_foodRating := Py.Int 5; cr_deliveryRating := Py.Int 4;
     cr_comment := None |}.

(** * Properties *)

(** ** The Python numbers on a few inputs *)

Example py_round_half_even :
  Py.round (Py.Float 0.125) 2 = Py.Float 0.12 ∧
  Py.round (Py.Float 2.675) 2 = Py.Float 2.67 ∧
  Py.round (Py.Float (-0.001)) 2 = Py.Float (-0.0) ∧
  Py.round (Py.Int 35) 2 = Py.Int 35.
Proof. repeat split; vm_compute; reflexivity. Qed.

Example py_truediv_int : Py.truediv (Py.Int 20) (Py.Int 100) = Ok (Py.Float 0.2).
Proof. vm_compute. reflexivity. Qed.

Example py_zfill :
  Py.zfill (Py.str 1) 4 = "0001"%string ∧ Py.zfill "10000" 4 = "10000"%string.
Proof. split; reflexivity. Qed.


(** ** Reading the store after a write *)

Lemma orders_update_order id f db :
  orders_collection (update_order id f db) = alter f id (orders_collection db).
Proof. reflexivity. Qed.

Lemma orders_notify n db :
  orders_collection (notify n db) = orders_collection db.
Proof. reflexivity. Qed.

Lemma lookup_update_order id f db k :
  orders_collection (update_order id f db) !! k
  = if decide (id = k) then f <$> orders_collection db !! id
    else orders_collection db !! k.
Proof. rewrite orders_update_order. apply lookup_alter. Qed.

Lemma lookup_update_order_eq id f db o :
  orders_collection db !! id = Some o →
  orders_collection (update_order id f db) !! id = Some (f o).
Proof. intros H. rewrite lookup_update_order, decide_True, H by done. done. Qed.

Lemma role_required_pass roles db uid f :
  has_role roles db uid → role_required roles db uid f = f.
Proof.
  intros (u & Hu & Hr). unfold role_required. rewrite Hu.
  by rewrite bool_decide_eq_true_2.
Qed.

Lemma role_required_cases roles db uid f :
  (has_role roles db uid ∧ role_required roles db uid f = f)
  ∨ (¬ has_role roles db uid
     ∧ role_required roles db uid f = (message "Acceso denegado", 403, db)).
Proof.
  unfold role_required, has_role.
  destruct (users_collection db !! uid) as [u|] eqn:Hu.
  - destruct (bool_decide (role u ∈ roles)) eqn:Hr.
    + left. apply bool_decide_eq_true_1 in Hr. eauto.
    + right. apply bool_decide_eq_false_1 in Hr.
      split; [|done]. intros (u' & [= <-] & ?). done.
  - right. split; [|done]. intros (u' & [=] & ?).
Qed.

Example demo_order_number :
  orderNumber <$> orders_collection Demo.db1 !! Demo.order_id
  = Some "ORD-20241210-0001"%string.
Proof. vm_compute. reflexivity. Qed.

(** ** Status changes by the operator: [update_order_status] *)

Lemma update_order_status_f_unknown e db id data s :
  us_status data = Some s →
  s ∉ valid_statuses →
  ∃ m, update_order_status_f e db id data = (message m, 400, db).
Proof.
  intros Hs Hbad. unfold update_order_status_f. rewrite Hs.
  destruct (String.eqb s ""); [by eauto|].
  rewrite bool_decide_eq_false_2 by done. cbn. by eauto.
Qed.

(** C5.  A status string outside [valid_statuses] never gets through
    [update_order_status]: the store, and with it the order's [status] and
    [statusHistory], is exactly what it was; the answer is 400 for a
    caller the role check admits (and 403 for any other caller). *)
Theorem update_order_status_unknown_status e db uid id data s o :
  orders_collection db !! id = Some o →
  us_status data = Some s →
  s ∉ valid_statuses →
  let '(resp, db') := update_order_status e db uid id data in
  db' = db
  ∧ (∃ o', orders_collection db' !! id = Some o'
           ∧ status o' = status o ∧ statusHistory o' = statusHistory o)
  ∧ (has_role operator_roles db uid → resp.2 = 400)
  ∧ (¬ has_role operator_roles db uid → resp.2 = 403).
Proof.
  intros Ho Hs Hbad. unfold update_order_status.
  destruct (update_order_status_f_unknown e db id data s Hs Hbad) as [m Hm].
  destruct (role_required_cases operator_roles db uid
              (update_order_status_f e db id data)) as [[Hr ->]|[Hr ->]].
  - rewrite Hm. cbn. repeat split; eauto. done.
  - cbn. repeat split; eauto. done.
Qed.

(** [delivering_confirmation] is a status only [confirm_delivery] sets:
    it is not among [valid_statuses]. *)
Example delivering_confirmation_not_accepted :
  (update_order_status Demo.env0 Demo.db2 Demo.courier_a Demo.order_id
     {| us_status := Some "delivering_confirmation"%string; us_note := None |})
  = (message "Estado inválido", 400, Demo.db2).
Proof. vm_compute. reflexivity. Qed.

Lemma update_order_status_unknown_status_witness :
  ∃ resp, update_order_status Demo.env0 Demo.db1 Demo.admin Demo.order_id
            {| us_status := Some "teleported"%string; us_note := None |}
          = (resp, Demo.db1) ∧ resp.2 = 400.
Proof.
  pose proof (update_order_status_unknown_status Demo.env0 Demo.db1 Demo.admin
                Demo.order_id
                {| us_status := Some "teleported"%string; us_note := None |}
                "teleported") as H.
  destruct (orders_collection Demo.db1 !! Demo.order_id) as [o|] eqn:Ho;
    [|vm_compute in Ho; discriminate].
  specialize (H o eq_refl eq_refl).
  destruct (update_order_status _ _ _ _ _) as [resp db'].
  destruct H as (-> & _ & H400 & _).
  - vm_compute. intros Hin.
    repeat (apply elem_of_cons in Hin as [Hin|Hin]; [discriminate|]).
    by apply elem_of_nil in Hin.
  - exists resp. split; [done|]. apply H400.
    exists {| role := "admin" |}. split; [reflexivity|]. apply list_elem_of_here.
Defined.

(** ** Couriers taking an order: [accept_delivery_order] *)

(** C6.  For a caller with the delivery role and an order that exists:
    when a courier is already stored the call answers 400 "already
    assigned" (the spec's Conflict) and the store is untouched; when none
    is stored the order gets the caller as [deliveryPersonId], the status
    [on_delivery] and [acceptedAt] set to the time of the call. *)
Theorem accept_delivery_order_spec e db uid id o :
  has_role ["delivery"]%string db uid →
  orders_collection db !! id = Some o →
  let '(resp, db') := accept_delivery_order e db uid id in
  (is_Some (deliveryPersonId o) →
     resp = (message "Pedido ya asignado a otro repartidor", 400) ∧ db' = db)
  ∧ (deliveryPersonId o = None →
     resp.2 = 200
     ∧ ∃ o', orders_collection db' !! id = Some o'
             ∧ deliveryPersonId o' = Some uid
             ∧ status o' = "on_delivery"%string
             ∧ acceptedAt o' = Some (utcnow e)).
Proof.
  intros Hrole Ho. unfold accept_delivery_order.
  rewrite role_required_pass by done.
  unfold accept_delivery_order_f. rewrite Ho.
  destruct (deliveryPersonId o) as [c|] eqn:Hc; cbn.
  - split; [done|]. intros [=].
  - split; [by intros [? [=]]|]. intros _. split; [done|].
    eexists. split; [by apply lookup_update_order_eq|]. done.
Qed.

Lemma accept_delivery_order_spec_witness :
  (accept_delivery_order Demo.env0 Demo.db2 Demo.courier_b Demo.order_id).1
    = (message "Pedido ya asignado a otro repartidor", 400)
  ∧ (accept_delivery_order Demo.env0 Demo.db1 Demo.courier_a Demo.order_id).1.2 = 200.
Proof.
  assert (Hb : has_role ["delivery"]%string Demo.db2 Demo.courier_b).
  { exists {| role := "delivery" |}. split; [reflexivity|]. apply list_elem_of_here. }
  assert (Ha : has_role ["delivery"]%string Demo.db1 Demo.courier_a).
  { exists {| role := "delivery" |}. split; [reflexivity|]. apply list_elem_of_here. }
  destruct (orders_collection Demo.db2 !! Demo.order_id) as [o2|] eqn:H2;
    [|vm_compute in H2; discriminate].
  destruct (orders_collection Demo.db1 !! Demo.order_id) as [o1|] eqn:H1;
    [|vm_compute in H1; discriminate].
  pose proof (accept_delivery_order_spec Demo.env0 Demo.db2 Demo.courier_b
                Demo.order_id o2 Hb H2) as S2.
  pose proof (accept_delivery_order_spec Demo.env0 Demo.db1 Demo.courier_a
                Demo.order_id o1 Ha H1) as S1.
  destruct (accept_delivery_order Demo.env0 Demo.db2 _ _) as [r2 d2].
  destruct (accept_delivery_order Demo.env0 Demo.db1 _ _) as [r1 d1].
  split.
  - apply S2. vm_compute in H2. injection H2 as <-. by eexists.
  - apply S1. vm_compute in H1. injection H1 as <-. reflexivity.
Defined.

(** ** The customer's receipt: [confirm_received] *)

(** C3.  On an order that exists, [confirm_received] answers 200 exactly
    when the caller has the customer role, is the order's customer, the
    status is [delivering_confirmation] and a courier is stored.  Then
    the order is [delivered], [receivedAt] is the time of the call,
    [paymentStatus] is [paid] and one entry is appended to
    [statusHistory].  Otherwise the answer is 403 (role or ownership) or
    400 (state) and the store is untouched. *)
Theorem confirm_received_spec e db uid id o :
  orders_collection db !! id = Some o →
  let '(resp, db') := confirm_received e db uid id in
  (resp.2 = 200 ↔ may_confirm_received db uid o)
  ∧ (resp.2 = 200 →
     ∃ o' entry, orders_collection db' !! id = Some o'
       ∧ status o' = "delivered"%string
       ∧ receivedAt o' = Some (utcnow e)
       ∧ paymentStatus o' = "paid"%string
       ∧ statusHistory o' = statusHistory o ++ [entry]
       ∧ entry_status entry = "delivered"%string)
  ∧ (resp.2 ≠ 200 →
     db' = db
     ∧ (is_customer db uid = false ∨ customerId o ≠ uid → resp.2 = 403)
     ∧ (is_customer db uid = true ∧ customerId o = uid → resp.2 = 400)).
Proof.
  intros Ho. unfold confirm_received, may_confirm_received.
  destruct (is_customer db uid) eqn:Hcust; cbn.
  2:{ split; [split; [done|by intros [[=] _]]|]. split; [done|].
      intros _. split; [done|]. split; [done|]. by intros [[=] _]. }
  rewrite Ho.
  destruct (bool_decide (customerId o = uid)) eqn:Hown; cbn.
  2:{ apply bool_decide_eq_false_1 in Hown.
      split; [split; [done|by intros (_ & ? & _)]|]. split; [done|].
      intros _. split; [done|]. split; [done|]. by intros [_ ?]. }
  apply bool_decide_eq_true_1 in Hown.
  destruct (String.eqb (status o) "delivering_confirmation") eqn:Hst; cbn.
  2:{ apply String.eqb_neq in Hst.
      split; [split; [done|by intros (_ & _ & ? & _)]|]. split; [done|].
      intros _. split; [done|]. split; [|done]. by intros [[=]|?]. }
  apply String.eqb_eq in Hst.
  destruct (deliveryPersonId o) as [c|] eqn:Hc; cbn.
  2:{ split; [split; [done|by intros (_ & _ & _ & [? [=]])]|]. split; [done|].
      intros _. split; [done|]. split; [|done]. by intros [[=]|?]. }
  split; [split; [by eauto|done]|]. split; [|done].
  intros _. do 2 eexists.
  split; [by apply lookup_update_order_eq|]. done.
Qed.

Lemma confirm_received_spec_witness :
  (confirm_received Demo.env0 Demo.db3 Demo.customer Demo.order_id).1.2 = 200
  ∧ (confirm_received Demo.env0 Demo.db2 Demo.customer Demo.order_id).1.2 = 400.
Proof.
  destruct (orders_collection Demo.db3 !! Demo.order_id) as [o3|] eqn:H3;
    [|vm_compute in H3; discriminate].
  destruct (orders_collection Demo.db2 !! Demo.order_id) as [o2|] eqn:H2;
    [|vm_compute in H2; discriminate].
  pose proof (confirm_received_spec Demo.env0 Demo.db3 Demo.customer
                Demo.order_id o3 H3) as S3.
  pose proof (confirm_received_spec Demo.env0 Demo.db2 Demo.customer
                Demo.order_id o2 H2) as S2.
  destruct (confirm_received Demo.env0 Demo.db3 _ _) as [r3 d3].
  destruct (confirm_received Demo.env0 Demo.db2 _ _) as [r2 d2].
  vm_compute in H3. injection H3 as <-.
  vm_compute in H2. injection H2 as <-.
  split.
  - apply S3. repeat split; try reflexivity. by eexists.
  - destruct S2 as ([S2a _] & _ & S2c). apply S2c.
    + intros E. apply S2a in E as (_ & _ & E & _). discriminate E.
    + split; reflexivity.
Defined.

Lemma role_required_orders_write e uid db roles r f :
  orders_write e uid db r (orders_collection f.2) →
  orders_write e uid db r (orders_collection (role_required roles db uid f).2).
Proof.
  intros H. destruct (role_required_cases roles db uid f) as [[_ ->]|[_ ->]]; auto.
Qed.

Lemma handle_orders_write e db uid r :
  orders_write e uid db r (orders_collection (handle e db uid r).2).
Proof.
  destruct r as [data|id data|id dp|data|data|id|id|id|id data]; cbn [handle].
  - unfold create_order.
    destruct (co_items data) as [|first rest] eqn:Hitems; [auto|].
    destruct (co_deliveryAddress data) as [addr|]; [|auto].
    destruct (new_order e db uid data first addr) as [o|ex] eqn:Hnew; [|auto].
    unfold insert_order.
    destruct (bson_order_ok o); cbn; [|auto].
    destruct (orders_collection db !! inserted_id e) eqn:Hfree; cbn; [auto|].
    eapply write_create; eauto. by rewrite Hitems.
  - apply role_required_orders_write. unfold update_order_status_f.
    destruct (us_status data) as [s|] eqn:Hs; [|auto].
    destruct (String.eqb s ""); [auto|].
    destruct (bool_decide (s ∈ valid_statuses)) eqn:Hin; cbn; [|auto].
    apply bool_decide_eq_true_1 in Hin.
    destruct (orders_collection db !! id); cbn; [|auto].
    by apply write_status.
  - apply role_required_orders_write. unfold assign_delivery_person_f.
    destruct dp as [dp|]; [|auto].
    destruct (delivery_persons_collection db !! dp) as [d|]; [|auto].
    destruct (isAvailable d && isOnline d); cbn; auto.
  - unfold create_review.
    destruct (orders_collection db !! cr_orderId data) as [o|]; [|auto].
    destruct (bool_decide (customerId o = uid) && String.eqb (status o) "delivered");
      [|auto].
    destruct (existsb _ _); [auto|].
    destruct (_ ≫= _); cbn; auto.
  - unfold validate_coupon.
    repeat (match goal with
            | |- context [if ?b then _ else _] => destruct b
            | |- context [match ?x with _ => _ end] => destruct x
            end; cbn; auto).
  - apply role_required_orders_write. unfold accept_delivery_order_f.
    destruct (orders_collection db !! id) as [o|]; [|auto].
    destruct (deliveryPersonId o); cbn; auto.
  - apply role_required_orders_write. unfold confirm_delivery_f.
    destruct (orders_collection db !! id) as [o|]; [|auto].
    destruct (bool_decide _); cbn; auto.
  - unfold confirm_received.
    destruct (is_customer db uid); cbn; [|auto].
    destruct (orders_collection db !! id) as [o|]; [|auto].
    destruct (bool_decide _); cbn; [|auto].
    destruct (String.eqb _ _); cbn; [|auto].
    destruct (deliveryPersonId o); cbn; auto.
  - unfold cancel_order.
    destruct (orders_collection db !! id) as [o|]; [|auto].
    destruct (_ && _); [auto|]. destruct (_ && _); cbn; auto.
Qed.

Lemma bind_Ok {A B} (m : exc A) (f : A → exc B) (b : B) :
  m ≫= f = Ok b → ∃ a, m = Ok a ∧ f a = Ok b.
Proof. destruct m; cbn; [by eauto|discriminate]. Qed.

(** The fields of a freshly built order. *)
Lemma new_order_inv e db uid data first addr o :
  new_order e db uid data first addr = Ok o →
  orderNumber o = generate_order_number e db
  ∧ customerId o = uid
  ∧ status o = "pending"%string
  ∧ paymentStatus o = "pending"%string
  ∧ deliveryPersonId o = None
  ∧ statusHistory o = [ {| entry_status := "pending"; entry_timestamp := utcnow e;
                           entry_note := "Pedido recibido" |} ]
  ∧ ∃ sub tx tot,
      Py.sum (item_subtotal <$> co_items data) = Ok sub
      ∧ Py.mul sub (Py.Float 0.16) = Ok tx
      ∧ order_total sub (default (Py.Int 35) (co_deliveryFee data))
          (default (Py.Int 0) (co_discount data)) tx
          (default (Py.Int 0) (co_tip data)) = Ok tot
      ∧ subtotal o = Py.round sub 2
      ∧ deliveryFee o = Py.round (default (Py.Int 35) (co_deliveryFee data)) 2
      ∧ discount o = Py.round (default (Py.Int 0) (co_discount data)) 2
      ∧ tax o = Py.round tx 2
      ∧ tip o = Py.round (default (Py.Int 0) (co_tip data)) 2
      ∧ total o = Py.round tot 2.
Proof.
  unfold new_order. intros H.
  apply bind_Ok in H as (sub & Hsub & H). cbn zeta in H.
  apply bind_Ok in H as (tx & Htx & H).
  apply bind_Ok in H as (t1 & H1 & H).
  apply bind_Ok in H as (t2 & H2 & H).
  apply bind_Ok in H as (t3 & H3 & H).
  apply bind_Ok in H as (tot & H4 & H).
  injection H as <-. cbn. repeat (split; [reflexivity|]).
  exists sub, tx, tot. repeat (split; [done|]).
  split; [|done]. unfold order_total. rewrite H1. cbn. rewrite H2. cbn.
  rewrite H3. cbn. done.
Qed.

(** ** Frames of the [$set] documents *)

Lemma lookup_alter_proj {A B} (proj : A → B) (f : A → A) (m : gmap oid A) id k :
  (∀ a, proj (f a) = proj a) →
  proj <$> alter f id m !! k = proj <$> m !! k.
Proof.
  intros Hf. rewrite lookup_alter. case_decide as Hk; [|done].
  subst k. destruct (m !! id); cbn; [|done]. by rewrite Hf.
Qed.

Lemma phase_of_delivered s : phase_of s = Delivered → s = "delivered"%string.
Proof.
  unfold phase_of.
  destruct (String.eqb s "confirmed"); [discriminate|].
  destruct (String.eqb s "preparing"); [discriminate|].
  destruct (String.eqb s "ready"); [discriminate|].
  destruct (String.eqb s "on_delivery"); [discriminate|].
  destruct (String.eqb s "delivered") eqn:E; [|discriminate].
  intros _. by apply String.eqb_eq.
Qed.

(** ** The status history *)

(** C10.  [assign_delivery_person], [accept_delivery_order] and
    [cancel_order] leave the [statusHistory] of every order exactly as it
    was, whatever they answer: the status they set is not recorded.  A
    request after which some order's history differs (or a new order has
    one) is a creation, a status update, a delivery confirmation or a
    receipt confirmation. *)
Theorem dispatch_and_cancel_keep_history e db uid k :
  (∀ id dp, statusHistory <$> orders_collection
                (assign_delivery_person e db uid id dp).2 !! k
            = statusHistory <$> orders_collection db !! k)
  ∧ (∀ id, statusHistory <$> orders_collection
             (accept_delivery_order e db uid id).2 !! k
           = statusHistory <$> orders_collection db !! k)
  ∧ (∀ id data, statusHistory <$> orders_collection
                  (cancel_order e db uid id data).2 !! k
                = statusHistory <$> orders_collection db !! k)
  ∧ (∀ r, statusHistory <$> orders_collection (handle e db uid r).2 !! k
          ≠ statusHistory <$> orders_collection db !! k →
          match r with
          | CreateOrder _ | UpdateOrderStatus _ _ | ConfirmDelivery _
          | ConfirmReceived _ => True
          | _ => False
          end).
Proof.
  assert (Hframe : ∀ r,
    match r with
    | CreateOrder _ | UpdateOrderStatus _ _ | ConfirmDelivery _
    | ConfirmReceived _ => True
    | _ => statusHistory <$> orders_collection (handle e db uid r).2 !! k
           = statusHistory <$> orders_collection db !! k
    end).
  { intros r. pose proof (handle_orders_write e db uid r) as Hw.
    destruct r; try exact I;
      (remember (orders_collection (handle e db uid _).2) as m eqn:Hm;
       clear Hm; inversion Hw; subst; first [done|by apply lookup_alter_proj]). }
  split; [intros id dp; apply (Hframe (AssignDeliveryPerson id dp))|].
  split; [intros id; apply (Hframe (AcceptDeliveryOrder id))|].
  split; [intros id data; apply (Hframe (CancelOrder id data))|].
  intros r Hne. specialize (Hframe r). destruct r; try exact I; done.
Qed.

(** No request removes or rewrites an entry: the history an order had
    is a prefix of the history it has afterwards. *)
Lemma history_append_only e db uid r k o o' :
  orders_collection db !! k = Some o →
  orders_collection (handle e db uid r).2 !! k = Some o' →
  ∃ new, statusHistory o' = statusHistory o ++ new ∧ (length new ≤ 1)%nat.
Proof.
  intros Ho Ho'. pose proof (handle_orders_write e db uid r) as Hw.
  remember (orders_collection (handle e db uid r).2) as m eqn:Hm. clear Hm.
  assert (Hone : ∀ f id,
            (∀ o, ∃ new, statusHistory (f o) = statusHistory o ++ new
                         ∧ (length new ≤ 1)%nat) →
            alter f id (orders_collection db) !! k = Some o' →
            ∃ new, statusHistory o' = statusHistory o ++ new ∧ (length new ≤ 1)%nat).
  { intros f id Hf Ha. rewrite lookup_alter in Ha. case_decide as Hk.
    - subst k. rewrite Ho in Ha. injection Ha as <-. apply Hf.
    - rewrite Ho in Ha. injection Ha as <-. exists []. split; [by rewrite app_nil_r|cbn; lia]. }
  destruct Hw as [r|data first addr o1 Hitems Hnew Hfree|id data s Hs Hin|id dp
                 |data rt|id|id entry|id entry|id data reason cb];
    try (eapply Hone; [|exact Ho']; intros o2; cbn;
         first [ exists []; split; [by rewrite app_nil_r|cbn; lia]
               | eexists [_]; split; [reflexivity|cbn; lia] ]).
  - rewrite Ho in Ho'. injection Ho' as <-. exists []. split; [by rewrite app_nil_r|cbn; lia].
  - destruct (decide (inserted_id e = k)) as [Heq|Hne]; [subst k; congruence|].
    rewrite lookup_insert_ne, Ho in Ho' by done. injection Ho' as <-.
    exists []. split; [by rewrite app_nil_r|cbn; lia].
Qed.

(** In the running example courier A's acceptance made the order
    [on_delivery], and the history still ends at [pending]. *)
Example demo_history_after_accept :
  (λ o, (status o, entry_status <$> statusHistory o))
    <$> orders_collection Demo.db2 !! Demo.order_id
  = Some ("on_delivery", ["pending"])%string.
Proof. vm_compute. reflexivity. Qed.

(** ** Payment *)

(** One request: an order that is [paid] afterwards was [paid] before, or
    the request is one that marks it [delivered]. *)
Lemma handle_paid e db uid r k o' :
  orders_collection (handle e db uid r).2 !! k = Some o' →
  paymentStatus o' = "paid"%string →
  (∃ o, orders_collection db !! k = Some o ∧ paymentStatus o = "paid"%string)
  ∨ (status o' = "delivered"%string ∧ marks_delivered k r).
Proof.
  intros Hk Hpaid. pose proof (handle_orders_write e db uid r) as Hw.
  remember (orders_collection (handle e db uid r).2) as m eqn:Hm. clear Hm.
  assert (Hkeep : ∀ f id,
            (∀ o, paymentStatus (f o) = paymentStatus o) →
            alter f id (orders_collection db) !! k = Some o' →
            ∃ o, orders_collection db !! k = Some o ∧ paymentStatus o = "paid"%string).
  { intros f id Hf Ha.
    pose proof (lookup_alter_proj paymentStatus f (orders_collection db) id k Hf) as Hp.
    rewrite Ha in Hp. destruct (orders_collection db !! k) as [o|]; [|done].
    exists o. split; [done|]. cbn in Hp. congruence. }
  destruct Hw as [r|data first addr o Hitems Hnew Hfree|id data s Hs Hin|id dp
                 |data rt|id|id entry|id entry|id data reason cb];
    try (left; eapply Hkeep; [|exact Hk]; intros; reflexivity).
  - left. eauto.
  - destruct (decide (inserted_id e = k)) as [Heq|Hne].
    + subst k. rewrite lookup_insert_eq in Hk. injection Hk as ->.
      apply new_order_inv in Hnew as (_ & _ & _ & Hpend & _). congruence.
    + rewrite lookup_insert_ne in Hk by done. left. eauto.
  - rewrite lookup_alter in Hk. case_decide as Hid; [|left; by eauto].
    subst k. destruct (orders_collection db !! id) as [o|] eqn:Ho; [|done].
    injection Hk as <-. cbn in Hpaid |- *.
    destruct (phase_of s) eqn:Hph; try (left; by eauto).
    apply phase_of_delivered in Hph as ->. right. split; [done|].
    right. by eauto.
  - rewrite lookup_alter in Hk. case_decide as Hid; [|left; by eauto].
    subst k. destruct (orders_collection db !! id) as [o|] eqn:Ho; [|done].
    injection Hk as <-. right. split; [done|]. by left.
Qed.

Lemma final_cons db c cs : final db (c :: cs) = final (step db c) cs.
Proof. reflexivity. Qed.

Lemma run_head db cs : db ∈ run db cs.
Proof. destruct cs; apply list_elem_of_here. Qed.

Lemma run_tail db c cs db' : db' ∈ run (step db c) cs → db' ∈ run db (c :: cs).
Proof. intros H. by apply list_elem_of_further. Qed.

(** C4.  [paymentStatus] turns to [paid] only in a step that leaves the
    order [delivered], and that step is the customer's confirmation or a
    status update to [delivered].  Hence, along any sequence of requests,
    an order that starts unpaid (or does not exist yet) and is never seen
    [delivered] is never [paid]. *)
Theorem paid_only_when_delivered :
  (∀ e db uid r k o',
     (∀ o, orders_collection db !! k = Some o → paymentStatus o ≠ "paid"%string) →
     orders_collection (handle e db uid r).2 !! k = Some o' →
     paymentStatus o' = "paid"%string →
     status o' = "delivered"%string ∧ marks_delivered k r)
  ∧ (∀ cs db k o',
       (∀ o, orders_collection db !! k = Some o → paymentStatus o ≠ "paid"%string) →
       (∀ db' o, db' ∈ run db cs → orders_collection db' !! k = Some o →
                 status o ≠ "delivered"%string) →
       orders_collection (final db cs) !! k = Some o' →
       paymentStatus o' ≠ "paid"%string).
Proof.
  assert (Hstep : ∀ e db uid r k o',
     (∀ o, orders_collection db !! k = Some o → paymentStatus o ≠ "paid"%string) →
     orders_collection (handle e db uid r).2 !! k = Some o' →
     paymentStatus o' = "paid"%string →
     status o' = "delivered"%string ∧ marks_delivered k r).
  { intros e db uid r k o' Hunpaid Hk Hpaid.
    destruct (handle_paid e db uid r k o' Hk Hpaid) as [(o & Ho & Hp)|H]; [|done].
    by destruct (Hunpaid o Ho). }
  split; [exact Hstep|].
  induction cs as [|c cs IH]; intros db k o' Hunpaid Hnever Hfin.
  - cbn in Hfin. by apply Hunpaid.
  - rewrite final_cons in Hfin. eapply IH; [| |exact Hfin].
    + intros o1 Ho1 Hp1.
      destruct (Hstep (call_env c) db (caller c) (call_request c) k o1 Hunpaid Ho1 Hp1)
        as [Hdel _].
      eapply Hnever; [|exact Ho1|exact Hdel].
      apply run_tail, run_head.
    + intros db' o Hin. apply Hnever. by apply run_tail.
Qed.

Lemma paid_only_when_delivered_witness :
  (∃ o', orders_collection
           (handle Demo.env0 Demo.db3 Demo.customer (ConfirmReceived Demo.order_id)).2
           !! Demo.order_id = Some o'
         ∧ status o' = "delivered"%string
         ∧ marks_delivered Demo.order_id (ConfirmReceived Demo.order_id))
  ∧ (∃ o', orders_collection
             (final Demo.db0
                [ {| call_env := Demo.env0; caller := Demo.customer;
                     call_request := CreateOrder Demo.basket |};
                  {| call_env := Demo.env0; caller := Demo.courier_a;
                     call_request := AcceptDeliveryOrder Demo.order_id |} ])
             !! Demo.order_id = Some o'
           ∧ paymentStatus o' ≠ "paid"%string).
Proof.
  split.
  - destruct (orders_collection
                (handle Demo.env0 Demo.db3 Demo.customer
                   (ConfirmReceived Demo.order_id)).2 !! Demo.order_id)
      as [o'|] eqn:Ho'; [|vm_compute in Ho'; discriminate].
    exists o'. split; [done|].
    apply (proj1 paid_only_when_delivered Demo.env0 Demo.db3 Demo.customer
             (ConfirmReceived Demo.order_id) Demo.order_id o').
    + intros o Ho. vm_compute in Ho. injection Ho as <-. discriminate.
    + exact Ho'.
    + vm_compute in Ho'. injection Ho' as <-. reflexivity.
  - set (cs := [ _; _ ]).
    destruct (orders_collection (final Demo.db0 cs) !! Demo.order_id)
      as [o'|] eqn:Ho'; [|vm_compute in Ho'; discriminate].
    exists o'. split; [done|].
    apply (proj2 paid_only_when_delivered cs Demo.db0 Demo.order_id o').
    + intros o Ho. vm_compute in Ho. discriminate.
    + intros db' o Hin Ho Hst. subst cs. cbn [run] in Hin.
      repeat (apply elem_of_cons in Hin as [->|Hin];
              [vm_compute in Ho;
               first [discriminate Ho | injection Ho as <-; discriminate Hst]|]).
      by apply elem_of_nil in Hin.
    + exact Ho'.
Defined.

(** ** Who holds an order *)

(** Once a courier is stored, the only request that can put another one
    in its place is [assign_delivery_person]. *)
Lemma courier_replaced_only_by_assign e db uid r k o o' :
  orders_collection db !! k = Some o →
  orders_collection (handle e db uid r).2 !! k = Some o' →
  is_Some (deliveryPersonId o) →
  deliveryPersonId o' ≠ deliveryPersonId o →
  ∃ dp, r = AssignDeliveryPerson k (Some dp) ∧ deliveryPersonId o' = Some dp.
Proof.
  intros Ho Ho' Hset Hne. pose proof (handle_orders_write e db uid r) as Hw.
  remember (orders_collection (handle e db uid r).2) as m eqn:Hm.
  assert (Hkeep : ∀ f id,
            (∀ o, deliveryPersonId (f o) = deliveryPersonId o) →
            alter f id (orders_collection db) !! k = Some o' → False).
  { intros f id Hf Ha.
    pose proof (lookup_alter_proj deliveryPersonId f (orders_collection db) id k Hf) as Hp.
    rewrite Ha, Ho in Hp. cbn in Hp. congruence. }
  destruct Hw as [r|data first addr o1 Hitems Hnew Hfree|id data s Hs Hin|id dp
                 |data rt|id|id entry|id entry|id data reason cb];
    try (exfalso; eapply Hkeep; [|exact Ho']; intros; reflexivity).
  - congruence.
  - destruct (decide (inserted_id e = k)) as [Heq|Hk]; [subst k; congruence|].
    rewrite lookup_insert_ne in Ho' by done. congruence.
  - rewrite lookup_alter in Ho'. case_decide as Hid; [|congruence].
    subst k. rewrite Ho in Ho'. injection Ho' as <-. by eauto.
  - (* accept_delivery_order writes only to an order no courier holds *)
    exfalso. cbn [handle] in Hm. unfold accept_delivery_order in Hm.
    rewrite lookup_alter in Ho'. case_decide as Hid; [|congruence]. subst k.
    destruct (role_required_cases ["delivery"]%string db uid
                (accept_delivery_order_f e db uid id)) as [[_ Hrr]|[_ Hrr]];
      rewrite Hrr in Hm; clear Hrr.
    + unfold accept_delivery_order_f in Hm. rewrite Ho in Hm.
      destruct Hset as [c Hc]. rewrite Hc in Hm. cbn in Hm.
      assert (Hl : alter (set_accepted uid (utcnow e)) id (orders_collection db) !! id
                   = Some o) by (by rewrite Hm).
      rewrite lookup_alter_eq, Ho in Hl. cbn in Hl. injection Hl as Hl.
      rewrite Ho in Ho'. cbn in Ho'. injection Ho' as <-.
      apply Hne. by rewrite Hl.
    + cbn in Hm.
      assert (Hl : alter (set_accepted uid (utcnow e)) id (orders_collection db) !! id
                   = Some o) by (by rewrite Hm).
      rewrite lookup_alter_eq, Ho in Hl. cbn in Hl. injection Hl as Hl.
      rewrite Ho in Ho'. cbn in Ho'. injection Ho' as <-.
      apply Hne. by rewrite Hl.
Qed.

(** C1 (refuted by the code).  Courier A holds the order; an admin then
    assigns the available rider, and [assign_delivery_person] answers 200
    and stores the rider in A's place. *)
Theorem assign_delivery_person_replaces_courier :
  deliveryPersonId <$> orders_collection Demo.db2 !! Demo.order_id
    = Some (Some Demo.courier_a)
  ∧ (let '(resp, db') :=
       assign_delivery_person Demo.env0 Demo.db2 Demo.admin Demo.order_id
         (Some Demo.rider_doc) in
     resp.2 = 200
     ∧ deliveryPersonId <$> orders_collection db' !! Demo.order_id
       = Some (Some Demo.rider_doc)).
Proof. vm_compute. repeat split; reflexivity. Qed.

(** ** Cancelling: [cancel_order] *)

Lemma cancel_order_spec e db uid id data o :
  orders_collection db !! id = Some o →
  let '(resp, db') := cancel_order e db uid id data in
  (cancel_refused uid o data → resp.2 = 403 ∧ db' = db)
  ∧ (¬ cancel_refused uid o data →
     resp.2 = 200
     ∧ ∃ o', orders_collection db' !! id = Some o'
             ∧ status o' = "cancelled"%string
             ∧ cancellationReason o'
               = Some (default "Sin razón especificada"%string (ca_reason data))
             ∧ cancelledBy o' = Some (default "customer"%string (ca_cancelled_by data))
             ∧ cancelledAt o' = Some (utcnow e)).
Proof.
  intros Ho. unfold cancel_order, cancel_refused. rewrite Ho.
  set (cb := default "customer"%string (ca_cancelled_by data)).
  destruct (String.eqb cb "customer") eqn:E1;
    [apply String.eqb_eq in E1|apply String.eqb_neq in E1];
  (destruct (bool_decide (customerId o = uid)) eqn:E2;
    [apply bool_decide_eq_true_1 in E2|apply bool_decide_eq_false_1 in E2]);
  (destruct (String.eqb cb "delivery") eqn:E3;
    [apply String.eqb_eq in E3|apply String.eqb_neq in E3]);
  (destruct (bool_decide (deliveryPersonId o = Some uid)) eqn:E4;
    [apply bool_decide_eq_true_1 in E4|apply bool_decide_eq_false_1 in E4]);
  cbn; try congruence;
  first
    [ (* refused *)
      split; [done|]; intros Hn; exfalso; apply Hn; by auto
    | (* accepted *)
      split; [intros [[? ?]|[? ?]]; congruence|];
      intros _; split; [done|];
      eexists; split; [by apply lookup_update_order_eq|]; done ].
Qed.

(** C7 (refuted by the code).  The order belongs to [Demo.customer] and
    no courier holds it; [Demo.stranger], whose role is [customer], sends
    [cancelled_by = "admin"] and the order is cancelled with answer 200. *)
Theorem cancel_order_by_stranger :
  customerId <$> orders_collection Demo.db1 !! Demo.order_id = Some Demo.customer
  ∧ deliveryPersonId <$> orders_collection Demo.db1 !! Demo.order_id = Some None
  ∧ role <$> users_collection Demo.db1 !! Demo.stranger = Some "customer"%string
  ∧ (let '(resp, db') :=
       cancel_order Demo.env0 Demo.db1 Demo.stranger Demo.order_id
         {| ca_reason := None; ca_cancelled_by := Some "admin"%string |} in
     resp.2 = 200
     ∧ status <$> orders_collection db' !! Demo.order_id = Some "cancelled"%string).
Proof. vm_compute. repeat split; reflexivity. Qed.

(** ** Money: [create_order] *)





(** ** Coupons: [validate_coupon] *)

(** [a < b] and [b > a] are the same test, also across int and float. *)
Lemma SFcompare_antisym a b : SFcompare b a = CompOpp <$> SFcompare a b.
Proof.
  destruct a as [sa|sa| |sa ma ea], b as [sb|sb| |sb mb eb]; cbn;
    try reflexivity; try (by destruct sa); try (by destruct sb);
    try (by destruct sa, sb).
  assert (Hp : Pos.compare_cont Eq mb ma = CompOpp (Pos.compare_cont Eq ma mb))
    by (symmetry; apply (Pos.compare_cont_antisym ma mb Eq)).
  rewrite (Z.compare_antisym ea eb), Hp.
  destruct sa, sb; cbn; try reflexivity;
    destruct (ea ?= eb); cbn; try reflexivity;
    by destruct (Pos.compare_cont Eq ma mb).
Qed.

Lemma Py_compare_antisym a b : Py.compare b a = CompOpp <$> Py.compare a b.
Proof.
  destruct a as [m|x], b as [n|y]; cbn.
  - by rewrite (Z.compare_antisym m n).
  - reflexivity.
  - destruct (Py.compare_int_float n x) as [[]|]; reflexivity.
  - rewrite !FloatAxioms.compare_spec, (SFcompare_antisym (Prim2SF x) (Prim2SF y)).
    by destruct (SFcompare (Prim2SF x) (Prim2SF y)) as [[]|].
Qed.

Lemma Py_lt_gt a b : Py.lt a b = Py.gt b a.
Proof.
  unfold Py.lt, Py.gt. rewrite (Py_compare_antisym a b).
  by destruct (Py.compare a b) as [[]|].
Qed.

Lemma validate_coupon_keeps_store e db uid data :
  (validate_coupon e db uid data).2 = db.
Proof.
  unfold validate_coupon.
  repeat (match goal with
          | |- context [if ?b then _ else _] => destruct b
          | |- context [match ?x with _ => _ end] => destruct x
          end; cbn; try reflexivity).
Qed.

(** C9.  When [validate_coupon] answers 200, the discount it returns is
    [orderAmount * (discountValue / 100)] for a [percentage] coupon and
    [discountValue] otherwise, replaced by [maxDiscountAmount] when a
    (non-zero) cap is stored and is smaller, and rounded to 2 decimals.
    Whenever the coupon found has [orderAmount < minOrderAmount] the
    answer is 400.  With [minOrderAmount = 150] an amount of 100 is
    answered 400; with 20 percent capped at 30 an amount of 200 yields a
    discount of 30. *)
Theorem validate_coupon_discount :
  (∀ e db uid data d cp db',
     validate_coupon e db uid data = (coupon_valid d cp, 200, db') →
     vc_lookup data db = Some cp
     ∧ ∃ raw,
         (discountType cp = "percentage"%string →
            ∃ rate, Py.truediv (discountValue cp) (Py.Int 100) = Ok rate
                    ∧ Py.mul (vc_amount data) rate = Ok raw)
         ∧ (discountType cp ≠ "percentage"%string → raw = discountValue cp)
         ∧ d = Py.round
                 match maxDiscountAmount cp with
                 | Some cap =>
                     if Py.truthy cap then (if Py.lt cap raw then cap else raw)
                     else raw
                 | None => raw
                 end 2)
  ∧ (∀ e db uid data cp m,
       vc_lookup data db = Some cp →
       minOrderAmount cp = Some m →
       Py.lt (vc_amount data) m = true →
       ∃ body, validate_coupon e db uid data = (body, 400, db))
  ∧ ((validate_coupon Demo.env0 (db_coupon coupon_x_seeded) Demo.customer
        (ask_x (Py.Int 100))).1.2 = 400
     ∧ (validate_coupon Demo.env0 (db_coupon coupon_x_seeded) Demo.customer
          (ask_x (Py.Int 200))).1
       = (coupon_valid (Py.Int 30) coupon_x_seeded, 200))
  ∧ ((validate_coupon Demo.env0 (db_coupon coupon_x_created) Demo.customer
        (ask_x (Py.Int 100))).1.2 = 400
     ∧ (validate_coupon Demo.env0 (db_coupon coupon_x_created) Demo.customer
          (ask_x (Py.Int 200))).1
       = (coupon_valid (Py.Float 30) coupon_x_created, 200)).
Proof.
  split; [|split; [|split]].
  - intros e db uid data d cp db'. unfold validate_coupon, vc_lookup, vc_amount.
    destruct (String.eqb _ ""); [discriminate|].
    destruct (find_coupon _ db) as [cp'|]; [|discriminate].
    repeat (match goal with
            | |- context [if ?b then _ else _] => destruct b; [discriminate|]
            end).
    destruct (Py.gt _ _); [destruct (minOrderAmount cp'); discriminate|].
    repeat (match goal with
            | |- context [if ?b then _ else _] => destruct b; [discriminate|]
            end).
    destruct (raw_discount cp' _) as [raw|ex] eqn:Hraw; [|discriminate].
    intros [= <- <- <-]. split; [done|]. exists raw.
    unfold raw_discount in Hraw.
    destruct (String.eqb (discountType cp') "percentage") eqn:Hty;
      [apply String.eqb_eq in Hty|apply String.eqb_neq in Hty].
    + apply bind_Ok in Hraw as (rate & Hrate & Hmul).
      split; [by eauto|]. split; [done|].
      unfold capped_discount, Py.min. reflexivity.
    + injection Hraw as <-. split; [done|]. split; [done|].
      unfold capped_discount, Py.min. reflexivity.
  - intros e db uid data cp m Hcp Hm Hlt.
    unfold vc_lookup, vc_amount in *. unfold validate_coupon.
    destruct (String.eqb _ ""); [by eauto|].
    rewrite Hcp.
    repeat (match goal with
            | |- context [if ?b then _ else _] => destruct b; [by eauto|]
            end).
    rewrite Hm. change (default (Py.Int 0) (Some m)) with m.
    rewrite <- Py_lt_gt, Hlt. by eauto.
  - vm_compute. split; reflexivity.
  - vm_compute. split; reflexivity.
Qed.

Lemma validate_coupon_discount_witness :
  ∃ body, validate_coupon Demo.env0 (db_coupon coupon_x_created) Demo.customer
            (ask_x (Py.Float 149.99))
          = (body, 400, db_coupon coupon_x_created).
Proof.
  apply (proj1 (proj2 validate_coupon_discount) Demo.env0
           (db_coupon coupon_x_created) Demo.customer (ask_x (Py.Float 149.99))
           coupon_x_created (Py.Float 150)).
  - vm_compute. reflexivity.
  - reflexivity.
  - vm_compute. reflexivity.
Defined.

(** The grouping of the percentage is the code's: on an amount of 37.50
    a coupon of 7 percent gives 37.5 * (7 / 100) = 2.6250000000000004,
    which rounds to 2.63, while (37.5 * 7) / 100 is 2.625 and rounds to
    2.62. *)
Example percentage_grouping :
  (rate ← Py.truediv (Py.Float 7) (Py.Int 100);
   raw ← Py.mul (Py.Float 37.5) rate; Ok (Py.round raw 2))
  = Ok (Py.Float 2.63)
  ∧ (prod ← Py.mul (Py.Float 37.5) (Py.Float 7);
     raw ← Py.truediv prod (Py.Int 100); Ok (Py.round raw 2))
    = Ok (Py.Float 2.62).
Proof. split; vm_compute; reflexivity. Qed.

(** ** Order numbers: [generate_order_number] *)

Lemma append_cons c (s t : string) : (String c s ++ t)%string = String c (s ++ t).
Proof. reflexivity. Qed.

Lemma append_empty_l (t : string) : ("" ++ t)%string = t.
Proof. reflexivity. Qed.

Ltac string_step :=
  repeat first [rewrite append_cons | rewrite append_empty_l].
Tactic Notation "string_step" "in" hyp(H) :=
  repeat first [rewrite append_cons in H | rewrite append_empty_l in H].


Lemma length_append (s1 s2 : string) :
  String.length (s1 ++ s2) = (String.length s1 + String.length s2)%nat.
Proof. induction s1 as [|c s1 IH]; string_step; cbn; [done|by rewrite IH]. Qed.








Lemma prefix_append (a r : string) : String.prefix a (a ++ r) = true.
Proof.
  induction a as [|c a IH]; string_step; cbn; [by destruct r|].
  destruct (ascii_dec c c); [exact IH|done].
Qed.

Lemma prefix_append_length (a b r : string) :
  String.length a = String.length b →
  String.prefix a (b ++ r) = true → a = b.
Proof.
  revert b. induction a as [|c a IH]; intros [|c' b] Hlen H; try discriminate.
  - done.
  - string_step in H. cbn in H, Hlen.
    destruct (ascii_dec c c') as [->|]; [|discriminate].
    injection Hlen as Hlen. by rewrite (IH b Hlen H).
Qed.

Lemma append_assoc (a b c : string) : (a ++ b ++ c)%string = ((a ++ b) ++ c)%string.
Proof. induction a as [|x a IH]; string_step; [done|by rewrite IH]. Qed.

Lemma prefix_order_number t k :
  String.prefix ("ORD-" ++ t) (order_number t k) = true.
Proof. unfold order_number. rewrite append_assoc. apply prefix_append. Qed.

Lemma prefix_order_number_inv t1 t2 k :
  String.length t1 = String.length t2 →
  String.prefix ("ORD-" ++ t1) (order_number t2 k) = true → t1 = t2.
Proof.
  intros Hlen H. unfold order_number in H. rewrite append_assoc in H.
  apply prefix_append_length in H; [|by rewrite !length_append, Hlen].
  string_step in H. by injection H.
Qed.










(** In such a store the orders counted for a day are the orders that
    carry a number of that day. *)
Lemma counted_are_of_the_day m t id o :
  numbered m → String.length t = 8%nat → m !! id = Some o →
  has_prefix ("ORD-" ++ t) (id, o) ↔ ∃ k, orderNumber o = order_number t k.
Proof.
  intros Hm Hlen Ho. unfold has_prefix. cbn. split.
  - intros Hp. destruct (Hm id o Ho) as (t' & k & Hlen' & Hnum & _).
    rewrite Hnum in Hp. apply prefix_order_number_inv in Hp; [|congruence].
    subst t'. by exists k.
  - intros [k ->]. apply prefix_order_number.
Qed.




(** * Properties of the further handlers *)

(** * Properties of the further handlers *)

(** ** Serialising documents: [serialize_doc] *)

Lemma value_induction (P : value → Prop) :
  P VNone → (∀ b, P (VBool b)) → (∀ a, P (VNum a)) → (∀ s, P (VStr s)) →
  (∀ o, P (VObjectId o)) → (∀ t, P (VDatetime t)) →
  (∀ items, Forall (λ kv, P kv.2) items → P (VDict items)) →
  (∀ l, Forall P l → P (VList l)) →
  ∀ v, P v.
Proof.
  intros HNone HBool HNum HStr HOid HDt HDict HList.
  fix IH 1.
  intros [ |b|a|s|o|t|items|l];
    [apply HNone|apply HBool|apply HNum|apply HStr|apply HOid|apply HDt| |].
  - apply HDict.
    revert items. fix IHl 1. intros [|kv items]; constructor.
    + apply IH.
    + apply IHl.
  - apply HList.
    revert l. fix IHl 1. intros [|w l]; constructor.
    + apply IH.
    + apply IHl.
Qed.

Lemma dict_set_fresh {A} k (v : A) d :
  k ∉ d.*1 → dict_set k v d = d ++ [(k, v)].
Proof.
  induction d as [|[k' v'] d IH]; intros Hk; [done|].
  cbn in *. apply not_elem_of_cons in Hk as [Hne Hk].
  destruct (String.eqb k' k) eqn:E; [apply String.eqb_eq in E; congruence|].
  by rewrite IH.
Qed.

Lemma dict_set_same {A} k (v : A) d d' :
  k ∉ d.*1 → dict_set k v (d ++ (k, v) :: d') = d ++ (k, v) :: d'.
Proof.
  induction d as [|[k' v'] d IH]; intros Hk; cbn.
  - by rewrite String.eqb_refl.
  - cbn in Hk. apply not_elem_of_cons in Hk as [Hne Hk].
    destruct (String.eqb k' k) eqn:E; [apply String.eqb_eq in E; congruence|].
    by rewrite IH.
Qed.

Lemma dict_set_keys_ready k v d :
  json_ready v = true →
  forallb (λ kv, json_ready kv.2) d = true →
  forallb (λ kv, json_ready kv.2) (dict_set k v d) = true.
Proof.
  intros Hv. induction d as [|[k' v'] d IH]; cbn; [by rewrite Hv|].
  intros [H1 H2]%andb_true_iff.
  destruct (String.eqb k' k); cbn; [by rewrite Hv, H2|by rewrite H1, IH].
Qed.

(** The loop body of [serialize_doc], with the branches on the type of
    the value gathered in [serialize_field]. *)
Lemma serialize_doc_dict str isoformat items :
  serialize_doc str isoformat (VDict items)
  = VDict (fold_left
             (λ serialized kv,
                if String.eqb kv.1 "_id" then
                  dict_set "_id" (VStr (str kv.2))
                    (dict_set "id" (VStr (str kv.2)) serialized)
                else dict_set kv.1 (serialize_field str isoformat kv.2) serialized)
             items []).
Proof.
  cbn [serialize_doc]. f_equal. generalize (@nil (string * value)).
  induction items as [|[k w] items IH]; intros acc; [done|].
  cbn [fold_left]. rewrite <- IH. f_equal. cbn [fst snd].
  destruct (String.eqb k "_id"); [done|]. by destruct w.
Qed.

Lemma serialize_field_ready str isoformat w :
  (list_safe w = true → json_ready (serialize_doc str isoformat w) = true) →
  match w with VObjectId _ => true | _ => list_safe w end = true →
  json_ready (serialize_field str isoformat w) = true.
Proof. destruct w; cbn [serialize_field]; auto. Qed.

Lemma serialize_doc_ready_if str isoformat v :
  list_safe v = true → json_ready (serialize_doc str isoformat v) = true.
Proof.
  induction v as [ |b|a|s|o|t|items IH|l IH] using value_induction;
    try done.
  - intros Hsafe. rewrite serialize_doc_dict. cbn [json_ready list_safe] in *.
    assert (Hacc : forallb (λ kv : string * value, json_ready kv.2) [] = true) by done.
    revert Hacc. generalize (@nil (string * value)).
    induction items as [|[k w] items IHl]; intros acc Hacc; [done|].
    cbn [fold_left fst snd]. cbn [forallb fst snd] in Hsafe.
    apply andb_true_iff in Hsafe as [Hw Hsafe].
    apply Forall_cons in IH as [IHw IH]. cbn [snd] in IHw.
    apply IHl; [done..|].
    destruct (String.eqb k "_id"); cbn [orb] in Hw.
    + apply dict_set_keys_ready; [done|]. by apply dict_set_keys_ready.
    + apply dict_set_keys_ready; [|done]. by apply serialize_field_ready.
  - intros Hsafe. cbn [serialize_doc json_ready list_safe] in *.
    induction l as [|w l IHl]; [done|].
    cbn [map forallb] in *. apply andb_true_iff in Hsafe as [Hw Hsafe].
    apply Forall_cons in IH as [IHw IH].
    by rewrite IHw, IHl.
Qed.

Lemma dict_wf_dict items :
  dict_wf (VDict items) = true →
  NoDup items.*1 ∧ Forall (λ kv, dict_wf kv.2 = true) items.
Proof.
  cbn [dict_wf]. intros [H1 H2]%andb_true_iff.
  split; [by apply bool_decide_eq_true_1 in H1|].
  apply Forall_forall. intros kv Hin. rewrite forallb_forall in H2.
  apply H2. by apply list_elem_of_In.
Qed.

Lemma no_id_clash_dict items :
  no_id_clash (VDict items) = true →
  ("_id"%string ∈ items.*1 → "id"%string ∉ items.*1)
  ∧ Forall (λ kv, no_id_clash kv.2 = true) items.
Proof.
  cbn [no_id_clash]. intros [H1 H2]%andb_true_iff. split.
  - intros Hin Hid. apply negb_true_iff, andb_false_iff in H1 as [H1|H1];
      apply bool_decide_eq_false_1 in H1; done.
  - apply Forall_forall. intros kv Hin. rewrite forallb_forall in H2.
    apply H2. by apply list_elem_of_In.
Qed.

(** With distinct keys, and no key [id] beside a key [_id], no
    assignment of the loop hits a key that is already there: each item
    yields its own items, in order. *)
Lemma serialize_fold_flat str isoformat items acc :
  NoDup items.*1 → ("_id"%string ∈ items.*1 → "id"%string ∉ items.*1) →
  (∀ k, k ∈ items.*1 → k ∉ acc.*1) →
  ("_id"%string ∈ items.*1 → "id"%string ∉ acc.*1) →
  fold_left
    (λ serialized kv,
       if String.eqb kv.1 "_id" then
         dict_set "_id" (VStr (str kv.2))
           (dict_set "id" (VStr (str kv.2)) serialized)
       else dict_set kv.1 (serialize_field str isoformat kv.2) serialized)
    items acc
  = acc ++ flat_map (serialize_item str isoformat) items.
Proof.
  revert acc. induction items as [|[k w] items IH]; intros acc Hnd Hid Hacc Hacc'.
  { cbn. by rewrite app_nil_r. }
  cbn [fold_left flat_map fst snd fmap list_fmap] in *.
  apply NoDup_cons in Hnd as [Hk Hnd].
  unfold serialize_item at 1. cbn [fst snd].
  destruct (String.eqb k "_id") eqn:E.
  - apply String.eqb_eq in E. subst k.
    assert (Hid' : "id"%string ∉ items.*1).
    { specialize (Hid ltac:(left)). by apply not_elem_of_cons in Hid as [_ ?]. }
    rewrite (dict_set_fresh "id") by (apply Hacc'; left).
    rewrite (dict_set_fresh "_id").
    2:{ rewrite fmap_app. intros [H|H]%elem_of_app.
        - revert H. apply Hacc. left.
        - cbn in H. apply list_elem_of_singleton in H. discriminate. }
    rewrite IH; [by rewrite <- !app_assoc|done|done| |done].
    intros k' Hk'. rewrite !fmap_app. cbn.
    intros [[H|H]%elem_of_app|H]%elem_of_app.
    + revert H. apply Hacc. by right.
    + apply list_elem_of_singleton in H. congruence.
    + apply list_elem_of_singleton in H. congruence.
  - apply String.eqb_neq in E.
    assert (Hid' : "_id"%string ∈ items.*1 → k ≠ "id"%string ∧ "id"%string ∉ items.*1).
    { intros Hin. specialize (Hid ltac:(by right)).
      by apply not_elem_of_cons in Hid as [? ?]. }
    rewrite dict_set_fresh by (apply Hacc; left).
    rewrite IH; [by rewrite <- !app_assoc|done| | |].
    + intros Hin. by apply Hid'.
    + intros k' Hk'. rewrite fmap_app. cbn.
      intros [H|H]%elem_of_app.
      * revert H. apply Hacc. by right.
      * apply list_elem_of_singleton in H. congruence.
    + intros Hin. rewrite fmap_app. cbn. intros [H|H]%elem_of_app.
      * revert H. apply Hacc'. by right.
      * apply list_elem_of_singleton in H. apply Hid' in Hin as [? _]. congruence.
Qed.

Lemma serialize_doc_flat str isoformat items :
  NoDup items.*1 → ("_id"%string ∈ items.*1 → "id"%string ∉ items.*1) →
  serialize_doc str isoformat (VDict items)
  = VDict (flat_map (serialize_item str isoformat) items).
Proof.
  intros Hnd Hid. rewrite serialize_doc_dict. f_equal.
  rewrite serialize_fold_flat; try done.
  - intros k _. apply not_elem_of_nil.
  - intros _. apply not_elem_of_nil.
Qed.

Lemma serialize_field_ready_inv str isoformat w :
  (json_ready (serialize_doc str isoformat w) = true → list_safe w = true) →
  json_ready (serialize_field str isoformat w) = true →
  match w with VObjectId _ => true | _ => list_safe w end = true.
Proof. destruct w; cbn [serialize_field]; auto. Qed.

Lemma serialize_doc_ready_only_if str isoformat v :
  dict_wf v = true → no_id_clash v = true →
  json_ready (serialize_doc str isoformat v) = true → list_safe v = true.
Proof.
  induction v as [ |b|a|s|o|t|items IH|l IH] using value_induction;
    try done.
  - intros [Hnd Hwf]%dict_wf_dict [Hid Hno]%no_id_clash_dict.
    rewrite serialize_doc_flat by done. cbn [json_ready list_safe].
    clear Hnd Hid. induction items as [|[k w] items IHl]; [done|].
    apply Forall_cons in IH as [IHw IH]. apply Forall_cons in Hwf as [Hw Hwf].
    apply Forall_cons in Hno as [Hn Hno]. cbn [fst snd] in *.
    cbn [flat_map]. rewrite forallb_app. intros [H1 H2]%andb_true_iff.
    cbn [forallb fst snd]. rewrite IHl by done. rewrite andb_true_r.
    unfold serialize_item in H1. cbn [fst snd] in H1.
    destruct (String.eqb k "_id"); [done|]. cbn [orb].
    cbn [forallb snd] in H1. rewrite andb_true_r in H1.
    apply (serialize_field_ready_inv str isoformat); [|done]. by apply IHw.
  - cbn [serialize_doc json_ready list_safe dict_wf no_id_clash].
    induction l as [|w l IHl]; [done|].
    apply Forall_cons in IH as [IHw IH]. cbn [map forallb].
    intros [Hw Hwf]%andb_true_iff [Hn Hno]%andb_true_iff [H1 H2]%andb_true_iff.
    by rewrite IHw, IHl.
Qed.

(** X1.  [jsonify] takes what [serialize_doc] returns exactly when no
    [ObjectId] is the value itself or an item of a list: as the value
    of a key an [ObjectId] is turned into a string at any depth,
    elsewhere it is returned as it is.  (That nothing else is needed
    holds for every value; that this much is needed, for documents with
    distinct keys in which no [dict] has both a key [_id] and a key
    [id].) *)
Theorem serialize_doc_json_ready str isoformat v :
  (list_safe v = true → json_ready (serialize_doc str isoformat v) = true)
  ∧ (dict_wf v = true → no_id_clash v = true →
     json_ready (serialize_doc str isoformat v) = true → list_safe v = true).
Proof.
  split.
  - apply serialize_doc_ready_if.
  - intros Hwf Hno. by apply serialize_doc_ready_only_if.
Qed.

Lemma serialize_doc_json_ready_witness :
  json_ready (serialize_doc demo_str demo_isoformat demo_doc) = true
  ∧ json_ready (serialize_doc demo_str demo_isoformat
                  (VDict [("restaurantIds", VList [VObjectId 40])]%string)) = false.
Proof.
  split.
  - apply (proj1 (serialize_doc_json_ready demo_str demo_isoformat demo_doc)).
    vm_compute. reflexivity.
  - destruct (json_ready _) eqn:E; [|done].
    apply (proj2 (serialize_doc_json_ready demo_str demo_isoformat _)) in E;
      vm_compute in E |- *; done.
Defined.

(** The lists of this application hold documents, whose fields are
    converted; a list of [ObjectId]s comes back unconverted, and so does
    a list of dates, which [jsonify] then writes in its own format. *)
Example serialize_doc_demo :
  serialize_doc demo_str demo_isoformat demo_doc
  = VDict [("id", VStr "10"); ("_id", VStr "10"); ("customerId", VStr "5");
           ("total", VNum (Py.Float 342.24));
           ("statusHistory",
            VList [VDict [("status", VStr "pending"); ("timestamp", VStr "17")]])]%string
  ∧ serialize_doc demo_str demo_isoformat (VList [VObjectId 40; VDatetime 17])
    = VList [VObjectId 40; VDatetime 17]
  ∧ json_ready (VList [VDatetime 17]) = true.
Proof. repeat split; vm_compute; reflexivity. Qed.

Lemma dict_get_app {A} k (d1 d2 : list (string * A)) :
  dict_get k (d1 ++ d2)
  = match dict_get k d1 with Some v => Some v | None => dict_get k d2 end.
Proof.
  induction d1 as [|[k' v'] d1 IH]; [done|]. cbn.
  by destruct (String.eqb k' k).
Qed.

Lemma dict_get_None {A} k (d : list (string * A)) :
  k ∉ d.*1 → dict_get k d = None.
Proof.
  induction d as [|[k' v'] d IH]; [done|]. cbn.
  intros [Hne Hk]%not_elem_of_cons.
  destruct (String.eqb k' k) eqn:E; [apply String.eqb_eq in E; congruence|].
  by apply IH.
Qed.

(** X2.  In a document with distinct keys none of which is [id], every
    key other than [_id] keeps its place and holds the converted value,
    and [_id] comes out twice, as [id] and as [_id], both holding [str]
    of the stored value. *)
Theorem serialize_doc_fields str isoformat items k :
  NoDup items.*1 → "id"%string ∉ items.*1 →
  ∃ out, serialize_doc str isoformat (VDict items) = VDict out
    ∧ dict_get k out
      = if String.eqb k "id" || String.eqb k "_id"
        then (λ x, VStr (str x)) <$> dict_get "_id" items
        else serialize_field str isoformat <$> dict_get k items.
Proof.
  intros Hnd Hid. eexists. split; [by apply serialize_doc_flat|].
  induction items as [|[k' w] items IH].
  { cbn. by destruct (_ || _). }
  cbn [fmap list_fmap fst] in Hnd, Hid.
  apply NoDup_cons in Hnd as [Hk' Hnd].
  apply not_elem_of_cons in Hid as [Hne Hid].
  specialize (IH Hnd Hid).
  cbn [flat_map]. rewrite dict_get_app. unfold serialize_item at 1.
  cbn [fst snd dict_get].
  destruct (String.eqb k' "_id") eqn:E'.
  - apply String.eqb_eq in E'. subst k'. cbn [dict_get].
    destruct (String.eqb "id" k) eqn:E1.
    { apply String.eqb_eq in E1. subst k. done. }
    destruct (String.eqb "_id" k) eqn:E2.
    { apply String.eqb_eq in E2. subst k. done. }
    rewrite IH. rewrite String.eqb_sym in E1. rewrite String.eqb_sym in E2.
    rewrite E1, E2. done.
  - cbn [dict_get]. destruct (String.eqb k' k) eqn:E.
    + apply String.eqb_eq in E. subst k'.
      apply String.eqb_neq in Hne. rewrite String.eqb_sym in Hne.
      rewrite Hne, E'. done.
    + rewrite IH. done.
Qed.

Lemma serialize_doc_fields_witness :
  ∃ out, serialize_doc demo_str demo_isoformat demo_doc = VDict out
    ∧ dict_get "id" out = Some (VStr "10")
    ∧ dict_get "customerId" out = Some (VStr "5").
Proof.
  destruct (serialize_doc_fields demo_str demo_isoformat
              [("_id", VObjectId 10); ("customerId", VObjectId 5);
               ("total", VNum (Py.Float 342.24));
               ("statusHistory",
                VList [VDict [("status", VStr "pending");
                              ("timestamp", VDatetime 17)]])]%string
              "id") as (out & Hout & Hid).
  - apply (bool_decide_unpack _). vm_compute. exact I.
  - apply (bool_decide_unpack _). vm_compute. exact I.
  - exists out. split; [exact Hout|]. split; [exact Hid|].
    injection Hout as <-. vm_compute. reflexivity.
Defined.

Lemma serialize_field_idem str isoformat w :
  (serialize_doc str isoformat (serialize_doc str isoformat w)
   = serialize_doc str isoformat w) →
  serialize_field str isoformat (serialize_field str isoformat w)
  = serialize_field str isoformat w.
Proof.
  by destruct w.
Qed.

(** The second pass over what the first pass has written. *)
Lemma serialize_fold_again str isoformat items acc :
  (∀ s, str (VStr s) = s) →
  Forall (λ kv, serialize_field str isoformat (serialize_field str isoformat kv.2)
                = serialize_field str isoformat kv.2) items →
  NoDup items.*1 → ("_id"%string ∈ items.*1 → "id"%string ∉ items.*1) →
  (∀ k, k ∈ items.*1 → k ∉ acc.*1) →
  ("_id"%string ∈ items.*1 → "id"%string ∉ acc.*1) →
  fold_left
    (λ serialized kv,
       if String.eqb kv.1 "_id" then
         dict_set "_id" (VStr (str kv.2))
           (dict_set "id" (VStr (str kv.2)) serialized)
       else dict_set kv.1 (serialize_field str isoformat kv.2) serialized)
    (flat_map (serialize_item str isoformat) items) acc
  = acc ++ flat_map (serialize_item str isoformat) items.
Proof.
  intros Hstr. revert acc.
  induction items as [|[k w] items IH]; intros acc Hf Hnd Hid Hacc Hacc'.
  { cbn. by rewrite app_nil_r. }
  cbn [flat_map fst snd fmap list_fmap] in *.
  apply Forall_cons in Hf as [Hw Hf]. cbn [snd] in Hw.
  apply NoDup_cons in Hnd as [Hk Hnd].
  unfold serialize_item at 1 3. cbn [fst snd].
  destruct (String.eqb k "_id") eqn:E.
  - apply String.eqb_eq in E. subst k.
    assert (Hid' : "id"%string ∉ items.*1).
    { specialize (Hid ltac:(left)). by apply not_elem_of_cons in Hid as [_ ?]. }
    cbn [app fold_left fst snd]. cbn [String.eqb Ascii.eqb Bool.eqb].
    cbn [serialize_field]. rewrite Hstr.
    rewrite (dict_set_fresh "id" _ acc) by (apply Hacc'; left).
    rewrite (dict_set_same "id" _ acc []) by (apply Hacc'; left).
    rewrite (dict_set_fresh "_id").
    2:{ rewrite fmap_app. intros [H|H]%elem_of_app.
        - revert H. apply Hacc. left.
        - cbn in H. apply list_elem_of_singleton in H. discriminate. }
    rewrite IH; [by rewrite <- !app_assoc|done|done|done| |done].
    intros k' Hk'. rewrite !fmap_app. cbn.
    intros [[H|H]%elem_of_app|H]%elem_of_app.
    + revert H. apply Hacc. by right.
    + apply list_elem_of_singleton in H. congruence.
    + apply list_elem_of_singleton in H. congruence.
  - cbn [app fold_left fst snd]. rewrite E, Hw.
    apply String.eqb_neq in E.
    assert (Hid' : "_id"%string ∈ items.*1 → k ≠ "id"%string ∧ "id"%string ∉ items.*1).
    { intros Hin. specialize (Hid ltac:(by right)).
      by apply not_elem_of_cons in Hid as [? ?]. }
    rewrite dict_set_fresh by (apply Hacc; left).
    rewrite IH; [by rewrite <- !app_assoc|done|done| | |].
    + intros Hin. by apply Hid'.
    + intros k' Hk'. rewrite fmap_app. cbn.
      intros [H|H]%elem_of_app.
      * revert H. apply Hacc. by right.
      * apply list_elem_of_singleton in H. congruence.
    + intros Hin. rewrite fmap_app. cbn. intros [H|H]%elem_of_app.
      * revert H. apply Hacc'. by right.
      * apply list_elem_of_singleton in H. apply Hid' in Hin as [? _]. congruence.
Qed.

(** X3.  [get_dish] and [track_order] pass a document through
    [serialize_doc] twice: the restaurant and the category of a dish,
    stored documents with a key [_id], and the [delivery_person_info] of
    an order, built with a key [id].  For documents with distinct keys
    in which no [dict] has both a key [_id] and a key [id] the second
    pass changes nothing. *)
Theorem serialize_doc_idempotent str isoformat v :
  (∀ s, str (VStr s) = s) →
  dict_wf v = true → no_id_clash v = true →
  serialize_doc str isoformat (serialize_doc str isoformat v)
  = serialize_doc str isoformat v.
Proof.
  intros Hstr.
  induction v as [ |b|a|s|o|t|items IH|l IH] using value_induction;
    try done.
  - intros [Hnd Hwf]%dict_wf_dict [Hid Hno]%no_id_clash_dict.
    rewrite serialize_doc_flat by done. rewrite serialize_doc_dict. f_equal.
    rewrite serialize_fold_again; try done.
    + apply Forall_forall. intros kv Hin.
      apply serialize_field_idem.
      rewrite Forall_forall in IH, Hwf, Hno. by apply IH; auto.
    + intros k _. apply not_elem_of_nil.
    + intros _. apply not_elem_of_nil.
  - cbn [serialize_doc dict_wf no_id_clash]. intros Hwf Hno. f_equal.
    rewrite map_map. apply map_ext_in. intros w Hin.
    rewrite forallb_forall in Hwf, Hno. rewrite Forall_forall in IH.
    apply IH; auto. by apply list_elem_of_In.
Qed.

Lemma serialize_doc_idempotent_witness :
  serialize_doc demo_str demo_isoformat
    (serialize_doc demo_str demo_isoformat demo_doc)
  = serialize_doc demo_str demo_isoformat demo_doc
  ∧ serialize_doc demo_str demo_isoformat
      (serialize_doc demo_str demo_isoformat demo_delivery_person_info)
    = serialize_doc demo_str demo_isoformat demo_delivery_person_info.
Proof.
  split.
  - apply (serialize_doc_idempotent demo_str demo_isoformat demo_doc).
    + intros s. reflexivity.
    + vm_compute. reflexivity.
    + vm_compute. reflexivity.
  - apply (serialize_doc_idempotent demo_str demo_isoformat
             demo_delivery_person_info).
    + intros s. reflexivity.
    + vm_compute. reflexivity.
    + vm_compute. reflexivity.
Defined.

(** A key [id] stored after [_id] survives the first pass and is
    overwritten by the second. *)
Example serialize_doc_twice_with_id :
  let doc := VDict [("_id", VObjectId 10); ("id", VNum (Py.Int 7))]%string in
  serialize_doc demo_str demo_isoformat doc
  = VDict [("id", VNum (Py.Int 7)); ("_id", VStr "10")]%string
  ∧ serialize_doc demo_str demo_isoformat
      (serialize_doc demo_str demo_isoformat doc)
    = VDict [("id", VStr "10"); ("_id", VStr "10")]%string.
Proof. split; vm_compute; reflexivity. Qed.

(** ** Listings: [find], [sort], [limit] *)

#[local] Instance newer_total {A} (created : A → Z) : Total (newer created).
Proof. intros a b. unfold newer. lia. Qed.

#[local] Instance newer_trans {A} (created : A → Z) : Transitive (newer created).
Proof. intros a b c. unfold newer. lia. Qed.

(** A listing holds documents of the collection that match the query,
    each once, the most recent first and [n] at most; a matching document
    is left out only when the listing is full of documents at least as
    recent. *)
Lemma find_sort_limit_spec {A} (created : A → Z) query n (m : gmap oid A) :
  let l := find_sort_limit created query n m in
  (∀ id a, (id, a) ∈ l → m !! id = Some a ∧ query a = true)
  ∧ (length l ≤ n)%nat
  ∧ StronglySorted (newer created) l
  ∧ NoDup l.*1
  ∧ (∀ id a, m !! id = Some a → query a = true →
       (id, a) ∈ l
       ∨ (length l = n ∧ ∀ kv, kv ∈ l → created a ≤ created kv.2)).
Proof.
  unfold find_sort_limit.
  set (f := filter (λ kv : oid * A, query kv.2 = true) (map_to_list m)).
  set (s := merge_sort (newer created) f).
  assert (Hperm : s ≡ₚ f) by apply merge_sort_Permutation.
  assert (Hsorted : StronglySorted (newer created) s)
    by (apply StronglySorted_merge_sort; apply _).
  assert (Hf : ∀ id a, (id, a) ∈ f ↔ query a = true ∧ m !! id = Some a).
  { intros id a. unfold f. rewrite list_elem_of_filter, elem_of_map_to_list.
    done. }
  cbn zeta. split; [|split; [|split; [|split]]].
  - intros id a Hin. apply and_comm, Hf. rewrite <- Hperm.
    eapply elem_of_sublist; [exact Hin|apply sublist_take].
  - rewrite length_take. lia.
  - rewrite <- (take_drop n s) in Hsorted.
    by apply StronglySorted_app_1_l in Hsorted.
  - eapply sublist_NoDup; [|apply fmap_sublist, sublist_take].
    rewrite Hperm. eapply sublist_NoDup; [apply (NoDup_fst_map_to_list m)|].
    apply fmap_sublist, sublist_filter.
  - intros id a Hm Hq.
    assert (Hin : (id, a) ∈ s) by (rewrite Hperm; by apply Hf).
    rewrite <- (take_drop n s) in Hin. apply elem_of_app in Hin as [Hin|Hin];
      [by left|right].
    split.
    + apply length_take_le. destruct (decide (n ≤ length s)%nat); [done|].
      rewrite drop_ge in Hin by lia. by apply elem_of_nil in Hin.
    + intros kv Hkv. rewrite <- (take_drop n s) in Hsorted.
      apply (StronglySorted_app_1_elem_of _ _ _ _ _ Hsorted Hkv Hin).
Qed.

(** ** The couriers' queue: [get_available_delivery_orders] *)

(** X4.  When [get_available_delivery_orders] answers 200 the caller has
    the role [delivery], and the listing holds stored orders that have
    no courier and are [pending], [confirmed], [preparing] or [ready],
    each once, the most recent first and 50 at most; an order of that
    kind is missing only when 50 orders at least as recent are listed. *)
Theorem get_available_delivery_orders_listing db uid l :
  get_available_delivery_orders db uid = (orders_found l, 200) →
  has_role ["delivery"%string] db uid
  ∧ (∀ id o, (id, o) ∈ l →
       orders_collection db !! id = Some o
       ∧ deliveryPersonId o = None ∧ status o ∈ open_statuses)
  ∧ (length l ≤ 50)%nat
  ∧ StronglySorted (newer createdAt) l
  ∧ NoDup l.*1
  ∧ (∀ id o, orders_collection db !! id = Some o →
       deliveryPersonId o = None → status o ∈ open_statuses →
       (id, o) ∈ l
       ∨ (length l = 50%nat ∧ ∀ kv, kv ∈ l → createdAt o ≤ createdAt kv.2)).
Proof.
  unfold get_available_delivery_orders.
  destruct (users_collection db !! uid) as [u|] eqn:Hu; [|discriminate].
  destruct (String.eqb (role u) "delivery") eqn:Hr; [|discriminate].
  cbn [negb]. intros [= <-]. apply String.eqb_eq in Hr.
  split. { exists u. split; [done|]. rewrite Hr. apply list_elem_of_here. }
  unfold find_orders.
  destruct (find_sort_limit_spec createdAt
              (λ o, bool_decide (deliveryPersonId o = None)
                    && bool_decide (status o ∈ open_statuses)) 50
              (orders_collection db)) as (Hin & Hlen & Hsort & Hnd & Hall).
  split; [|split; [done|split; [done|split; [done|]]]].
  - intros id o Ho. apply Hin in Ho as [Ho [H1 H2]%andb_true_iff].
    apply bool_decide_eq_true_1 in H1, H2. done.
  - intros id o Ho Hnone Hst. apply Hall; [done|].
    by rewrite !bool_decide_eq_true_2.
Qed.

Lemma get_available_delivery_orders_listing_witness :
  has_role ["delivery"%string] Demo.db1 Demo.courier_b
  ∧ ∀ id o, (id, o) ∈ demo_queue → status o ∈ open_statuses.
Proof.
  destruct (get_available_delivery_orders_listing Demo.db1 Demo.courier_b
              demo_queue) as (Hrole & Hin & _).
  - vm_compute. reflexivity.
  - split; [exact Hrole|]. intros id o Ho. by apply Hin in Ho as (_ & _ & ?).
Defined.

(** Every [$set] of an order handler keeps a stored courier or stores
    one. *)
Lemma handle_keeps_courier e db uid r k o :
  orders_collection db !! k = Some o →
  is_Some (deliveryPersonId o) →
  ∃ o', orders_collection (handle e db uid r).2 !! k = Some o'
        ∧ is_Some (deliveryPersonId o').
Proof.
  intros Ho Hc. pose proof (handle_orders_write e db uid r) as Hw.
  remember (orders_collection (handle e db uid r).2) as m eqn:Hm. clear Hm.
  assert (Hkeep : ∀ f id,
            (∀ o, is_Some (deliveryPersonId o) → is_Some (deliveryPersonId (f o))) →
            ∃ o', alter f id (orders_collection db) !! k = Some o'
                  ∧ is_Some (deliveryPersonId o')).
  { intros f id Hf. rewrite lookup_alter. case_decide as Hid.
    - subst id. rewrite Ho. cbn. eauto.
    - eauto. }
  destruct Hw as [r|data first addr o1 Hitems Hnew Hfree|id data s Hs Hin|id dp
                 |data rt|id|id entry|id entry|id data reason cb];
    try (apply Hkeep; intros o0 H0; cbn; by eauto).
  - eauto.
  - destruct (decide (inserted_id e = k)) as [Heq|Hk]; [subst k; congruence|].
    rewrite lookup_insert_ne by done. eauto.
Qed.

Lemma final_keeps_courier cs db k o :
  orders_collection db !! k = Some o →
  is_Some (deliveryPersonId o) →
  ∃ o', orders_collection (final db cs) !! k = Some o'
        ∧ is_Some (deliveryPersonId o').
Proof.
  revert db o. induction cs as [|c cs IH]; intros db o Ho Hc; [by eauto|].
  rewrite final_cons.
  destruct (handle_keeps_courier (call_env c) db (caller c) (call_request c)
              k o Ho Hc) as (o1 & Ho1 & Hc1).
  by apply (IH _ o1).
Qed.

(** X5.  An order that has a courier never comes back to the couriers'
    queue: whatever requests are served afterwards (a status change back
    to [pending], a cancellation, another assignment), no listing of
    [get_available_delivery_orders] holds it. *)
Theorem assigned_order_never_available db k o cs uid l :
  orders_collection db !! k = Some o →
  is_Some (deliveryPersonId o) →
  get_available_delivery_orders (final db cs) uid = (orders_found l, 200) →
  k ∉ l.*1.
Proof.
  intros Ho Hc Hl.
  destruct (final_keeps_courier cs db k o Ho Hc) as (o' & Ho' & Hc').
  unfold get_available_delivery_orders in Hl.
  destruct (users_collection (final db cs) !! uid) as [u|]; [|discriminate].
  destruct (negb _); [discriminate|]. injection Hl as <-.
  intros ([k' o''] & Hk & Hin)%list_elem_of_fmap. cbn in Hk. subst k'.
  unfold find_orders in Hin.
  apply (find_sort_limit_spec createdAt _ 50 _) in Hin as [Hin [H1 _]%andb_true_iff].
  apply bool_decide_eq_true_1 in H1.
  rewrite Ho' in Hin. injection Hin as <-. rewrite H1 in Hc'.
  by destruct Hc'.
Qed.

Lemma assigned_order_never_available_witness :
  Demo.order_id ∉ demo_queue_reopened.*1.
Proof.
  destruct demo_accepted as [o|] eqn:Ho; [|vm_compute in Ho; discriminate].
  apply (assigned_order_never_available Demo.db2 Demo.order_id o
           [demo_reopen] Demo.courier_b demo_queue_reopened).
  - rewrite <- Ho. vm_compute. reflexivity.
  - vm_compute in Ho. injection Ho as <-. by eexists.
  - vm_compute. reflexivity.
Defined.

(** ** A user's orders: [get_orders] and [get_order] *)

Lemma get_orders_inv db restaurants uid st l :
  get_orders db restaurants uid st = (orders_found l, 200) →
  ∃ u, users_collection db !! uid = Some u
    ∧ ∀ id o, (id, o) ∈ l →
        orders_collection db !! id = Some o
        ∧ (role u = "customer"%string → customerId o = uid)
        ∧ (role u ≠ "customer"%string → role u = "restaurant_owner"%string →
             ∃ r, restaurants !! restaurantId o = Some r
                  ∧ rs_ownerId r = Some uid)
        ∧ (role u = "delivery"%string → deliveryPersonId o = Some uid)
        ∧ (∀ s, st = Some s → s ≠ ""%string → status o = s).
Proof.
  unfold get_orders.
  destruct (users_collection db !! uid) as [u|] eqn:Hu; [|discriminate].
  intros [= <-]. exists u. split; [done|]. intros id o Hin.
  unfold find_orders in Hin.
  apply (find_sort_limit_spec createdAt _ 50 _) in Hin
    as [Ho [Hrole Hst]%andb_true_iff].
  split; [done|]. split; [|split; [|split]].
  - intros Hr. rewrite Hr in Hrole. cbn in Hrole.
    by apply bool_decide_eq_true_1 in Hrole.
  - intros Hnc Hr. apply String.eqb_neq in Hnc. rewrite Hnc, Hr in Hrole.
    cbn in Hrole. apply bool_decide_eq_true_1 in Hrole.
    apply list_elem_of_fmap in Hrole as ([k r] & Hk & Hin).
    cbn in Hk. subst k.
    apply list_elem_of_filter in Hin as [Hown Hin]. cbn in Hown.
    apply elem_of_map_to_list in Hin. by exists r.
  - intros Hr. rewrite Hr in Hrole. cbn in Hrole.
    by apply bool_decide_eq_true_1 in Hrole.
  - intros s -> Hs. apply String.eqb_neq in Hs. rewrite Hs in Hst.
    by apply String.eqb_eq in Hst.
Qed.

(** X6.  [get_orders] shows a customer orders of their own only, a
    courier only orders they hold, a restaurant owner only orders of
    restaurants they own, and with a [status] argument only orders in
    that status; every listed order is a stored one. *)
Theorem get_orders_visibility db restaurants uid st l :
  get_orders db restaurants uid st = (orders_found l, 200) →
  ∃ u, users_collection db !! uid = Some u
    ∧ ∀ id o, (id, o) ∈ l →
        orders_collection db !! id = Some o
        ∧ (role u = "customer"%string → customerId o = uid)
        ∧ (role u = "restaurant_owner"%string →
             ∃ r, restaurants !! restaurantId o = Some r
                  ∧ rs_ownerId r = Some uid)
        ∧ (role u = "delivery"%string → deliveryPersonId o = Some uid)
        ∧ (∀ s, st = Some s → s ≠ ""%string → status o = s).
Proof.
  intros (u & Hu & H)%get_orders_inv. exists u. split; [done|].
  intros id o Hin. destruct (H id o Hin) as (Ho & Hc & Hr & Hd & Hs).
  repeat split; try done.
  intros Hrole. apply Hr; [|done]. by rewrite Hrole.
Qed.

Lemma get_orders_visibility_witness :
  Forall (λ kv, customerId kv.2 = Demo.customer) demo_my_orders.
Proof.
  destruct (get_orders_visibility Demo.db1 ∅ Demo.customer None demo_my_orders)
    as (u & Hu & H).
  - vm_compute. reflexivity.
  - apply Forall_forall. intros [id o] Hin.
    destruct (H id o Hin) as (_ & Hc & _). apply Hc.
    vm_compute in Hu. by injection Hu as <-.
Defined.

(** X7.  The listing and the detail route agree: an order [get_orders]
    shows to a user is one [get_order] gives to that user. *)
Theorem listed_order_can_be_read db restaurants uid st l id o :
  get_orders db restaurants uid st = (orders_found l, 200) →
  (id, o) ∈ l →
  get_order db uid id = (order_found id o, 200).
Proof.
  intros (u & Hu & H)%get_orders_inv Hin.
  destruct (H id o Hin) as (Ho & Hc & _).
  unfold get_order. rewrite Ho, Hu.
  destruct (String.eqb (role u) "customer") eqn:Hr; [|done].
  apply String.eqb_eq in Hr. by rewrite bool_decide_eq_true_2 by auto.
Qed.

Lemma listed_order_can_be_read_witness :
  Forall (λ kv, get_order Demo.db1 Demo.customer kv.1 = (order_found kv.1 kv.2, 200))
    demo_my_orders.
Proof.
  apply Forall_forall. intros [id o] Hin.
  apply (listed_order_can_be_read Demo.db1 ∅ Demo.customer None demo_my_orders);
    [vm_compute; reflexivity|exact Hin].
Defined.

(** Another customer is refused the same order, a courier is not. *)
Example get_order_demo :
  (get_order Demo.db1 Demo.stranger Demo.order_id).2 = 403
  ∧ (get_order Demo.db1 Demo.courier_b Demo.order_id).2 = 200
  ∧ demo_my_orders.*1 = [Demo.order_id].
Proof. vm_compute. repeat split; reflexivity. Qed.

(** ** Coupons from creation to validation: [create_coupon] *)

Lemma role_required_for_message roles db uid f :
  role_required_for (message "Acceso denegado") roles db uid db f
  = role_required roles db uid f.
Proof. reflexivity. Qed.

Lemma role_required_for_cases {B S} (denied : B) roles db uid (state : S) f :
  (has_role roles db uid ∧ role_required_for denied roles db uid state f = f)
  ∨ (¬ has_role roles db uid
     ∧ role_required_for denied roles db uid state f = (denied, 403, state)).
Proof.
  unfold role_required_for, has_role.
  destruct (users_collection db !! uid) as [u|] eqn:Hu.
  - destruct (bool_decide (role u ∈ roles)) eqn:Hr.
    + left. apply bool_decide_eq_true_1 in Hr. eauto.
    + right. apply bool_decide_eq_false_1 in Hr.
      split; [|done]. intros (u' & [= <-] & ?). done.
  - right. split; [|done]. intros (u' & [=] & ?).
Qed.

Lemma upper_char_idempotent c : Py.upper_char (Py.upper_char c) = Py.upper_char c.
Proof.
  destruct c as [[] [] [] [] [] [] [] []]; vm_compute; reflexivity.
Qed.

Lemma Py_upper_idempotent s : Py.upper (Py.upper s) = Py.upper s.
Proof.
  induction s as [|c s IH]; [done|]. cbn. by rewrite upper_char_idempotent, IH.
Qed.

Lemma new_coupon_inv e data cp :
  new_coupon e data = Ok cp →
  code cp = Py.upper (default "" (cc_code data))
  ∧ isActive cp = true
  ∧ validFrom cp = Some (default (utcnow e) (cc_validFrom data))
  ∧ validUntil cp = cc_validUntil data
  ∧ usageLimit cp = cc_usageLimit data
  ∧ applicableTo cp = Some (default "all"%string (cc_applicableTo data))
  ∧ isForNewUsersOnly cp = default false (cc_isForNewUsersOnly data)
  ∧ (∃ x, discountValue cp = Py.Float x)
  ∧ (∃ m, minOrderAmount cp = Some (Py.Float m))
  ∧ (maxDiscountAmount cp = None ∨ ∃ c, maxDiscountAmount cp = Some (Py.Float c)).
Proof.
  unfold new_coupon. intros H.
  apply bind_Ok in H as (c & Hc & H).
  apply bind_Ok in H as (t & Ht & H).
  apply bind_Ok in H as (v & Hv & H).
  apply bind_Ok in H as (dv & Hdv & H).
  apply bind_Ok in H as (m & Hm & H).
  apply bind_Ok in H as (cap & Hcap & H).
  injection H as <-. cbn.
  destruct (cc_code data) as [c0|]; [|discriminate]. injection Hc as ->.
  repeat split; eauto.
  destruct (option_truthy _); [|injection Hcap as <-; by left].
  apply bind_Ok in Hcap as (x & _ & Hx). injection Hx as <-. right. eauto.
Qed.

Lemma create_coupon_inv idx e db uid data cp db' :
  create_coupon idx e db uid data = (coupon_created cp, 201, db') →
  has_role ["admin"%string] db uid
  ∧ new_coupon e data = Ok cp
  ∧ db' = with_coupons (coupons_collection db ++ [cp]) db
  ∧ (idx = true → ∀ c0, c0 ∈ coupons_collection db → code c0 ≠ code cp).
Proof.
  unfold create_coupon.
  destruct (role_required_for_cases (coupon_message "Acceso denegado")
              ["admin"%string] db uid db (create_coupon_f idx e db data))
    as [[Hr ->]|[_ ->]]; [|discriminate].
  unfold create_coupon_f.
  destruct (new_coupon e data) as [cp0|ex]; [|discriminate]. cbn.
  unfold insert_coupon.
  destruct (negb _); [discriminate|].
  destruct (idx && _) eqn:Hidx; [discriminate|]. cbn.
  intros [= -> <-]. repeat split; try done.
  intros -> c0 Hin Heq. cbn in Hidx.
  assert (existsb (λ c, String.eqb (code c) (code cp)) (coupons_collection db)
          = true); [|congruence].
  apply existsb_exists. exists c0. split; [by apply list_elem_of_In|].
  by apply String.eqb_eq.
Qed.

Lemma find_coupon_app_new (l : list coupon_doc) cp :
  (∀ c0, c0 ∈ l → isActive c0 = true → code c0 ≠ code cp) →
  isActive cp = true →
  List.find (λ c, String.eqb (code c) (code cp) && isActive c) (l ++ [cp])
  = Some cp.
Proof.
  intros Hnew Hact. induction l as [|c l IH]; cbn.
  - by rewrite String.eqb_refl, Hact.
  - destruct (String.eqb (code c) (code cp)) eqn:E.
    + apply String.eqb_eq in E. destruct (isActive c) eqn:Ec.
      * exfalso. eapply Hnew; [left|done|done].
      * cbn. apply IH. intros c0 Hc0. apply Hnew. by right.
    + cbn. apply IH. intros c0 Hc0. apply Hnew. by right.
Qed.

(** The code is new among the active coupons: the unique index makes it
    so among all of them, since the insert went through. *)
Lemma created_coupon_fresh idx e db uid data cp db' :
  create_coupon idx e db uid data = (coupon_created cp, 201, db') →
  idx = true
  ∨ (∀ c0, c0 ∈ coupons_collection db → isActive c0 = true → code c0 ≠ code cp) →
  ∀ c0, c0 ∈ coupons_collection db → isActive c0 = true → code c0 ≠ code cp.
Proof.
  intros (_ & _ & _ & Hidx)%create_coupon_inv [->|H]; [|done].
  intros c0 Hin _. by apply Hidx.
Qed.

(** X8.  A coupon [create_coupon] has stored is the coupon
    [validate_coupon] looks up, however the ASCII code is capitalised in
    either request, when no active coupon of that code was stored
    before; the unique index on [code], where [init_database] has
    created it, makes that so.  The code is stored in capitals, the
    coupon is active, it goes to the end of the collection, and nothing
    else in the store changes. *)
Theorem created_coupon_is_found idx e db uid data cp db' ask :
  create_coupon idx e db uid data = (coupon_created cp, 201, db') →
  isascii (default "" (cc_code data)) = true →
  isascii (default "" (vc_code ask)) = true →
  idx = true
  ∨ (∀ c0, c0 ∈ coupons_collection db → isActive c0 = true → code c0 ≠ code cp) →
  Py.upper (default "" (vc_code ask)) = Py.upper (default "" (cc_code data)) →
  vc_lookup ask db' = Some cp
  ∧ code cp = Py.upper (default "" (cc_code data))
  ∧ Py.upper (code cp) = code cp
  ∧ isActive cp = true
  ∧ db' = with_coupons (coupons_collection db ++ [cp]) db.
Proof.
  intros Hcreate _ _ Hfresh Hcode.
  pose proof (created_coupon_fresh _ _ _ _ _ _ _ Hcreate Hfresh) as Hnone.
  apply create_coupon_inv in Hcreate as (_ & Hnew & -> & _).
  pose proof (new_coupon_inv _ _ _ Hnew) as (Hc & Hact & _).
  split; [|split; [done|split; [|done]]].
  - unfold vc_lookup, find_coupon. rewrite Hcode, <- Hc. cbn.
    by apply find_coupon_app_new.
  - rewrite Hc. apply Py_upper_idempotent.
Qed.

Lemma created_coupon_is_found_witness :
  ∃ cp db', create_coupon true Demo.env0 Demo.db0 Demo.admin demo_coupon
            = (coupon_created cp, 201, db')
    ∧ vc_lookup demo_ask db' = Some cp
    ∧ code cp = "BIENVENIDA20"%string.
Proof.
  destruct (create_coupon true Demo.env0 Demo.db0 Demo.admin demo_coupon)
    as [[body status] db'] eqn:E.
  assert (∃ cp, body = coupon_created cp ∧ status = 201) as (cp & -> & ->).
  { vm_compute in E. injection E as <- <- _. by eexists. }
  exists cp, db'. split; [done|].
  destruct (created_coupon_is_found true Demo.env0 Demo.db0 Demo.admin
              demo_coupon cp db' demo_ask E) as (Hl & Hc & _).
  - vm_compute. reflexivity.
  - vm_compute. reflexivity.
  - by left.
  - vm_compute. reflexivity.
  - split; [exact Hl|]. rewrite Hc. vm_compute. reflexivity.
Defined.

(** Without the index an older active coupon of the same code is the
    one found: the new coupon is stored and never validated. *)
Example older_coupon_is_found :
  let db := with_coupons [demo_older_coupon] Demo.db0 in
  let '(body, status, db') :=
    create_coupon false Demo.env0 db Demo.admin demo_coupon in
  status = 201
  ∧ coupons_collection db' = [demo_older_coupon; demo_coupon_doc]
  ∧ vc_lookup demo_ask db' = Some demo_older_coupon
  ∧ (create_coupon true Demo.env0 db Demo.admin demo_coupon).1
    = (coupon_error DuplicateKeyError, 500).
Proof. vm_compute. repeat split; reflexivity. Qed.

Lemma Py_upper_nonempty s : s ≠ ""%string → Py.upper s ≠ ""%string.
Proof. by destruct s. Qed.

(** X9.  A coupon created with an ASCII code and without dates, usage
    limit or restriction to restaurants or new users is accepted by
    [validate_coupon] from the moment it is stored, when no active
    coupon of that code was stored before (the unique index on [code],
    where it exists, makes that so): for the code spelled in any
    capitalisation and an amount not below the stored minimum no check
    refuses it, and the answer is the discount the coupon gives on that
    amount (or the error the arithmetic raises). *)
Theorem created_coupon_validates idx e db uid data cp db' e' uid' ask :
  create_coupon idx e db uid data = (coupon_created cp, 201, db') →
  isascii (default "" (cc_code data)) = true →
  isascii (default "" (vc_code ask)) = true →
  idx = true
  ∨ (∀ c0, c0 ∈ coupons_collection db → isActive c0 = true → code c0 ≠ code cp) →
  default "" (vc_code ask) ≠ ""%string →
  Py.upper (default "" (vc_code ask)) = Py.upper (default "" (cc_code data)) →
  cc_validFrom data = None → cc_validUntil data = None →
  cc_usageLimit data = None → cc_applicableTo data = None →
  cc_isForNewUsersOnly data = None →
  utcnow e ≤ utcnow e' →
  (∀ m, minOrderAmount cp = Some m → Py.gt m (vc_amount ask) = false) →
  validate_coupon e' db' uid' ask
  = match raw_discount cp (vc_amount ask) with
    | Ok raw => (coupon_valid (Py.round (capped_discount cp raw) 2) cp, 200, db')
    | Raise ex => (message_error ex, 500, db')
    end.
Proof.
  intros Hcreate _ _ Hfresh0 Hne Hcode Hvf Hvu Hul Hat Hnu Hclock Hmin.
  pose proof (created_coupon_fresh _ _ _ _ _ _ _ Hcreate Hfresh0) as Hfresh.
  apply create_coupon_inv in Hcreate as (_ & Hnew & -> & _).
  pose proof (new_coupon_inv _ _ _ Hnew)
    as (Hc & Hact & Hfrom & Huntil & Hlimit & Happ & Hnewu & _ & (m & Hm) & _).
  rewrite Hvf in Hfrom. rewrite Hvu in Huntil. rewrite Hul in Hlimit.
  rewrite Hat in Happ. rewrite Hnu in Hnewu. cbn in Hfrom, Happ, Hnewu.
  unfold validate_coupon. cbn zeta.
  destruct (String.eqb (Py.upper (default "" (vc_code ask))) "") eqn:E.
  { apply String.eqb_eq in E. by apply Py_upper_nonempty in Hne. }
  unfold find_coupon. rewrite Hcode, <- Hc. cbn [coupons_collection with_coupons].
  rewrite find_coupon_app_new by done.
  rewrite Hfrom, Huntil, Hlimit, Hnewu, Happ, Hm.
  replace (utcnow e' <? utcnow e) with false by (symmetry; apply Z.ltb_ge; lia).
  cbn [option_truthy andb]. change (default (Py.Int 0) (Some (Py.Float m))) with (Py.Float m).
  unfold vc_amount in Hmin. rewrite (Hmin _ Hm).
  rewrite bool_decide_eq_false_2 by discriminate. cbn [andb].
  reflexivity.
Qed.

Lemma created_coupon_validates_witness :
  ∃ cp db', create_coupon true Demo.env0 Demo.db0 Demo.admin demo_coupon
            = (coupon_created cp, 201, db')
    ∧ validate_coupon Demo.env0 db' Demo.customer demo_ask
      = (coupon_valid (Py.Float 30) cp, 200, db').
Proof.
  destruct (create_coupon true Demo.env0 Demo.db0 Demo.admin demo_coupon)
    as [[body status] db'] eqn:E.
  assert (∃ cp, body = coupon_created cp ∧ status = 201
                ∧ cp = demo_coupon_doc) as (cp & -> & -> & Hcp).
  { vm_compute in E. injection E as <- <- _. eexists. split; [done|].
    split; [done|]. vm_compute. reflexivity. }
  exists cp, db'. split; [done|].
  assert (Hmin : ∀ m, minOrderAmount cp = Some m
                      → Py.gt m (vc_amount demo_ask) = false).
  { intros m Hm. subst cp. vm_compute in Hm. injection Hm as <-.
    vm_compute. reflexivity. }
  rewrite (created_coupon_validates true Demo.env0 Demo.db0 Demo.admin
             demo_coupon cp db' Demo.env0 Demo.customer demo_ask E
             eq_refl eq_refl (or_introl eq_refl)
             ltac:(discriminate) eq_refl eq_refl eq_refl eq_refl eq_refl eq_refl
             (Z.le_refl _) Hmin).
  subst cp. vm_compute. reflexivity.
Defined.

(** ** Couriers signing up: [register_as_delivery] *)

Lemma find_delivery_person_Some uid db id d :
  find_delivery_person uid db = Some (id, d) →
  delivery_persons_collection db !! id = Some d ∧ dp_userId d = uid.
Proof.
  unfold find_delivery_person. intros H%head_Some_elem_of.
  apply list_elem_of_filter in H as [Hu H]. by apply elem_of_map_to_list in H.
Qed.

Lemma find_delivery_person_None uid db :
  find_delivery_person uid db = None ↔
  ∀ id d, delivery_persons_collection db !! id = Some d → dp_userId d ≠ uid.
Proof.
  unfold find_delivery_person. rewrite head_None. split.
  - intros Hnil id d Hd Hu.
    assert (Hin : (id, d) ∈ filter (λ kv : oid * delivery_person, dp_userId kv.2 = uid)
                    (map_to_list (delivery_persons_collection db))).
    { apply list_elem_of_filter. split; [done|]. by apply elem_of_map_to_list. }
    rewrite Hnil in Hin. by apply elem_of_nil in Hin.
  - intros H.
    destruct (filter _ _) as [|[id d] l] eqn:E; [done|]. exfalso.
    assert (Hin : (id, d) ∈ filter (λ kv : oid * delivery_person, dp_userId kv.2 = uid)
                    (map_to_list (delivery_persons_collection db)))
      by (rewrite E; left).
    apply list_elem_of_filter in Hin as [Hu Hin].
    apply elem_of_map_to_list in Hin. by eapply H.
Qed.

Lemma find_delivery_person_unique db id d :
  one_profile db →
  delivery_persons_collection db !! id = Some d →
  find_delivery_person (dp_userId d) db = Some (id, d).
Proof.
  intros Hone Hd.
  destruct (find_delivery_person (dp_userId d) db) as [[id' d']|] eqn:E.
  - apply find_delivery_person_Some in E as [Hd' Hu].
    assert (id' = id) as -> by (by eapply Hone).
    congruence.
  - exfalso. rewrite find_delivery_person_None in E. by eapply E.
Qed.

Lemma register_as_delivery_created e db uid data v :
  find_delivery_person uid db = None →
  rd_vehicleType data = Some v →
  delivery_persons_collection db !! inserted_id e = None →
  let dp := {| dp_userId := uid; isAvailable := false; isOnline := false |} in
  register_as_delivery e db uid data
  = (delivery_person_created (inserted_id e) dp, 201,
     with_users (alter (λ _, {| role := "delivery" |}) uid (users_collection db))
       (with_delivery_persons
          (<[inserted_id e := dp]> (delivery_persons_collection db)) db)).
Proof.
  intros Hnone Hv Hfree. unfold register_as_delivery.
  by rewrite Hnone, Hv, Hfree.
Qed.

(** X10.  Signing up is all it takes to deliver: a user of any role who
    registers as a delivery person (no document yet, a vehicle type in
    the request) is answered 201, has the role [delivery] from then on,
    and can accept an order no courier holds right away, although the
    fresh document is neither available nor online. *)
Theorem register_then_accept e db uid data v u e' k o :
  users_collection db !! uid = Some u →
  find_delivery_person uid db = None →
  rd_vehicleType data = Some v →
  delivery_persons_collection db !! inserted_id e = None →
  orders_collection db !! k = Some o →
  deliveryPersonId o = None →
  let '(body, code, db') := register_as_delivery e db uid data in
  body = delivery_person_created (inserted_id e)
           {| dp_userId := uid; isAvailable := false; isOnline := false |}
  ∧ code = 201
  ∧ users_collection db' !! uid = Some {| role := "delivery" |}
  ∧ accept_delivery_order e' db' uid k
    = (message "Pedido aceptado exitosamente", 200,
       update_order k (set_accepted uid (utcnow e')) db').
Proof.
  intros Hu Hnone Hv Hfree Ho Hc.
  rewrite (register_as_delivery_created e db uid data v) by done.
  split; [done|]. split; [done|].
  assert (Hrole : users_collection
            (with_users (alter (λ _, {| role := "delivery" |}) uid (users_collection db))
               (with_delivery_persons
                  (<[inserted_id e := {| dp_userId := uid; isAvailable := false;
                                         isOnline := false |}]>
                     (delivery_persons_collection db)) db)) !! uid
          = Some {| role := "delivery" |}).
  { cbn. by rewrite lookup_alter_eq, Hu. }
  split; [done|].
  unfold accept_delivery_order. rewrite role_required_pass.
  - unfold accept_delivery_order_f. cbn [orders_collection with_users with_delivery_persons].
    by rewrite Ho, Hc.
  - eexists. split; [exact Hrole|]. apply list_elem_of_here.
Qed.

Lemma register_then_accept_witness :
  (register_as_delivery demo_signup_env Demo.db1 Demo.customer demo_signup).1.2 = 201
  ∧ (accept_delivery_order Demo.env0
       (register_as_delivery demo_signup_env Demo.db1 Demo.customer demo_signup).2
       Demo.customer Demo.order_id).1
    = (message "Pedido aceptado exitosamente", 200).
Proof.
  destruct demo_placed as [o|] eqn:Ho; [|vm_compute in Ho; discriminate].
  pose proof (register_then_accept demo_signup_env Demo.db1 Demo.customer
                demo_signup "moto" {| role := "customer" |} Demo.env0
                Demo.order_id o) as H.
  destruct (register_as_delivery demo_signup_env Demo.db1 Demo.customer demo_signup)
    as [[body code] db'].
  cbn [fst snd]. destruct H as (_ & -> & _ & ->).
  - vm_compute. reflexivity.
  - vm_compute. reflexivity.
  - reflexivity.
  - vm_compute. reflexivity.
  - rewrite <- Ho. vm_compute. reflexivity.
  - vm_compute in Ho. by injection Ho as <-.
  - done.
Defined.

Lemma register_as_delivery_inv e db uid data id dp db' :
  register_as_delivery e db uid data = (delivery_person_created id dp, 201, db') →
  find_delivery_person uid db = None
  ∧ delivery_persons_collection db !! inserted_id e = None
  ∧ id = inserted_id e
  ∧ dp = {| dp_userId := uid; isAvailable := false; isOnline := false |}
  ∧ db' = with_users
            (alter (λ _, {| role := "delivery" |}) uid (users_collection db))
            (with_delivery_persons
               (<[inserted_id e := dp]> (delivery_persons_collection db)) db).
Proof.
  unfold register_as_delivery.
  destruct (find_delivery_person uid db); [discriminate|].
  destruct (required _ _); [|discriminate].
  destruct (delivery_persons_collection db !! inserted_id e); [discriminate|].
  intros [= <- <- <-]. done.
Qed.

(** X11.  Signing up replaces the role: a user who registers as a
    delivery person is from then on refused, with 403, by every
    decorated route that does not admit the role [delivery], whatever
    role they had before; an admin loses the admin routes. *)
Theorem register_replaces_role e db uid data u db' id dp roles f :
  users_collection db !! uid = Some u →
  register_as_delivery e db uid data
  = (delivery_person_created id dp, 201, db') →
  "delivery"%string ∉ roles →
  users_collection db' !! uid = Some {| role := "delivery" |}
  ∧ role_required roles db' uid f = (message "Acceso denegado", 403, db').
Proof.
  intros Hu (_ & _ & _ & _ & ->)%register_as_delivery_inv Hroles.
  assert (Hrole : ∀ dps, users_collection
            (with_users (alter (λ _, {| role := "delivery" |}) uid (users_collection db))
               (with_delivery_persons dps db)) !! uid
          = Some {| role := "delivery" |}).
  { intros dps. cbn. by rewrite lookup_alter_eq, Hu. }
  split; [apply Hrole|].
  unfold role_required. rewrite Hrole. cbn [role].
  by rewrite bool_decide_eq_false_2.
Qed.

Lemma register_replaces_role_witness :
  (assign_delivery_person Demo.env0
     (register_as_delivery demo_signup_env Demo.db1 Demo.admin demo_signup).2
     Demo.admin Demo.order_id (Some Demo.rider_doc)).1
  = (message "Acceso denegado", 403).
Proof.
  destruct (register_as_delivery demo_signup_env Demo.db1 Demo.admin demo_signup)
    as [[body code] db'] eqn:E.
  assert (∃ id dp, body = delivery_person_created id dp ∧ code = 201)
    as (id & dp & -> & ->).
  { vm_compute in E. injection E as <- <- _. by eauto. }
  unfold assign_delivery_person. cbn [snd].
  destruct (register_replaces_role demo_signup_env Demo.db1 Demo.admin demo_signup
              {| role := "admin" |} db' id dp ["admin"; "restaurant_owner"]%string
              (assign_delivery_person_f Demo.env0 db' Demo.order_id
                 (Some Demo.rider_doc))) as [_ ->].
  - vm_compute. reflexivity.
  - exact E.
  - intros Hin.
    repeat (apply elem_of_cons in Hin as [Hin|Hin]; [discriminate|]).
    by apply elem_of_nil in Hin.
  - reflexivity.
Defined.

(** ** One document per courier, and its availability *)

Lemma one_profile_alter db f id :
  (∀ d, dp_userId (f d) = dp_userId d) →
  one_profile db →
  one_profile (with_delivery_persons
                 (alter f id (delivery_persons_collection db)) db).
Proof.
  intros Hf Hone id1 id2 d1 d2. cbn [delivery_persons_collection with_delivery_persons].
  intros H1 H2 Hu.
  pose proof (lookup_alter_proj dp_userId f (delivery_persons_collection db) id id1 Hf) as P1.
  pose proof (lookup_alter_proj dp_userId f (delivery_persons_collection db) id id2 Hf) as P2.
  rewrite H1 in P1. rewrite H2 in P2. cbn in P1, P2.
  destruct (delivery_persons_collection db !! id1) as [d1'|] eqn:E1; [|discriminate].
  destruct (delivery_persons_collection db !! id2) as [d2'|] eqn:E2; [|discriminate].
  cbn in P1, P2. eapply Hone; [exact E1|exact E2|congruence].
Qed.

Lemma one_profile_users db us :
  one_profile db → one_profile (with_users us db).
Proof. intros H. exact H. Qed.

Lemma one_profile_role_required roles db uid (f : response * store) :
  one_profile db → one_profile f.2 → one_profile (role_required roles db uid f).2.
Proof.
  intros Hdb Hf.
  by destruct (role_required_cases roles db uid f) as [[_ ->]|[_ ->]].
Qed.

(** X12.  No user ever gets a second delivery-person document: a store
    with one document per user at most is left so by
    [register_as_delivery], [update_delivery_status] and
    [assign_delivery_person], and registering again after a successful
    registration is answered 400 and changes nothing. *)
Theorem one_profile_kept e db uid :
  one_profile db →
  (∀ data, one_profile (register_as_delivery e db uid data).2)
  ∧ (∀ data, one_profile (update_delivery_status db uid data).2)
  ∧ (∀ id dp, one_profile (assign_delivery_person e db uid id dp).2)
  ∧ (∀ data id dp db' e' data',
       register_as_delivery e db uid data
       = (delivery_person_created id dp, 201, db') →
       register_as_delivery e' db' uid data'
       = (delivery_message "Ya estás registrado como repartidor", 400, db')).
Proof.
  intros Hone. split; [|split; [|split]].
  - intros data. unfold register_as_delivery.
    destruct (find_delivery_person uid db) eqn:Hfind; [done|].
    destruct (required _ _); [|done].
    destruct (delivery_persons_collection db !! inserted_id e) eqn:Hfree; [done|].
    cbn [snd]. apply one_profile_users.
    intros id1 id2 d1 d2. cbn [delivery_persons_collection with_delivery_persons].
    rewrite find_delivery_person_None in Hfind.
    rewrite !lookup_insert. repeat case_decide; subst.
    + done.
    + intros [= <-] H2 Hu. cbn in Hu. exfalso. by eapply Hfind.
    + intros H1 [= <-] Hu. cbn in Hu. exfalso. by eapply Hfind.
    + apply Hone.
  - intros data. unfold update_delivery_status.
    apply one_profile_role_required; [done|].
    unfold update_delivery_status_f.
    destruct (find_delivery_person uid db) as [[id d]|]; [|done]. cbn [snd].
    destruct (_ || _); [|done]. by apply one_profile_alter.
  - intros id dp. unfold assign_delivery_person.
    apply one_profile_role_required; [done|].
    unfold assign_delivery_person_f. destruct dp as [dp|]; [|done].
    destruct (delivery_persons_collection db !! dp) as [d|]; [|done].
    destruct (_ && _); [|done]. cbn [snd].
    apply (one_profile_alter (update_order id (set_assigned dp (utcnow e)) db));
      done.
  - intros data id dp db' e' data' (_ & Hfree & -> & -> & ->)%register_as_delivery_inv.
    unfold register_as_delivery at 1.
    destruct (find_delivery_person uid _) as [kv|] eqn:Hfind; [done|].
    exfalso. rewrite find_delivery_person_None in Hfind.
    apply (Hfind (inserted_id e)
             {| dp_userId := uid; isAvailable := false; isOnline := false |});
      [|reflexivity].
    cbn. by rewrite lookup_insert_eq.
Qed.

Lemma one_profile_demo : one_profile Demo.db1.
Proof.
  intros id1 id2 d1 d2 H1 H2 _.
  change (delivery_persons_collection Demo.db1)
    with ({[ Demo.rider_doc := {| dp_userId := Demo.courier_b; isAvailable := true;
                                  isOnline := true |} ]} : gmap oid delivery_person)
    in H1, H2.
  apply lookup_singleton_Some in H1 as [<- _].
  by apply lookup_singleton_Some in H2 as [<- _].
Qed.

Lemma one_profile_kept_witness :
  one_profile (register_as_delivery demo_signup_env Demo.db1 Demo.customer
                 demo_signup).2.
Proof.
  apply (proj1 (one_profile_kept demo_signup_env Demo.db1 Demo.customer
                  one_profile_demo)).
Defined.

Lemma assign_delivery_person_f_inv e db k d db' :
  assign_delivery_person_f e db k (Some d)
  = (message "Repartidor asignado exitosamente", 200, db') →
  ∃ dp, delivery_persons_collection db !! d = Some dp
    ∧ isAvailable dp = true ∧ isOnline dp = true
    ∧ db' = with_delivery_persons
              (alter set_unavailable d (delivery_persons_collection db))
              (update_order k (set_assigned d (utcnow e)) db).
Proof.
  unfold assign_delivery_person_f.
  destruct (delivery_persons_collection db !! d) as [dp|]; [|discriminate].
  destruct (isAvailable dp && isOnline dp) eqn:E; [|discriminate].
  apply andb_true_iff in E as [? ?]. intros [= <-]. by exists dp.
Qed.

(** X13.  A delivery person is assigned one order at a time: once
    [assign_delivery_person] has answered 200 the document is marked
    unavailable, so every further assignment of that delivery person is
    answered 404 and changes nothing, until the courier sets
    [isAvailable] again through [update_delivery_status], after which an
    assignment succeeds. *)
Theorem assign_makes_unavailable e db uid k d db' e' uid' k' :
  one_profile db →
  assign_delivery_person e db uid k (Some d)
  = (message "Repartidor asignado exitosamente", 200, db') →
  has_role ["admin"; "restaurant_owner"]%string db uid' →
  assign_delivery_person e' db' uid' k' (Some d)
  = (message "Repartidor no disponible", 404, db')
  ∧ ∀ dp, delivery_persons_collection db !! d = Some dp →
      has_role ["delivery"%string] db (dp_userId dp) →
      let db'' := (update_delivery_status db' (dp_userId dp)
                     {| ds_isAvailable := Some true; ds_isOnline := None |}).2 in
      (assign_delivery_person e' db'' uid' k' (Some d)).1
      = (message "Repartidor asignado exitosamente", 200).
Proof.
  intros Hone Hassign Hrole.
  unfold assign_delivery_person in Hassign.
  destruct (role_required_cases ["admin"; "restaurant_owner"]%string db uid
              (assign_delivery_person_f e db k (Some d))) as [[_ Hrr]|[_ Hrr]];
    rewrite Hrr in Hassign; [|discriminate]. clear Hrr.
  apply assign_delivery_person_f_inv in Hassign as (dp & Hdp & Hav & Hon & ->).
  set (db' := with_delivery_persons _ _).
  assert (Hd' : delivery_persons_collection db' !! d = Some (set_unavailable dp)).
  { unfold db'. cbn. by rewrite lookup_alter_eq, Hdp. }
  assert (Hrole' : has_role ["admin"; "restaurant_owner"]%string db' uid') by exact Hrole.
  split.
  - unfold assign_delivery_person. rewrite role_required_pass by done.
    unfold assign_delivery_person_f. by rewrite Hd'.
  - intros dp0 Hdp0 Hcourier. rewrite Hdp in Hdp0. injection Hdp0 as <-.
    assert (Hone' : one_profile db').
    { unfold db'.
      apply (one_profile_alter (update_order k (set_assigned d (utcnow e)) db));
        done. }
    pose proof (find_delivery_person_unique db' d _ Hone' Hd') as Hfind.
    cbn [dp_userId set_unavailable] in Hfind.
    unfold update_delivery_status. rewrite role_required_pass by exact Hcourier.
    unfold update_delivery_status_f. rewrite Hfind. cbn [snd].
    rewrite bool_decide_eq_true_2 by (by eexists). cbn [orb].
    unfold assign_delivery_person. rewrite role_required_pass by exact Hrole.
    unfold assign_delivery_person_f.
    cbn [delivery_persons_collection with_delivery_persons].
    rewrite lookup_alter_eq, Hd'. cbn. by rewrite Hon.
Qed.

Lemma assign_makes_unavailable_witness :
  let db' := (assign_delivery_person Demo.env0 Demo.db1 Demo.admin Demo.order_id
                (Some Demo.rider_doc)).2 in
  assign_delivery_person Demo.env0 db' Demo.admin Demo.order_id (Some Demo.rider_doc)
  = (message "Repartidor no disponible", 404, db').
Proof.
  intros db'.
  apply (assign_makes_unavailable Demo.env0 Demo.db1 Demo.admin Demo.order_id
           Demo.rider_doc db' Demo.env0 Demo.admin Demo.order_id).
  - exact one_profile_demo.
  - vm_compute. reflexivity.
  - exists {| role := "admin" |}. split; [reflexivity|]. apply list_elem_of_here.
Defined.

(** ** Removing users: [delete_user_admin] *)

Lemma count_admins_pos db a u :
  users_collection db !! a = Some u → role u = "admin"%string →
  (1 ≤ count_admins db)%nat.
Proof.
  intros Ha Hr. unfold count_admins.
  assert (size (filter (λ kv : oid * user, role kv.2 = "admin"%string)
                  (users_collection db)) ≠ 0%nat); [|lia].
  apply map_size_ne_0_lookup. exists a. exists u.
  by apply map_lookup_filter_Some.
Qed.

(** X14.  [delete_user_admin] never removes the last administrator:
    when it answers 200 the user named is gone, every other user is as
    before, and at least one user with the role [admin] is left; with
    any other answer the store is unchanged. *)
Theorem delete_user_admin_keeps_an_admin db uid user_id resp db' :
  delete_user_admin db uid user_id = (resp, db') →
  (resp.2 = 200 →
     db' = with_users (delete user_id (users_collection db)) db
     ∧ (1 ≤ count_admins db')%nat)
  ∧ (resp.2 ≠ 200 → db' = db).
Proof.
  unfold delete_user_admin.
  destruct (role_required_cases ["admin"]%string db uid
              (delete_user_admin_f db user_id)) as [[Hr ->]|[_ ->]];
    [|intros [= <- <-]; split; [discriminate|done]].
  destruct Hr as (a & Ha & Hrole). apply list_elem_of_singleton in Hrole.
  pose proof (count_admins_pos db uid a Ha Hrole) as Hpos.
  unfold delete_user_admin_f.
  destruct (users_collection db !! user_id) as [u|] eqn:Hu;
    [|intros [= <- <-]; split; [discriminate|done]].
  destruct (String.eqb (role u) "admin" && (count_admins db <=? 1)%nat) eqn:E;
    intros [= <- <-]; (split; [|done]); [discriminate|].
  intros _. split; [done|].
  unfold count_admins in *. cbn [users_collection with_users].
  rewrite map_filter_delete.
  destruct (String.eqb (role u) "admin") eqn:Hadm.
  - cbn in E. apply Nat.leb_gt in E. apply String.eqb_eq in Hadm.
    rewrite map_size_delete_Some; [lia|].
    exists u. by apply map_lookup_filter_Some.
  - apply String.eqb_neq in Hadm.
    rewrite map_size_delete_None; [done|].
    apply eq_None_not_Some. intros [u' [Hu' Hp]%map_lookup_filter_Some].
    cbn in Hp. congruence.
Qed.

Lemma delete_user_admin_keeps_an_admin_witness :
  (1 ≤ count_admins (delete_user_admin Demo.db0 Demo.admin Demo.stranger).2)%nat.
Proof.
  destruct (delete_user_admin Demo.db0 Demo.admin Demo.stranger)
    as [resp db'] eqn:E.
  apply (delete_user_admin_keeps_an_admin Demo.db0 Demo.admin Demo.stranger
           resp db' E).
  vm_compute in E. by injection E as <- _.
Defined.

(** The only administrator cannot remove their own account. *)
Example delete_last_admin :
  delete_user_admin Demo.db0 Demo.admin Demo.admin
  = (message "No se puede eliminar el último administrador", 400, Demo.db0).
Proof. vm_compute. reflexivity. Qed.

(** ** Addresses and their default flag *)

Lemma lookup_unset_default_where query (m : gmap oid address_doc) id :
  unset_default_where query m !! id
  = (λ a, if query id a then unset_default a else a) <$> m !! id.
Proof.
  unfold unset_default_where. rewrite map_lookup_imap.
  by destruct (m !! id).
Qed.

Lemma lookup_unset_default_where_Some query (m : gmap oid address_doc) id a' :
  unset_default_where query m !! id = Some a' →
  ∃ a, m !! id = Some a
    ∧ ad_userId a' = ad_userId a
    ∧ (query id a = true → ad_isDefault a' = Some false)
    ∧ (query id a = false → a' = a).
Proof.
  rewrite lookup_unset_default_where.
  destruct (m !! id) as [a|]; [|discriminate]. cbn. intros [= <-].
  exists a. split; [done|]. destruct (query id a); cbn; repeat split; done.
Qed.

Lemma default_unique_unset query m :
  default_unique m → default_unique (unset_default_where query m).
Proof.
  intros Hu id1 id2 a1 a2 H1 H2 Huser Hd1 Hd2.
  apply lookup_unset_default_where_Some in H1 as (b1 & Hb1 & Hu1 & Hq1 & Hn1).
  apply lookup_unset_default_where_Some in H2 as (b2 & Hb2 & Hu2 & Hq2 & Hn2).
  destruct (query id1 b1); [rewrite Hq1 in Hd1 by done; discriminate|].
  destruct (query id2 b2); [rewrite Hq2 in Hd2 by done; discriminate|].
  rewrite Hn1 in * by done. rewrite Hn2 in * by done.
  by eapply Hu.
Qed.

Lemma new_address_inv e uid data a :
  new_address e uid data = Ok a →
  ad_userId a = uid ∧ ad_isDefault a = Some (default false (ar_isDefault data)).
Proof.
  unfold new_address. intros H.
  apply bind_Ok in H as (? & _ & H). apply bind_Ok in H as (? & _ & H).
  apply bind_Ok in H as (? & _ & H). apply bind_Ok in H as (? & _ & H).
  by injection H as <-.
Qed.

(** X15.  One default address per user at most: a collection in which no
    user has two addresses flagged [isDefault] is left so by
    [create_address], [update_address] and [delete_address], whatever
    they answer. *)
Theorem default_unique_kept e m uid r :
  default_unique m → default_unique (handle_address e m uid r).2.
Proof.
  intros Hu. destruct r as [data|id data|listing id]; cbn [handle_address].
  - unfold create_address. cbn zeta.
    destruct (default false (ar_isDefault data)) eqn:Hdef.
    + set (m1 := unset_default_where _ m).
      assert (Hu1 : default_unique m1) by (by apply default_unique_unset).
      destruct (new_address e uid data) as [a|ex] eqn:Hnew; [|done].
      destruct (m1 !! inserted_id e) eqn:Hfree; [done|]. cbn [snd].
      apply new_address_inv in Hnew as [Ha _].
      intros id1 id2 a1 a2. rewrite !lookup_insert.
      repeat case_decide; subst.
      * done.
      * intros [= <-] H2 Huser _ Hd2. exfalso.
        apply lookup_unset_default_where_Some in H2 as (b & _ & Hub & Hq & _).
        rewrite Hq in Hd2; [discriminate|].
        apply bool_decide_eq_true_2. congruence.
      * intros H1 [= <-] Huser Hd1 _. exfalso.
        apply lookup_unset_default_where_Some in H1 as (b & _ & Hub & Hq & _).
        rewrite Hq in Hd1; [discriminate|].
        apply bool_decide_eq_true_2. congruence.
      * apply Hu1.
    + destruct (new_address e uid data) as [a|ex] eqn:Hnew; [|done].
      destruct (m !! inserted_id e) eqn:Hfree; [done|]. cbn [snd].
      apply new_address_inv in Hnew as [_ Hd]. rewrite Hdef in Hd.
      intros id1 id2 a1 a2. rewrite !lookup_insert.
      repeat case_decide; subst.
      * done.
      * intros [= <-] _ _ Hd1. congruence.
      * intros _ [= <-] _ _ Hd2. congruence.
      * apply Hu.
  - unfold update_address.
    destruct (m !! id) as [address|] eqn:Haddr; [|done].
    destruct (bool_decide (ad_userId address = uid)) eqn:Hown; [|done].
    apply bool_decide_eq_true_1 in Hown. cbn zeta. cbn [snd].
    destruct (default false (ar_isDefault data)) eqn:Hdef.
    + set (q := λ (id0 : oid) (a : address_doc),
                  bool_decide (ad_userId a = uid) && negb (bool_decide (id0 = id))).
      intros id1 id2 a1 a2. rewrite !lookup_alter.
      assert (Hother : ∀ k a', k ≠ id → unset_default_where q m !! k = Some a' →
                ad_userId a' = uid → ad_isDefault a' = Some true → False).
      { intros k a' Hk Hl Hua Hda.
        apply lookup_unset_default_where_Some in Hl as (b & _ & Hub & Hq & _).
        rewrite Hq in Hda; [discriminate|]. unfold q.
        rewrite bool_decide_eq_true_2 by congruence.
        by rewrite bool_decide_eq_false_2. }
      assert (Hself : ∀ a', set_address data address (utcnow e)
                              <$> unset_default_where q m !! id = Some a' →
                ad_userId a' = uid).
      { intros a' Hl. rewrite lookup_unset_default_where, Haddr in Hl. cbn in Hl.
        destruct (q id address); cbn in Hl; by injection Hl as <-. }
      repeat case_decide; subst.
      * done.
      * intros H1 H2 Huser _ Hd2. exfalso.
        apply Hself in H1. eapply Hother; [|exact H2| |]; [done|congruence|done].
      * intros H1 H2 Huser Hd1 _. exfalso.
        apply Hself in H2. eapply Hother; [|exact H1| |]; [done|congruence|done].
      * apply (default_unique_unset q m Hu).
    + intros id1 id2 a1 a2. rewrite !lookup_alter.
      assert (Hkeep : ∀ a', set_address data address (utcnow e) <$> m !! id = Some a' →
                ad_isDefault a' = Some true →
                ad_userId a' = ad_userId address ∧ ad_isDefault address = Some true).
      { intros a' Hl Hd. rewrite Haddr in Hl. cbn in Hl. injection Hl as <-.
        cbn in *. split; [done|].
        destruct (ar_isDefault data) as [[]|]; cbn in *; congruence. }
      repeat case_decide; subst.
      * done.
      * intros H1 H2 Huser Hd1 Hd2.
        destruct (Hkeep _ H1 Hd1) as [Hu1 Hda].
        eapply Hu; [exact Haddr|exact H2| |done|done]. congruence.
      * intros H1 H2 Huser Hd1 Hd2.
        destruct (Hkeep _ H2 Hd2) as [Hu2 Hda].
        eapply Hu; [exact H1|exact Haddr| |done|done]. congruence.
      * apply Hu.
  - unfold delete_address.
    destruct (m !! id) as [address|] eqn:Haddr; [|done].
    destruct (bool_decide _); [|done]. cbn [snd].
    intros id1 id2 a1 a2 H1%lookup_delete_Some H2%lookup_delete_Some.
    destruct H1 as [_ H1]. destruct H2 as [_ H2]. by eapply Hu.
Qed.

Lemma default_unique_demo : default_unique demo_addresses.
Proof.
  intros id1 id2 a1 a2 H1 H2 _ Hd1 Hd2. unfold demo_addresses in *.
  apply lookup_insert_Some in H1 as [[<- <-]|[? H1]];
    apply lookup_insert_Some in H2 as [[<- <-]|[? H2]]; try done.
  - apply lookup_insert_Some in H2 as [[<- <-]|[? H2]]; [discriminate|].
    by rewrite lookup_empty in H2.
  - apply lookup_insert_Some in H1 as [[<- <-]|[? H1]]; [discriminate|].
    by rewrite lookup_empty in H1.
  - apply lookup_insert_Some in H1 as [[<- <-]|[? H1]]; [discriminate|].
    by rewrite lookup_empty in H1.
Qed.

Lemma default_unique_kept_witness :
  default_unique
    (handle_address demo_address_env demo_addresses Demo.customer
       (CreateAddress (demo_new_address (Some "Blvd. Kukulcan"%string)))).2.
Proof.
  apply (default_unique_kept demo_address_env demo_addresses Demo.customer
           (CreateAddress (demo_new_address (Some "Blvd. Kukulcan"%string)))
           default_unique_demo).
Defined.

(** X16.  The default flag moves: when [create_address] or
    [update_address] succeeds on a request with [isDefault] true, the
    address created or updated is the caller's default and no other
    address of the caller is, whatever the collection held before. *)
Theorem default_flag_moves e m uid data :
  ar_isDefault data = Some true →
  (∀ id a m', create_address e m uid data = (address_created id a, 201, m') →
     only_default m' uid id)
  ∧ (∀ id body m', update_address e m uid id data = (body, 200, m') →
       only_default m' uid id).
Proof.
  intros Hdef. split.
  - intros id a m'. unfold create_address. rewrite Hdef. cbn zeta.
    change (default false (Some true)) with true. cbn iota.
    set (m1 := unset_default_where _ m).
    destruct (new_address e uid data) as [a0|ex] eqn:Hnew; [|discriminate].
    destruct (m1 !! inserted_id e) eqn:Hfree; [discriminate|].
    intros [= <- <- <-]. apply new_address_inv in Hnew as [Hu Hd].
    rewrite Hdef in Hd. split.
    + exists a0. by rewrite lookup_insert_eq.
    + intros id' a'. rewrite lookup_insert. case_decide; [done|].
      intros Hl Hua Hda. exfalso.
      apply lookup_unset_default_where_Some in Hl as (b & _ & Hub & Hq & _).
      rewrite Hq in Hda; [discriminate|].
      apply bool_decide_eq_true_2. congruence.
  - intros id body m'. unfold update_address.
    destruct (m !! id) as [address|] eqn:Haddr; [|discriminate].
    destruct (bool_decide (ad_userId address = uid)) eqn:Hown; [|discriminate].
    apply bool_decide_eq_true_1 in Hown. rewrite Hdef. cbn zeta.
    change (default false (Some true)) with true. cbn iota.
    set (q := λ (id0 : oid) (a : address_doc),
                bool_decide (ad_userId a = uid) && negb (bool_decide (id0 = id))).
    intros [= <- <-]. split.
    + rewrite lookup_alter_eq, lookup_unset_default_where, Haddr. cbn.
      eexists. split; [reflexivity|].
      destruct (q id address); cbn; rewrite Hdef; done.
    + intros id' a'. rewrite lookup_alter. case_decide; [done|].
      intros Hl Hua Hda. exfalso.
      apply lookup_unset_default_where_Some in Hl as (b & _ & Hub & Hq & _).
      rewrite Hq in Hda; [discriminate|]. unfold q.
      rewrite bool_decide_eq_true_2 by congruence.
      by rewrite bool_decide_eq_false_2.
Qed.

Lemma default_flag_moves_witness :
  only_default
    (update_address demo_address_env demo_addresses Demo.customer 31%N
       (demo_new_address None)).2
    Demo.customer 31%N.
Proof.
  destruct (update_address demo_address_env demo_addresses Demo.customer 31%N
              (demo_new_address None)) as [[body code] m'] eqn:E.
  assert (code = 200) as -> by (vm_compute in E; by injection E as _ <- _).
  apply (proj2 (default_flag_moves demo_address_env demo_addresses Demo.customer
                  (demo_new_address None) eq_refl) 31%N body m' E).
Defined.

(** X17.  Addresses are private to their user: whatever a user asks of
    [create_address], [update_address] or [delete_address], the
    documents of every other user are exactly the ones that were there,
    none changed, removed or added. *)
Theorem addresses_of_others_untouched e m uid r id a :
  ad_userId a ≠ uid →
  (handle_address e m uid r).2 !! id = Some a ↔ m !! id = Some a.
Proof.
  intros Hother.
  assert (Hunset : ∀ q, (∀ k b, q k b = true → ad_userId b = uid) →
            unset_default_where q m !! id = Some a ↔ m !! id = Some a).
  { intros q Hq. rewrite lookup_unset_default_where.
    destruct (m !! id) as [b|]; cbn; [|done].
    destruct (q id b) eqn:E; [|done].
    apply Hq in E. split; intros [= Hb]; exfalso; apply Hother.
    - by rewrite <- Hb.
    - by rewrite <- Hb. }
  destruct r as [data|id0 data|listing id0]; cbn [handle_address].
  - unfold create_address. cbn zeta.
    set (m1 := if default false (ar_isDefault data) then _ else m).
    assert (H1 : m1 !! id = Some a ↔ m !! id = Some a).
    { unfold m1. destruct (default false _); [|done].
      apply Hunset. intros k b Hb. by apply bool_decide_eq_true_1 in Hb. }
    destruct (new_address e uid data) as [a0|ex] eqn:Hnew; [|done].
    destruct (m1 !! inserted_id e) eqn:Hfree; [done|]. cbn [snd].
    apply new_address_inv in Hnew as [Hu _].
    rewrite lookup_insert. case_decide; [|done]. subst id.
    split.
    + intros [= <-]. done.
    + intros Hm. apply H1 in Hm. congruence.
  - unfold update_address.
    destruct (m !! id0) as [address|] eqn:Haddr; [|done].
    destruct (bool_decide (ad_userId address = uid)) eqn:Hown; [|done].
    apply bool_decide_eq_true_1 in Hown. cbn zeta. cbn [snd].
    set (m1 := if default false (ar_isDefault data) then _ else m).
    assert (H1 : m1 !! id = Some a ↔ m !! id = Some a).
    { unfold m1. destruct (default false _); [|done].
      apply Hunset. intros k b [Hb _]%andb_true_iff.
      by apply bool_decide_eq_true_1 in Hb. }
    rewrite lookup_alter. case_decide; [|done]. subst id0.
    split.
    + intros Hl. exfalso.
      destruct (m1 !! id) as [b|] eqn:Hb; [|discriminate]. cbn in Hl.
      injection Hl as <-. cbn in Hother.
      assert (Hub : ad_userId b = uid); [|done].
      unfold m1 in Hb. destruct (default false _); [|congruence].
      apply lookup_unset_default_where_Some in Hb as (b0 & Hb0 & Hub & _).
      congruence.
    + intros Hm. congruence.
  - unfold delete_address.
    destruct (m !! id0) as [address|] eqn:Haddr; [|done].
    destruct (bool_decide (ad_userId address = uid)) eqn:Hown; [|done].
    apply bool_decide_eq_true_1 in Hown. cbn [snd].
    rewrite lookup_delete_Some. split; [by intros [_ ?]|].
    intros Hm. split; [|done]. intros ->. congruence.
Qed.

Lemma addresses_of_others_untouched_witness :
  (handle_address demo_address_env demo_addresses Demo.stranger
     (DeleteAddress (restaurants_listed, 200) 30%N)).2 !! 30%N
  = Some (demo_address "Casa" true).
Proof.
  apply (addresses_of_others_untouched demo_address_env demo_addresses
           Demo.stranger (DeleteAddress (restaurants_listed, 200) 30%N) 30%N
           (demo_address "Casa" true)).
  - discriminate.
  - reflexivity.
Defined.

(** X18.  [create_address] clears the caller's default before it reads
    the required fields: a request with [isDefault] true that lacks
    [street], [city], [state] or [zipCode] is answered 500, stores no
    address, and leaves the caller without any default address. *)
Theorem create_address_failed_clears_default e m uid data :
  ar_isDefault data = Some true →
  ar_street data = None ∨ ar_city data = None ∨ ar_state data = None
  ∨ ar_zipCode data = None →
  let '(body, code, m') := create_address e m uid data in
  code = 500
  ∧ (∃ key, body = address_error (KeyError key))
  ∧ dom m' = dom m
  ∧ ∀ id a, m' !! id = Some a → ad_userId a = uid → ad_isDefault a = Some false.
Proof.
  intros Hdef Hmiss. unfold create_address. rewrite Hdef. cbn zeta.
  change (default false (Some true)) with true. cbn iota.
  assert (∃ key, new_address e uid data = Raise (KeyError key)) as [key ->].
  { unfold new_address.
    destruct (ar_street data); [|by eexists]. cbn.
    destruct (ar_city data); [|by eexists]. cbn.
    destruct (ar_state data); [|by eexists]. cbn.
    destruct (ar_zipCode data); [|by eexists]. cbn.
    destruct Hmiss as [?|[?|[?|?]]]; discriminate. }
  split; [done|]. split; [by eexists|]. split.
  - apply set_eq. intros id. rewrite !elem_of_dom.
    rewrite lookup_unset_default_where. by rewrite fmap_is_Some.
  - intros id a Hl Hu.
    apply lookup_unset_default_where_Some in Hl as (b & _ & Hub & Hq & _).
    apply Hq. apply bool_decide_eq_true_2. congruence.
Qed.

Lemma create_address_failed_clears_default_witness :
  let '(body, code, m') :=
    create_address demo_address_env demo_addresses Demo.customer
      (demo_new_address None) in
  code = 500 ∧ ad_isDefault <$> m' !! 30%N = Some (Some false).
Proof.
  pose proof (create_address_failed_clears_default demo_address_env
                demo_addresses Demo.customer (demo_new_address None) eq_refl
                (or_introl eq_refl)) as H.
  destruct (create_address _ _ _ _) as [[body code] m'] eqn:E.
  destruct H as (-> & _ & _ & H). split; [done|].
  destruct (m' !! 30%N) as [a|] eqn:Ha.
  - cbn. f_equal. apply (H 30%N a Ha).
    vm_compute in E. injection E as _ <-. vm_compute in Ha. by injection Ha as <-.
  - exfalso. vm_compute in E. injection E as _ <-. vm_compute in Ha. discriminate.
Defined.

(** ** Read flags of notifications *)

Lemma count_unread_zero m uid :
  (∀ id d, m !! id = Some d → n_userId (nd_notification d) = uid →
           nd_isRead d = true) →
  count_unread m uid = 0%nat.
Proof.
  intros H. unfold count_unread. apply map_size_empty_iff, map_empty.
  intros id. apply eq_None_not_Some.
  intros [d [Hd [Hu Hr]]%map_lookup_filter_Some]. cbn in Hu, Hr.
  rewrite (H id d Hd Hu) in Hr. discriminate.
Qed.

Lemma count_unread_ext m m' uid :
  (∀ id, (∃ d, m' !! id = Some d ∧ n_userId (nd_notification d) = uid
               ∧ nd_isRead d = false)
         ↔ (∃ d, m !! id = Some d ∧ n_userId (nd_notification d) = uid
                 ∧ nd_isRead d = false)) →
  count_unread m' uid = count_unread m uid.
Proof.
  intros H. unfold count_unread.
  rewrite <- !size_dom. f_equal. apply set_eq. intros id.
  rewrite !elem_of_dom. unfold is_Some.
  setoid_rewrite map_lookup_filter_Some. cbn. split.
  - intros (d & Hd & Hu & Hr).
    destruct (proj1 (H id)) as (d' & ? & ? & ?); by eauto.
  - intros (d & Hd & Hu & Hr).
    destruct (proj2 (H id)) as (d' & ? & ? & ?); by eauto.
Qed.

(** X19.  After [mark_all_notifications_read] the caller has nothing
    unread: [get_notifications] reports [unread] 0 whatever filter it is
    called with.  The notifications of the other users, and the ones the
    caller had read already, are as they were. *)
Theorem mark_all_then_none_unread e m uid is_read :
  let m' := (mark_all_notifications_read e m uid).2 in
  (∃ l, get_notifications m' uid is_read
        = (notifications_found l (length l) 0, 200))
  ∧ (∀ id d, m !! id = Some d →
       n_userId (nd_notification d) ≠ uid ∨ nd_isRead d = true →
       m' !! id = Some d)
  ∧ (∀ uid', uid' ≠ uid → count_unread m' uid' = count_unread m uid')
  ∧ dom m' = dom m.
Proof.
  cbn zeta. unfold mark_all_notifications_read. cbn [snd].
  set (f := λ d : notification_doc,
              if bool_decide (n_userId (nd_notification d) = uid) && negb (nd_isRead d)
              then set_read (utcnow e) d else d).
  assert (Hkeep : ∀ d, n_userId (nd_notification (f d)) = n_userId (nd_notification d)).
  { intros d. unfold f. by destruct (_ && _). }
  split; [|split; [|split]].
  - eexists. unfold get_notifications. cbn zeta. do 2 f_equal.
    apply count_unread_zero. intros id d'. rewrite lookup_fmap.
    destruct (m !! id) as [d|]; [|discriminate]. cbn. intros [= <-] Hu.
    rewrite Hkeep in Hu. unfold f. rewrite bool_decide_eq_true_2 by done.
    by destruct (nd_isRead d) eqn:Hr.
  - intros id d Hd Hcase. rewrite lookup_fmap, Hd. cbn. f_equal. unfold f.
    destruct Hcase as [Hu| ->].
    + by rewrite bool_decide_eq_false_2.
    + by rewrite andb_false_r.
  - intros uid' Hne. apply count_unread_ext. intros id.
    rewrite lookup_fmap. destruct (m !! id) as [d|]; cbn;
      [|split; intros (d' & [=] & _)].
    assert (n_userId (nd_notification d) = uid' → f d = d) as Hsame.
    { intros Hu. unfold f. rewrite bool_decide_eq_false_2 by congruence. done. }
    split.
    + intros (d' & [= <-] & Hu & Hr). rewrite Hkeep in Hu.
      rewrite Hsame in Hr by done. eauto.
    + intros (d' & [= <-] & Hu & Hr). exists (f d).
      rewrite Hsame by done. eauto.
  - apply dom_fmap_L.
Qed.

Lemma alter_existing (m : gmap oid notification_doc) f id d :
  m !! id = Some d → alter f id m = <[id := f d]> m.
Proof.
  intros Hd. apply map_eq. intros k. rewrite lookup_alter, lookup_insert.
  case_decide; [subst k; by rewrite Hd|done].
Qed.

Lemma count_unread_set_read m uid now id d :
  m !! id = Some d →
  count_unread (alter (set_read now) id m) uid
  = if bool_decide (n_userId (nd_notification d) = uid) && negb (nd_isRead d)
    then Nat.pred (count_unread m uid) else count_unread m uid.
Proof.
  intros Hd. unfold count_unread. rewrite (alter_existing _ _ _ _ Hd).
  rewrite map_filter_insert_False by (cbn; intros [_ ?]; discriminate).
  rewrite map_filter_delete.
  destruct (bool_decide _ && negb _) eqn:E.
  - apply andb_true_iff in E as [Hu Hr]. apply bool_decide_eq_true_1 in Hu.
    apply negb_true_iff in Hr.
    apply map_size_delete_Some. exists d. by apply map_lookup_filter_Some.
  - apply map_size_delete_None. apply eq_None_not_Some.
    intros [d' [Hd' [Hu Hr]]%map_lookup_filter_Some]. cbn in Hu, Hr.
    rewrite Hd in Hd'. injection Hd' as <-.
    rewrite bool_decide_eq_true_2, Hr in E by done. discriminate.
Qed.

(** X20.  [mark_notification_read] touches the named notification only,
    and only for the user it belongs to: with 200 that notification is
    the caller's and is now read, with 404 the collection is as it was
    (so nobody marks the notification of somebody else); the caller's
    [unread] count goes down by exactly one when the notification was
    unread, and nobody else's count moves. *)
Theorem mark_notification_read_spec e m uid id :
  let '(body, code, m') := mark_notification_read e m uid id in
  (code = 200 ∨ code = 404)
  ∧ (code = 200 →
       ∃ d, m !! id = Some d ∧ n_userId (nd_notification d) = uid
            ∧ m' = alter (set_read (utcnow e)) id m)
  ∧ (code = 404 → m' = m)
  ∧ count_unread m' uid
    = match m !! id with
      | Some d =>
          if bool_decide (n_userId (nd_notification d) = uid) && negb (nd_isRead d)
          then Nat.pred (count_unread m uid) else count_unread m uid
      | None => count_unread m uid
      end
  ∧ ∀ uid', uid' ≠ uid → count_unread m' uid' = count_unread m uid'.
Proof.
  unfold mark_notification_read. cbn zeta.
  destruct (m !! id) as [d|] eqn:Hd.
  2:{ cbn. repeat split; auto; discriminate. }
  destruct (bool_decide (n_userId (nd_notification d) = uid)) eqn:Hu.
  2:{ cbn. repeat split; auto; discriminate. }
  apply bool_decide_eq_true_1 in Hu.
  destruct (nd_isRead d && bool_decide (nd_readAt d = Some (utcnow e))) eqn:E.
  - apply andb_true_iff in E as [Hr Ht]. apply bool_decide_eq_true_1 in Ht.
    assert (Hsame : alter (set_read (utcnow e)) id m = m).
    { rewrite (alter_existing _ _ _ _ Hd). apply insert_id.
      rewrite Hd. f_equal. clear Hd Hu. destruct d as [n r t].
      cbn in Hr, Ht. subst r t. reflexivity. }
    cbn. rewrite Hsame, Hr. cbn. repeat split; auto; discriminate.
  - cbn. split; [by left|]. split; [by eauto|]. split; [discriminate|]. split.
    + rewrite (count_unread_set_read _ _ _ _ _ Hd).
      by rewrite bool_decide_eq_true_2.
    + intros uid' Hne. rewrite (count_unread_set_read _ _ _ _ _ Hd).
      by rewrite bool_decide_eq_false_2 by congruence.
Qed.

(** The customer of [Demo] reads one notification, then the other one
    through [mark_all_notifications_read]; the stranger cannot mark the
    customer's. *)
Example notifications_demo :
  let m1 := (mark_notification_read Demo.env0 demo_notifications Demo.customer 50%N).2 in
  count_unread demo_notifications Demo.customer = 2%nat
  ∧ count_unread m1 Demo.customer = 1%nat
  ∧ count_unread (mark_all_notifications_read Demo.env0 m1 Demo.customer).2
      Demo.customer = 0%nat
  ∧ mark_notification_read Demo.env0 demo_notifications Demo.stranger 50%N
    = (notification_message "Notificación no encontrada", 404, demo_notifications)
  ∧ (mark_notification_read Demo.env0 m1 Demo.customer 50%N).1.2 = 404.
Proof. vm_compute. repeat split; reflexivity. Qed.

(** ** Pages of dishes *)

(** X21.  The paging figures of [get_dishes] agree with each other: for
    a [limit] of one or more and a [page] of one or more, with [limit]
    and [skip] below 2^63, [totalPages] is the number of pages of
    [limit] dishes that hold [total] dishes, and [hasMore] is true
    exactly on the pages before the last one.  A [limit] of 0 ends in
    the division by zero, and a [limit] or a [skip] of 2^63 or more in
    the overflow of the [find] command; the handler answers both with
    500. *)
Theorem get_dishes_paging_consistent page limit total :
  1 ≤ limit < 2 ^ 63 → 1 ≤ page → (page - 1) * limit < 2 ^ 63 → 0 ≤ total →
  (∃ p, get_dishes_paging page limit total = inr p
     ∧ pg_skip p = (page - 1) * limit
     ∧ total ≤ pg_totalPages p * limit < total + limit
     ∧ (pg_hasMore p = true ↔ page < pg_totalPages p))
  ∧ get_dishes_paging page 0 total = inl paging_ZeroDivisionError
  ∧ (∀ big, 2 ^ 63 ≤ big →
       get_dishes_paging page big total = inl paging_OverflowError
       ∧ get_dishes_paging (big + 1) limit total = inl paging_OverflowError).
Proof.
  intros Hl Hp Hs Ht. unfold get_dishes_paging, bson_num_ok. cbn zeta.
  split; [|split].
  - destruct ((page - 1) * limit <? 0) eqn:Es; [apply Z.ltb_lt in Es; nia|].
    rewrite (Z.abs_eq limit) by lia.
    replace (- 2 ^ 63 <=? (page - 1) * limit) with true
      by (symmetry; apply Z.leb_le; nia).
    replace ((page - 1) * limit <? 2 ^ 63) with true
      by (symmetry; apply Z.ltb_lt; lia).
    replace (- 2 ^ 63 <=? limit) with true by (symmetry; apply Z.leb_le; lia).
    replace (limit <? 2 ^ 63) with true by (symmetry; apply Z.ltb_lt; lia).
    cbn [andb negb].
    destruct (limit =? 0) eqn:E; [apply Z.eqb_eq in E; lia|].
    eexists. split; [reflexivity|]. cbn.
    pose proof (Z.div_mod (total + limit - 1) limit ltac:(lia)) as Hdm.
    pose proof (Z.mod_pos_bound (total + limit - 1) limit ltac:(lia)) as Hmod.
    set (q := (total + limit - 1) / limit) in *.
    set (r := (total + limit - 1) mod limit) in *.
    split; [done|]. split.
    + nia.
    + rewrite Z.ltb_lt. split; intros H; nia.
  - replace ((page - 1) * 0) with 0 by lia. reflexivity.
  - intros big Hbig. split.
    + destruct ((page - 1) * big <? 0) eqn:Es; [apply Z.ltb_lt in Es; nia|].
      rewrite (Z.abs_eq big) by lia.
      replace (big <? 2 ^ 63) with false by (symmetry; apply Z.ltb_ge; lia).
      by rewrite !andb_false_r.
    + destruct ((big + 1 - 1) * limit <? 0) eqn:Es; [apply Z.ltb_lt in Es; nia|].
      replace ((big + 1 - 1) * limit <? 2 ^ 63) with false
        by (symmetry; apply Z.ltb_ge; nia).
      by rewrite andb_false_r.
Qed.

Lemma get_dishes_paging_consistent_witness :
  ∃ p, get_dishes_paging 2 20 45 = inr p
    ∧ pg_totalPages p = 3 ∧ pg_hasMore p = true.
Proof.
  destruct (get_dishes_paging_consistent 2 20 45) as ((p & Hp & _) & _);
    [lia..|].
  exists p. split; [exact Hp|]. vm_compute in Hp. by injection Hp as <-.
Defined.

(** ** Accounts: [register] *)

(** X22.  [register] takes the role from the request: a visitor who
    sends a new e-mail address, a password, a name and a role is
    answered 201 and is stored with that very role, so that every
    decorated route that admits the role runs for them; with the role
    [admin] that includes [delete_user_admin]. *)
Theorem register_grants_requested_role e emails db data email r :
  rg_email data = Some email →
  missing (rg_email data) = false → missing (rg_password data) = false →
  missing (rg_name data) = false →
  rg_role data = Some r →
  (∀ id, emails !! id ≠ Some email) →
  users_collection db !! inserted_id e = None →
  let '(body, code, (emails', db')) := register e emails db data in
  body = registered (inserted_id e) email r
  ∧ code = 201
  ∧ users_collection db' !! inserted_id e = Some {| role := r |}
  ∧ (∀ roles f, r ∈ roles → role_required roles db' (inserted_id e) f = f)
  ∧ (r = "admin"%string →
       ∀ victim u, users_collection db !! victim = Some u →
         role u ≠ "admin"%string →
         (delete_user_admin db' (inserted_id e) victim).1.2 = 200).
Proof.
  intros Hemail He Hp Hn Hr Hnew Hfree. unfold register.
  rewrite He, Hp, Hn, Hemail, Hr, Hfree. cbn zeta.
  change (default "" (Some email)) with email.
  change (default "customer"%string (Some r)) with r.
  rewrite bool_decide_eq_false_2.
  2:{ intros ([id s] & Hs & Hin)%list_elem_of_fmap. cbn in Hs. subst s.
      apply elem_of_map_to_list in Hin. by eapply Hnew. }
  set (db' := with_users _ db).
  assert (Hme : users_collection db' !! inserted_id e = Some {| role := r |}).
  { unfold db'. cbn. by rewrite lookup_insert_eq. }
  assert (Hpass : ∀ roles f, r ∈ roles →
            role_required roles db' (inserted_id e) f = f).
  { intros roles f Hin. apply role_required_pass. eexists. split; [exact Hme|done]. }
  repeat split; try done.
  intros -> victim u Hv Hnot. unfold delete_user_admin.
  rewrite Hpass by apply list_elem_of_here.
  unfold delete_user_admin_f.
  assert (Hv' : users_collection db' !! victim = Some u).
  { unfold db'. cbn. rewrite lookup_insert_ne; [done|]. congruence. }
  rewrite Hv'. apply String.eqb_neq in Hnot. by rewrite Hnot.
Qed.

Lemma register_grants_requested_role_witness :
  let '(body, code, (emails', db')) :=
    register demo_signup_env demo_emails Demo.db0 demo_visitor in
  code = 201
  ∧ (delete_user_admin db' 20%N Demo.customer).1.2 = 200.
Proof.
  pose proof (register_grants_requested_role demo_signup_env demo_emails
                Demo.db0 demo_visitor "eve@example.com" "admin"
                eq_refl eq_refl eq_refl eq_refl eq_refl) as H.
  destruct (register _ _ _ _) as [[body code] [emails' db']].
  destruct H as (_ & -> & _ & _ & H).
  - intros id Hid. unfold demo_emails in Hid.
    apply lookup_insert_Some in Hid as [[_ [=]]|[_ Hid]].
    by rewrite lookup_empty in Hid.
  - vm_compute. reflexivity.
  - split; [done|].
    apply (H eq_refl Demo.customer {| role := "customer" |}); [|discriminate].
    vm_compute. reflexivity.
Defined.

(** ** Changing roles: [update_user_admin] *)




(** ** Orders over their whole life *)

Lemma handle_keeps_projection {B} (proj : order → B) e db uid r k o :
  (∀ s now entry o, proj (set_status_update s now entry o) = proj o) →
  (∀ dp now o, proj (set_assigned dp now o) = proj o) →
  (∀ rt o, proj (set_rating rt o) = proj o) →
  (∀ c now o, proj (set_accepted c now o) = proj o) →
  (∀ now entry o, proj (set_delivering_confirmation now entry o) = proj o) →
  (∀ now entry o, proj (set_received now entry o) = proj o) →
  (∀ reason cb now o, proj (set_cancelled reason cb now o) = proj o) →
  orders_collection db !! k = Some o →
  ∃ o', orders_collection (handle e db uid r).2 !! k = Some o' ∧ proj o' = proj o.
Proof.
  intros H1 H2 H3 H4 H5 H6 H7 Ho.
  pose proof (handle_orders_write e db uid r) as Hw.
  remember (orders_collection (handle e db uid r).2) as m eqn:Hm. clear Hm.
  assert (Hkeep : ∀ f id, (∀ o, proj (f o) = proj o) →
            ∃ o', alter f id (orders_collection db) !! k = Some o' ∧ proj o' = proj o).
  { intros f id Hf. rewrite lookup_alter. case_decide as Hid.
    - subst id. rewrite Ho. cbn. eauto.
    - eauto. }
  destruct Hw as [r|data first addr o1 Hitems Hnew Hfree|id data s Hs Hin|id dp
                 |data rt|id|id entry|id entry|id data reason cb];
    try (apply Hkeep; by auto).
  - eauto.
  - destruct (decide (inserted_id e = k)) as [Heq|Hk]; [subst k; congruence|].
    rewrite lookup_insert_ne by done. eauto.
Qed.

(** X23.  What an order is about and what it costs is fixed when it is
    created: along any sequence of requests a stored order stays stored
    and keeps its number, customer, restaurant, items, address, amounts
    (subtotal, fee, discount, tax, tip, total), coupon, payment method
    and creation date. *)
Theorem order_terms_never_change db cs k o :
  orders_collection db !! k = Some o →
  ∃ o', orders_collection (final db cs) !! k = Some o'
        ∧ order_terms o' = order_terms o.
Proof.
  revert db o. induction cs as [|c cs IH]; intros db o Ho; [by eauto|].
  rewrite final_cons.
  destruct (handle_keeps_projection order_terms (call_env c) db (caller c)
              (call_request c) k o) as (o1 & Ho1 & Ht1); try done.
  destruct (IH _ _ Ho1) as (o' & Ho' & Ht'). exists o'. split; [done|].
  congruence.
Qed.

Lemma order_terms_never_change_witness :
  ∃ o', orders_collection (final Demo.db2 [demo_reopen]) !! Demo.order_id = Some o'
        ∧ total o' = Py.Float 342.24.
Proof.
  destruct demo_accepted as [o|] eqn:Ho; [|vm_compute in Ho; discriminate].
  destruct (order_terms_never_change Demo.db2 [demo_reopen] Demo.order_id o)
    as (o' & Ho' & Ht).
  - rewrite <- Ho. vm_compute. reflexivity.
  - exists o'. split; [exact Ho'|].
    assert (Htot : total o' = total o) by (unfold order_terms in Ht; congruence).
    rewrite Htot. vm_compute in Ho. injection Ho as <-. vm_compute. reflexivity.
Defined.

Lemma handle_keeps_property (P : order → Prop) e db uid r k o :
  (∀ s now entry o, P o → P (set_status_update s now entry o)) →
  (∀ dp now o, P o → P (set_assigned dp now o)) →
  (∀ rt o, P o → P (set_rating rt o)) →
  (∀ c now o, P o → P (set_accepted c now o)) →
  (∀ now entry o, P o → P (set_delivering_confirmation now entry o)) →
  (∀ now entry o, P o → P (set_received now entry o)) →
  (∀ reason cb now o, P o → P (set_cancelled reason cb now o)) →
  orders_collection db !! k = Some o → P o →
  ∃ o', orders_collection (handle e db uid r).2 !! k = Some o' ∧ P o'.
Proof.
  intros H1 H2 H3 H4 H5 H6 H7 Ho HP.
  pose proof (handle_orders_write e db uid r) as Hw.
  remember (orders_collection (handle e db uid r).2) as m eqn:Hm. clear Hm.
  assert (Hkeep : ∀ f id, (∀ o, P o → P (f o)) →
            ∃ o', alter f id (orders_collection db) !! k = Some o' ∧ P o').
  { intros f id Hf. rewrite lookup_alter. case_decide as Hid.
    - subst id. rewrite Ho. cbn. eauto.
    - eauto. }
  destruct Hw as [r|data first addr o1 Hitems Hnew Hfree|id data s Hs Hin|id dp
                 |data rt|id|id entry|id entry|id data reason cb];
    try (apply Hkeep; by auto).
  - eauto.
  - destruct (decide (inserted_id e = k)) as [Heq|Hk]; [subst k; congruence|].
    rewrite lookup_insert_ne by done. eauto.
Qed.

(** X24.  [paid] is final: no request takes an order's [paymentStatus]
    back once it is [paid], whatever becomes of its [status] (a status
    update accepts every recognised status from every state, so a paid
    order can be [pending] or [cancelled] again). *)
Theorem paid_is_permanent db cs k o :
  orders_collection db !! k = Some o →
  paymentStatus o = "paid"%string →
  ∃ o', orders_collection (final db cs) !! k = Some o'
        ∧ paymentStatus o' = "paid"%string.
Proof.
  revert db o. induction cs as [|c cs IH]; intros db o Ho Hp; [by eauto|].
  rewrite final_cons.
  destruct (handle_keeps_property (λ o, paymentStatus o = "paid"%string)
              (call_env c) db (caller c) (call_request c) k o)
    as (o1 & Ho1 & Hp1); try done.
  - intros s now entry o0 H0. cbn. by destruct (phase_of s).
  - by apply (IH _ o1).
Qed.

Lemma paid_is_permanent_witness :
  ∃ o', orders_collection (final demo_db4 [demo_reopen]) !! Demo.order_id = Some o'
        ∧ paymentStatus o' = "paid"%string.
Proof.
  destruct (orders_collection demo_db4 !! Demo.order_id) as [o|] eqn:Ho;
    [|vm_compute in Ho; discriminate].
  apply (paid_is_permanent demo_db4 [demo_reopen] Demo.order_id o Ho).
  vm_compute in Ho. by injection Ho as <-.
Defined.

(** The order of [Demo], delivered and paid, put back to [pending] by
    an operator. *)
Example paid_and_pending :
  (λ o, (status o, paymentStatus o))
    <$> orders_collection (final demo_db4 [demo_reopen]) !! Demo.order_id
  = Some ("pending", "paid")%string.
Proof. vm_compute. reflexivity. Qed.

(** ** Who is told what: the notifications of the order handlers *)

(** X25.  Who is told of a request is fixed by the handler and the
    answer.  A [create_order], [update_order_status],
    [confirm_delivery] or [confirm_received] that is answered 200 or 201
    appends exactly one notification, dated now, about the order
    concerned: [create_order] tells the caller, [update_order_status]
    and [confirm_delivery] the customer of the order,
    [confirm_received] its courier.  Every other request, and every
    request that is refused, leaves the notifications as they are:
    neither the customer nor the courier is told of an assignment, an
    acceptance or a cancellation. *)
Theorem notifications_only_added e db uid r :
  let '(body, code, db') := handle e db uid r in
  if succeeded code && negb (silent r)
  then ∃ n, notifications_collection db' = notifications_collection db ++ [n]
         ∧ addressee db uid r = Some (n_userId n)
         ∧ notified_order e r = Some (n_orderId n)
         ∧ n_createdAt n = utcnow e
  else notifications_collection db' = notifications_collection db.
Proof.
  destruct r as [data|id data|id dp|data|data|id|id|id|id data]; cbn [handle].
  - unfold create_order.
    destruct (co_items data) as [|first rest]; [done|].
    destruct (co_deliveryAddress data) as [addr|]; [|done].
    destruct (new_order e db uid data first addr) as [o|ex]; [|done].
    unfold insert_order.
    destruct (bson_order_ok o); cbn; [|done].
    destruct (orders_collection db !! inserted_id e); cbn; [done|].
    eexists. repeat split; reflexivity.
  - unfold update_order_status.
    destruct (role_required_cases ["admin"; "restaurant_owner"; "delivery"]%string
                db uid (update_order_status_f e db id data)) as [[_ ->]|[_ ->]];
      [|done].
    unfold update_order_status_f.
    destruct (us_status data) as [s|]; [|done].
    destruct (String.eqb s ""); [done|].
    destruct (negb _); [done|].
    destruct (orders_collection db !! id) as [o|] eqn:Ho; [|done]. cbn.
    eexists. split; [reflexivity|]. cbn. by rewrite Ho.
  - unfold assign_delivery_person.
    destruct (role_required_cases ["admin"; "restaurant_owner"]%string
                db uid (assign_delivery_person_f e db id dp)) as [[_ ->]|[_ ->]];
      [|done].
    unfold assign_delivery_person_f. destruct dp as [dp|]; [|done].
    destruct (delivery_persons_collection db !! dp) as [d|]; [|done].
    destruct (_ && _); done.
  - unfold create_review.
    destruct (orders_collection db !! cr_orderId data) as [o|]; [|done].
    destruct (_ && _); [|done].
    destruct (existsb _ _); [done|].
    destruct (_ ≫= _) as [x|ex]; done.
  - pose proof (validate_coupon_keeps_store e db uid data) as Hdb.
    destruct (validate_coupon e db uid data) as [[body code] db'].
    cbn in Hdb. subst db'. cbn [silent negb]. by rewrite andb_false_r.
  - unfold accept_delivery_order.
    destruct (role_required_cases ["delivery"]%string db uid
                (accept_delivery_order_f e db uid id)) as [[_ ->]|[_ ->]]; [|done].
    unfold accept_delivery_order_f.
    destruct (orders_collection db !! id) as [o|]; [|done].
    destruct (deliveryPersonId o); done.
  - unfold confirm_delivery.
    destruct (role_required_cases ["delivery"]%string db uid
                (confirm_delivery_f e db uid id)) as [[_ ->]|[_ ->]]; [|done].
    unfold confirm_delivery_f.
    destruct (orders_collection db !! id) as [o|] eqn:Ho; [|done].
    destruct (bool_decide _); [|done]. cbn.
    eexists. split; [reflexivity|]. cbn. by rewrite Ho.
  - unfold confirm_received.
    destruct (negb (is_customer db uid)); [done|].
    destruct (orders_collection db !! id) as [o|] eqn:Ho; [|done].
    destruct (negb (bool_decide _)); [done|].
    destruct (negb (String.eqb _ _)); [done|].
    destruct (deliveryPersonId o) as [courier|] eqn:Hc; [|done]. cbn.
    eexists. split; [reflexivity|]. cbn. by rewrite Ho.
  - unfold cancel_order. cbn zeta.
    destruct (orders_collection db !! id) as [o|]; [|done].
    destruct (_ && _); [done|]. destruct (_ && _); done.
Qed.

(** Cancelling the order of [Demo] leaves the customer's notifications
    as they were. *)
Example cancel_notifies_nobody :
  notifications_collection
    (cancel_order Demo.env0 Demo.db2 Demo.customer Demo.order_id
       {| ca_reason := None; ca_cancelled_by := None |}).2
  = notifications_collection Demo.db2
  ∧ (cancel_order Demo.env0 Demo.db2 Demo.customer Demo.order_id
       {| ca_reason := None; ca_cancelled_by := None |}).1.2 = 200.
Proof. vm_compute. split; reflexivity. Qed.

(** ** Reviews: [create_review] *)

Lemma create_review_inv e db uid data rv db' :
  create_review e db uid data = (review_created rv, 201, db') →
  ∃ o, orders_collection db !! cr_orderId data = Some o
    ∧ customerId o = uid ∧ status o = "delivered"%string
    ∧ rv_orderId rv = cr_orderId data
    ∧ Forall (λ r, rv_orderId r ≠ cr_orderId data) (reviews_collection db)
    ∧ db' = update_order (cr_orderId data)
              (set_rating {| r_foodRating := cr_foodRating data;
                             r_deliveryRating := cr_deliveryRating data;
                             r_comment := default "" (cr_comment data);
                             r_ratedAt := utcnow e |})
              (with_reviews (reviews_collection db ++ [rv]) db).
Proof.
  unfold create_review.
  destruct (orders_collection db !! cr_orderId data) as [o|]; [|discriminate].
  destruct (bool_decide (customerId o = uid) && String.eqb (status o) "delivered")
    eqn:E; [|discriminate].
  apply andb_true_iff in E as [Hc Hs].
  apply bool_decide_eq_true_1 in Hc. apply String.eqb_eq in Hs.
  destruct (existsb _ (reviews_collection db)) eqn:Hex; [discriminate|].
  destruct (_ ≫= _) as [x|ex]; [|discriminate].
  intros [= <- <-]. exists o. repeat split; try done.
  apply Forall_forall. intros r Hr Heq.
  assert (existsb (λ r, N.eqb (rv_orderId r) (cr_orderId data))
            (reviews_collection db) = true); [|congruence].
  apply existsb_exists. exists r. split; [by apply list_elem_of_In|].
  by apply N.eqb_eq.
Qed.

(** X26.  An order is reviewed once: when [create_review] has answered
    201 (which it does only for the customer of a [delivered] order that
    has no review yet), the review is the last of the collection and the
    order carries the rating; any further review of that order is
    refused, with 400 for its customer and 404 for anybody else, and
    changes nothing. *)
Theorem create_review_once e db uid data rv db' :
  create_review e db uid data = (review_created rv, 201, db') →
  (∃ o, orders_collection db !! cr_orderId data = Some o
        ∧ customerId o = uid ∧ status o = "delivered"%string
        ∧ (rating <$> orders_collection db' !! cr_orderId data)
          = Some (Some {| r_foodRating := cr_foodRating data;
                          r_deliveryRating := cr_deliveryRating data;
                          r_comment := default "" (cr_comment data);
                          r_ratedAt := utcnow e |}))
  ∧ reviews_collection db' = reviews_collection db ++ [rv]
  ∧ ∀ e' uid' data', cr_orderId data' = cr_orderId data →
      create_review e' db' uid' data'
      = if bool_decide (uid' = uid)
        then (message "Ya has calificado este pedido", 400, db')
        else (message "Pedido no encontrado o no entregado", 404, db').
Proof.
  intros (o & Ho & Hc & Hs & Hrv & _ & ->)%create_review_inv.
  split; [|split; [done|]].
  - exists o. repeat split; try done.
    rewrite (lookup_update_order_eq _ _ (with_reviews _ db) o) by exact Ho. done.
  - intros e' uid' data' Hid. unfold create_review at 1. rewrite Hid.
    rewrite (lookup_update_order_eq _ _ (with_reviews _ db) o) by exact Ho.
    cbn [customerId status set_rating].
    rewrite Hc, Hs. cbn [String.eqb Ascii.eqb Bool.eqb andb].
    destruct (decide (uid' = uid)) as [->|Hne].
    + rewrite !bool_decide_eq_true_2 by done. cbn [andb].
      cbn [reviews_collection update_order with_orders with_reviews].
      rewrite existsb_app. cbn. rewrite Hrv, N.eqb_refl. cbn.
      by rewrite orb_true_r.
    + rewrite bool_decide_eq_false_2 by congruence.
      by rewrite bool_decide_eq_false_2 by done.
Qed.

Lemma create_review_once_witness :
  let '(resp, db') := create_review Demo.env0 demo_db4 Demo.customer demo_review in
  resp.2 = 201
  ∧ create_review Demo.env0 db' Demo.customer demo_review
    = (message "Ya has calificado este pedido", 400, db').
Proof.
  destruct (create_review Demo.env0 demo_db4 Demo.customer demo_review)
    as [[body code] db'] eqn:E.
  assert (∃ rv, body = review_created rv ∧ code = 201) as (rv & -> & ->).
  { vm_compute in E. injection E as <- <- _. by eexists. }
  split; [done|].
  destruct (create_review_once _ _ _ _ _ _ E) as (_ & _ & H).
  rewrite (H Demo.env0 Demo.customer demo_review eq_refl).
  reflexivity.
Defined.

(** ** From the basket to the receipt *)

Lemma create_order_inv e db uid data id o db' :
  create_order e db uid data = (order_created id o, 201, db') →
  id = inserted_id e
  ∧ orders_collection db !! id = None
  ∧ customerId o = uid ∧ status o = "pending"%string
  ∧ paymentStatus o = "pending"%string ∧ deliveryPersonId o = None
  ∧ entry_status <$> statusHistory o = ["pending"%string]
  ∧ ∃ n, n_userId n = uid
      ∧ db' = notify n (with_orders (<[id := o]> (orders_collection db)) db).
Proof.
  unfold create_order.
  destruct (co_items data) as [|first rest]; [discriminate|].
  destruct (co_deliveryAddress data) as [addr|]; [|discriminate].
  destruct (new_order e db uid data first addr) as [o1|ex] eqn:Hnew; [|discriminate].
  unfold insert_order.
  destruct (bson_order_ok o1); cbn; [|discriminate].
  destruct (orders_collection db !! inserted_id e) eqn:Hfree; cbn; [discriminate|].
  intros [= <- <- <-].
  apply new_order_inv in Hnew as (_ & Hc & Hs & Hp & Hd & Hh & _).
  repeat split; try done.
  - by rewrite Hh.
  - eexists. split; [|reflexivity]. done.
Qed.

Lemma accept_delivery_order_ok e db d id o :
  has_role ["delivery"%string] db d →
  orders_collection db !! id = Some o →
  deliveryPersonId o = None →
  accept_delivery_order e db d id
  = (message "Pedido aceptado exitosamente", 200,
     update_order id (set_accepted d (utcnow e)) db).
Proof.
  intros Hr Ho Hd. unfold accept_delivery_order.
  rewrite role_required_pass by done. unfold accept_delivery_order_f.
  by rewrite Ho, Hd.
Qed.

Lemma confirm_delivery_ok e db d id o :
  has_role ["delivery"%string] db d →
  orders_collection db !! id = Some o →
  deliveryPersonId o = Some d →
  ∃ entry n,
    entry_status entry = "delivering_confirmation"%string
    ∧ n_userId n = customerId o
    ∧ confirm_delivery e db d id
      = (message "Entrega confirmada, esperando confirmación del cliente", 200,
         notify n (update_order id
                     (set_delivering_confirmation (utcnow e) entry) db)).
Proof.
  intros Hr Ho Hd. unfold confirm_delivery.
  rewrite role_required_pass by done. unfold confirm_delivery_f.
  rewrite Ho, bool_decide_eq_true_2 by done.
  do 2 eexists. split; [|split; [|reflexivity]]; reflexivity.
Qed.

Lemma confirm_received_ok e db c id o d :
  is_customer db c = true →
  orders_collection db !! id = Some o →
  customerId o = c →
  status o = "delivering_confirmation"%string →
  deliveryPersonId o = Some d →
  ∃ entry n,
    entry_status entry = "delivered"%string
    ∧ n_userId n = d
    ∧ confirm_received e db c id
      = (message "Pedido marcado como entregado", 200,
         notify n (update_order id (set_received (utcnow e) entry) db)).
Proof.
  intros Hc Ho Hcust Hs Hd. unfold confirm_received.
  rewrite Hc, Ho, Hd, Hs, bool_decide_eq_true_2 by done. cbn.
  do 2 eexists. split; [|split; [|reflexivity]]; reflexivity.
Qed.

(** X27.  The pull path from end to end.  An order a customer has
    placed, accepted by a courier, reported delivered by that courier
    and confirmed by the customer, each step answered 200, ends
    [delivered] and [paid] with that courier, with the three dates set
    by the three steps and the terms it was created with; its history
    reads [pending], [delivering_confirmation], [delivered] (the
    acceptance is not in it), and the customer has been notified twice
    and the courier once. *)
Theorem pull_path_end_to_end e1 e2 e3 e4 db c d data id o db1 :
  is_customer db c = true →
  has_role ["delivery"%string] db d →
  create_order e1 db c data = (order_created id o, 201, db1) →
  let r2 := accept_delivery_order e2 db1 d id in
  let r3 := confirm_delivery e3 r2.2 d id in
  let r4 := confirm_received e4 r3.2 c id in
  r2.1.2 = 200 ∧ r3.1.2 = 200 ∧ r4.1.2 = 200
  ∧ ∃ o4, orders_collection r4.2 !! id = Some o4
      ∧ status o4 = "delivered"%string
      ∧ paymentStatus o4 = "paid"%string
      ∧ deliveryPersonId o4 = Some d
      ∧ entry_status <$> statusHistory o4
        = ["pending"; "delivering_confirmation"; "delivered"]%string
      ∧ acceptedAt o4 = Some (utcnow e2)
      ∧ deliveredAt o4 = Some (utcnow e3)
      ∧ receivedAt o4 = Some (utcnow e4)
      ∧ order_terms o4 = order_terms o
      ∧ n_userId <$> notifications_collection r4.2
        = (n_userId <$> notifications_collection db) ++ [c; c; d].
Proof.
  intros Hc Hd Hcreate. cbn zeta.
  apply create_order_inv in Hcreate
    as (-> & Hfree & Hcust & Hst & Hpay & Hnone & Hhist & n1 & Hn1 & ->).
  set (db1 := notify n1 _).
  assert (Ho1 : orders_collection db1 !! inserted_id e1 = Some o)
    by (unfold db1; cbn; by rewrite lookup_insert_eq).
  rewrite (accept_delivery_order_ok e2 db1 d (inserted_id e1) o Hd Ho1 Hnone).
  cbn [fst snd].
  set (o2 := set_accepted d (utcnow e2) o).
  set (db2 := update_order _ _ db1).
  assert (Ho2 : orders_collection db2 !! inserted_id e1 = Some o2)
    by (by apply lookup_update_order_eq).
  destruct (confirm_delivery_ok e3 db2 d (inserted_id e1) o2 Hd Ho2 eq_refl)
    as (entry3 & n3 & He3 & Hn3 & ->).
  cbn [fst snd].
  set (o3 := set_delivering_confirmation (utcnow e3) entry3 o2).
  set (db3 := notify n3 _).
  assert (Ho3 : orders_collection db3 !! inserted_id e1 = Some o3).
  { unfold db3. rewrite orders_notify. by apply lookup_update_order_eq. }
  destruct (confirm_received_ok e4 db3 c (inserted_id e1) o3 d Hc Ho3 Hcust
              eq_refl eq_refl) as (entry4 & n4 & He4 & Hn4 & ->).
  cbn [fst snd]. repeat (split; [done|]).
  exists (set_received (utcnow e4) entry4 o3). split.
  { rewrite orders_notify. by apply lookup_update_order_eq. }
  repeat (split; [done|]). split.
  { cbn. rewrite !fmap_app. cbn. by rewrite Hhist, He3, He4. }
  repeat (split; [done|]).
  cbn. rewrite !fmap_app. cbn. rewrite Hn1, Hn3, Hn4. cbn.
  by rewrite Hcust, <- !app_assoc.
Qed.

Lemma pull_path_end_to_end_witness :
  (λ o, (status o, paymentStatus o, entry_status <$> statusHistory o))
    <$> orders_collection demo_db4 !! Demo.order_id
  = Some ("delivered", "paid",
          ["pending"; "delivering_confirmation"; "delivered"])%string.
Proof.
  destruct (create_order Demo.env0 Demo.db0 Demo.customer Demo.basket)
    as [[body code] db1] eqn:E.
  assert (∃ o, body = order_created Demo.order_id o ∧ code = 201 ∧ db1 = Demo.db1)
    as (o & -> & -> & ->).
  { unfold Demo.db1. rewrite E. cbn [snd]. vm_compute in E.
    injection E as <- <- _. by eexists. }
  destruct (pull_path_end_to_end Demo.env0 Demo.env0 Demo.env0 Demo.env0
              Demo.db0 Demo.customer Demo.courier_a Demo.basket Demo.order_id o
              Demo.db1) as (_ & _ & _ & o4 & Ho4 & Hs & Hp & _ & Hh & _).
  - vm_compute. reflexivity.
  - exists {| role := "delivery" |}. split; [reflexivity|]. apply list_elem_of_here.
  - exact E.
  - change (orders_collection demo_db4 !! Demo.order_id = Some o4) in Ho4.
    rewrite Ho4. cbn. by rewrite Hs, Hp, Hh.
Defined.
